(** * Sistema de reserva de recursos compartidos

    A shallow embedding of [reservas/models.py], [reservas/services.py]
    ([GestorRecursos]), the JSON endpoints of [reservas/views.py], the
    registration of [reservas/views_auth.py] and the group names of
    [reservas/consumers.py], with the properties of the reservation manager
    stated and proved on it.

    Conventions of the embedding.
    - The four tables are lists of rows in insertion order; a primary key
      is an integer, and a new row gets one more than the largest key of
      its table.
    - Python integers are unbounded, so [reloj_lamport] is a [Z].  The
      storage refuses an integer that does not fit a 64-bit column; the
      operations are modelled for integers that fit, and a theorem that
      asserts that a request is stored says so in a hypothesis
      ([almacenable]).
    - [timezone.now()] and the behaviour of the channel layer are inputs of
      each call, gathered in an [Entorno]; one clock reading serves the
      whole call.
    - Exceptions are results ([Raise]); [transaction.atomic] restores the
      tables when its body raises.  The effects that matter for ordering
      (begin, row lock, group_send, commit, rollback) are recorded in a
      trace that a rollback does not erase. *)

From Stdlib Require Import ZArith List String Bool Lia Sorted Permutation.
From Stdlib Require Decimal DecimalFacts DecimalZ DecimalString.
Import ListNotations.
Local Open Scope string_scope.
Local Open Scope list_scope.
Local Open Scope Z_scope.

Set Implicit Arguments.

(* ====================================================================== *)
(** * Data model ([reservas/models.py])                                    *)
(* ====================================================================== *)

(** [Recurso.ESTADOS_RECURSO]. *)
Inductive EstadoRecurso : Type :=
  | DISPONIBLE
  | OCUPADO
  | FUERA_SERVICIO.

(** [Reserva.ESTADOS_SOLICITUD]. *)
Inductive EstadoSolicitud : Type :=
  | EN_COLA
  | ACTIVA
  | FINALIZADA
  | CANCELADA
  | RECHAZADA
  | EXPIRADA.

Definition estado_recurso_eqb (a b : EstadoRecurso) : bool :=
  match a, b with
  | DISPONIBLE, DISPONIBLE => true
  | OCUPADO, OCUPADO => true
  | FUERA_SERVICIO, FUERA_SERVICIO => true
  | _, _ => false
  end.

Definition estado_eqb (a b : EstadoSolicitud) : bool :=
  match a, b with
  | EN_COLA, EN_COLA => true
  | ACTIVA, ACTIVA => true
  | FINALIZADA, FINALIZADA => true
  | CANCELADA, CANCELADA => true
  | RECHAZADA, RECHAZADA => true
  | EXPIRADA, EXPIRADA => true
  | _, _ => false
  end.

(** The text stored in the column, as written in the source. *)
Definition texto_estado (e : EstadoSolicitud) : string :=
  match e with
  | EN_COLA => "EN_COLA"
  | ACTIVA => "ACTIVA"
  | FINALIZADA => "FINALIZADA"
  | CANCELADA => "CANCELADA"
  | RECHAZADA => "RECHAZADA"
  | EXPIRADA => "EXPIRADA"
  end.

(** [Cliente]: a node of the distributed system.  The column [nombre] is
    not read by the operations modelled here. *)
Record Cliente : Type := mkCliente {
  cliente_pk : Z;
  identificador_externo : string
}.

(** [Recurso]; [reserva_actual] is the nullable foreign key to [Reserva].
    The columns [nombre], [descripcion] and [fecha_creacion] are not read
    by the operations modelled here. *)
Record Recurso : Type := mkRecurso {
  recurso_pk : Z;
  codigo : string;
  estado_recurso : EstadoRecurso;
  reserva_actual : option Z
}.

(** [Reserva]: a request for a resource.  [recurso] is the foreign key;
    [cliente] holds the referenced row (clients are never modified). *)
Record Reserva : Type := mkReserva {
  reserva_pk : Z;
  recurso : Z;
  cliente : Cliente;
  reloj_lamport : Z;
  prioridad_id : string;
  estado : EstadoSolicitud;
  fecha_concesion : option Z;
  fecha_liberacion : option Z;
  fecha_creacion : Z
}.

(** A value of the JSON document [Evento.datos]. *)
Inductive Dato : Type :=
  | DTexto (s : string)
  | DEntero (z : Z).

(** [Evento]: one row of the audit log. *)
Record Evento : Type := mkEvento {
  evento_pk : Z;
  evento_reserva : option Z;
  tipo_evento : string;
  ts_cliente : option Z;
  ts_servidor : Z;
  datos : list (string * Dato)
}.

(** The stored state: the four tables. *)
Record DB : Type := mkDB {
  clientes : list Cliente;
  recursos : list Recurso;
  reservas : list Reserva;
  eventos : list Evento
}.

(* ====================================================================== *)
(** * Effects, exceptions and the monad of a call                          *)
(* ====================================================================== *)

(** What [get_channel_layer()] and [group_send] do during one call. *)
Inductive Canal : Type :=
  | SinCanal       (* get_channel_layer() is None *)
  | CanalEntrega   (* group_send returns *)
  | CanalFalla.    (* group_send raises *)

Record Entorno : Type := mkEntorno {
  ahora : Z;
  canal : Canal
}.

Inductive Efecto : Type :=
  | TxBegin
  | SelectForUpdate (recurso_id : Z)
  | GroupSend (recurso_id : Z)
  | TxCommit
  | TxRollback.

Inductive Excepcion : Type :=
  | DoesNotExist
  | Http404
  | TypeError
  | ErrorCanal
  | UnicodeDecodeError
  | AttributeError.

Inductive Resultado (A : Type) : Type :=
  | Ok (a : A)
  | Raise (e : Excepcion).
Arguments Raise {A} e.

Record Mundo : Type := mkMundo {
  db : DB;
  traza : list Efecto
}.

Definition M (A : Type) : Type := Mundo -> Resultado A * Mundo.

Definition ret {A} (a : A) : M A := fun w => (Ok a, w).

Definition bind {A B} (m : M A) (k : A -> M B) : M B :=
  fun w =>
    match m w with
    | (Ok a, w') => k a w'
    | (Raise e, w') => (Raise e, w')
    end.

Definition raise {A} (e : Excepcion) : M A := fun w => (Raise e, w).

Definition leer : M DB := fun w => (Ok (db w), w).

Definition escribir (d : DB) : M unit :=
  fun w => (Ok tt, mkMundo d (traza w)).

Definition efecto (e : Efecto) : M unit :=
  fun w => (Ok tt, mkMundo (db w) (traza w ++ [e])).

Declare Scope m_scope.
Delimit Scope m_scope with m.
Notation "x <- c ;; k" := (bind c (fun x => k))
  (at level 61, c at next level, right associativity) : m_scope.
Notation "c ;; k" := (bind c (fun _ => k))
  (at level 61, right associativity) : m_scope.
Local Open Scope m_scope.

(** [@transaction.atomic]: the body runs between begin and commit; if it
    raises, the tables are put back as they were and the exception goes on
    to the caller. *)
Definition atomic {A} (cuerpo : M A) : M A :=
  fun w =>
    match (efecto TxBegin ;; cuerpo) w with
    | (Ok a, w') => (Ok a, mkMundo (db w') (traza w' ++ [TxCommit]))
    | (Raise e, w') => (Raise e, mkMundo (db w) (traza w' ++ [TxRollback]))
    end.

(* ====================================================================== *)
(** * Queries                                                              *)
(* ====================================================================== *)

(** [x or 0] on an integer. *)
Definition or_0 (x : Z) : Z := if x =? 0 then 0 else x.

(** [x or 0] on an aggregate, which is [None] over no rows. *)
Definition or_0_opt (x : option Z) : Z :=
  match x with
  | None => 0
  | Some z => or_0 z
  end.

(** [aggregate(Max(...))]. *)
Fixpoint aggregate_max (l : list Z) : option Z :=
  match l with
  | [] => None
  | x :: l' =>
      match aggregate_max l' with
      | None => Some x
      | Some m => Some (Z.max x m)
      end
  end.

(** The key the storage gives to a new row. *)
Definition siguiente_pk (pks : list Z) : Z := or_0_opt (aggregate_max pks) + 1.

(** [order_by]: a stable sort, here by insertion; [le a b] says that [a]
    may come before [b]. *)
Fixpoint insertar {A} (le : A -> A -> bool) (x : A) (l : list A) : list A :=
  match l with
  | [] => [x]
  | y :: l' => if le x y then x :: y :: l' else y :: insertar le x l'
  end.

Fixpoint order_by {A} (le : A -> A -> bool) (l : list A) : list A :=
  match l with
  | [] => []
  | x :: l' => insertar le x (order_by le l')
  end.

(** [.first()]. *)
Definition first {A} (l : list A) : option A := hd_error l.

(** [order_by('reloj_lamport', 'prioridad_id')]: ascending logical clock,
    then ascending text of the tie-break key. *)
Definition clave_leb (a b : Reserva) : bool :=
  (reloj_lamport a <? reloj_lamport b)
  || ((reloj_lamport a =? reloj_lamport b)
      && String.leb (prioridad_id a) (prioridad_id b)).

(** [order_by('-fecha_creacion')]: latest first. *)
Definition creacion_desc_leb (a b : Reserva) : bool :=
  fecha_creacion b <=? fecha_creacion a.

(** [Recurso.objects.get(id=...)] on the table. *)
Definition buscar_recurso (rid : Z) (d : DB) : option Recurso :=
  find (fun r => recurso_pk r =? rid) (recursos d).

Definition buscar_cliente (cid : Z) (d : DB) : option Cliente :=
  find (fun c => cliente_pk c =? cid) (clientes d).

Definition buscar_reserva (pk : Z) (d : DB) : option Reserva :=
  find (fun r => reserva_pk r =? pk) (reservas d).

(** [Reserva.objects.filter(recurso=recurso)]. *)
Definition reservas_de (rid : Z) (d : DB) : list Reserva :=
  filter (fun r => recurso r =? rid) (reservas d).

(** [Reserva.objects.filter(recurso=recurso, estado=e)]. *)
Definition reservas_en (rid : Z) (e : EstadoSolicitud) (d : DB) : list Reserva :=
  filter (fun r => (recurso r =? rid) && estado_eqb (estado r) e) (reservas d).

(** [Reserva.objects.filter(recurso=recurso, cliente=cliente, estado='ACTIVA')]. *)
Definition activas_de_cliente (rid : Z) (c : Cliente) (d : DB) : list Reserva :=
  filter (fun r => (recurso r =? rid)
                   && (cliente_pk (cliente r) =? cliente_pk c)
                   && estado_eqb (estado r) ACTIVA) (reservas d).

(* ====================================================================== *)
(** * Writes                                                               *)
(* ====================================================================== *)

(** [recurso.save()]: the row with this key is replaced. *)
Definition guardar_recurso (r : Recurso) (d : DB) : DB :=
  mkDB (clientes d)
       (map (fun x => if recurso_pk x =? recurso_pk r then r else x) (recursos d))
       (reservas d) (eventos d).

(** [reserva.save()]. *)
Definition reemplazar_reserva (r : Reserva) (l : list Reserva) : list Reserva :=
  map (fun x => if reserva_pk x =? reserva_pk r then r else x) l.

Definition guardar_reserva (r : Reserva) (d : DB) : DB :=
  mkDB (clientes d) (recursos d) (reemplazar_reserva r (reservas d)) (eventos d).

Definition insertar_reserva (r : Reserva) (d : DB) : DB :=
  mkDB (clientes d) (recursos d) (reservas d ++ [r]) (eventos d).

Definition insertar_evento (e : Evento) (d : DB) : DB :=
  mkDB (clientes d) (recursos d) (reservas d) (eventos d ++ [e]).

Definition Recurso_save (r : Recurso) : M unit :=
  d <- leer ;; escribir (guardar_recurso r d).

Definition Reserva_save (r : Reserva) : M unit :=
  d <- leer ;; escribir (guardar_reserva r d).

(** [Reserva.objects.create(...)]: [fecha_creacion] is [auto_now_add] and
    [fecha_liberacion] is left empty.  The row is written as given: that
    [reloj_lamport] fits its 64-bit column ([cabe_en_bigint]) is a
    hypothesis of the theorems that assert the row is stored. *)
Definition Reserva_create (env : Entorno) (rid : Z) (c : Cliente) (reloj : Z)
    (prioridad : string) (e : EstadoSolicitud) (concesion : option Z) : M Reserva :=
  d <- leer ;;
  let r := mkReserva (siguiente_pk (map reserva_pk (reservas d)))
                     rid c reloj prioridad e concesion None (ahora env) in
  escribir (insertar_reserva r d) ;;
  ret r.

(** [Evento.objects.create(...)]: [ts_servidor] is [auto_now_add].  The row
    is written as given: that [ts_cliente] fits its 64-bit column
    ([cabe_en_bigint]) is a hypothesis of the theorems that assert the row
    is stored. *)
Definition Evento_create (env : Entorno) (r : Reserva) (tipo : string)
    (ts : option Z) (dat : list (string * Dato)) : M unit :=
  d <- leer ;;
  let e := mkEvento (siguiente_pk (map evento_pk (eventos d)))
                    (Some (reserva_pk r)) tipo ts (ahora env) dat in
  escribir (insertar_evento e d).

(** [Recurso.objects.select_for_update().get(id=recurso_id)]. *)
Definition select_for_update_get (rid : Z) : M Recurso :=
  d <- leer ;;
  match buscar_recurso rid d with
  | None => raise DoesNotExist
  | Some r => efecto (SelectForUpdate rid) ;; ret r
  end.

(* ====================================================================== *)
(** * [GestorRecursos] ([reservas/services.py])                            *)
(* ====================================================================== *)

(** [_notificar_cambio_cola]: nothing without a channel layer; otherwise
    [group_send] to the group of the resource, with no handler around it. *)
Definition _notificar_cambio_cola (env : Entorno) (rid : Z) : M unit :=
  match canal env with
  | SinCanal => ret tt
  | CanalEntrega => efecto (GroupSend rid)
  | CanalFalla => raise ErrorCanal
  end.

Definition con_estado_recurso (e : EstadoRecurso) (r : Recurso) : Recurso :=
  mkRecurso (recurso_pk r) (codigo r) e (reserva_actual r).

Definition con_reserva_actual (a : option Z) (r : Recurso) : Recurso :=
  mkRecurso (recurso_pk r) (codigo r) (estado_recurso r) a.

Definition solicitar_reserva (env : Entorno) (recurso_id : Z) (cli : Cliente)
    (ts : Z) : M Reserva :=
  atomic (
    rec <- select_for_update_get recurso_id ;;
    d <- leer ;;
    let last_ts :=
      or_0_opt (aggregate_max (map reloj_lamport (reservas_de (recurso_pk rec) d))) in
    let reloj := Z.max (or_0 ts) last_ts + 1 in
    let prioridad := identificador_externo cli in
    let '(est, rec1) :=
      if estado_recurso_eqb (estado_recurso rec) DISPONIBLE
      then (ACTIVA, con_estado_recurso OCUPADO rec)
      else (EN_COLA, rec) in
    reserva <- Reserva_create env (recurso_pk rec) cli reloj prioridad est
                 (if estado_eqb est ACTIVA then Some (ahora env) else None) ;;
    let rec2 :=
      if estado_eqb est ACTIVA
      then con_reserva_actual (Some (reserva_pk reserva)) rec1
      else rec1 in
    Recurso_save rec2 ;;
    Evento_create env reserva "SOLICITUD" (Some ts)
      [ ("accion", DTexto "solicitar");
        ("estado_resultante", DTexto (texto_estado est));
        ("reloj_lamport", DEntero reloj);
        ("prioridad_id", DTexto prioridad);
        ("cliente", DTexto (identificador_externo cli));
        ("recurso", DTexto (codigo rec2)) ] ;;
    _notificar_cambio_cola env (recurso_pk rec2) ;;
    ret reserva).

Definition finalizada (env : Entorno) (r : Reserva) : Reserva :=
  mkReserva (reserva_pk r) (recurso r) (cliente r) (reloj_lamport r)
            (prioridad_id r) FINALIZADA (fecha_concesion r)
            (Some (ahora env)) (fecha_creacion r).

Definition concedida (env : Entorno) (r : Reserva) : Reserva :=
  mkReserva (reserva_pk r) (recurso r) (cliente r) (reloj_lamport r)
            (prioridad_id r) ACTIVA (Some (ahora env))
            (fecha_liberacion r) (fecha_creacion r).

Definition liberar_reserva (env : Entorno) (recurso_id : Z) (cli : Cliente)
    : M (option Reserva) :=
  atomic (
    rec <- select_for_update_get recurso_id ;;
    d <- leer ;;
    match first (order_by creacion_desc_leb
                   (activas_de_cliente (recurso_pk rec) cli d)) with
    | None => ret None
    | Some reserva0 =>
        let reserva := finalizada env reserva0 in
        Reserva_save reserva ;;
        let rec1 := con_reserva_actual None (con_estado_recurso DISPONIBLE rec) in
        Evento_create env reserva "LIBERACION" None
          [ ("accion", DTexto "liberar");
            ("cliente", DTexto (identificador_externo cli));
            ("recurso", DTexto (codigo rec1)) ] ;;
        d1 <- leer ;;
        rec2 <-
          match first (order_by clave_leb
                         (reservas_en (recurso_pk rec1) EN_COLA d1)) with
          | Some siguiente0 =>
              let siguiente := concedida env siguiente0 in
              Reserva_save siguiente ;;
              let rec2 :=
                con_reserva_actual (Some (reserva_pk siguiente))
                  (con_estado_recurso OCUPADO rec1) in
              Evento_create env siguiente "CONCESION" None
                [ ("accion", DTexto "conceder_desde_cola");
                  ("cliente", DTexto (identificador_externo (cliente siguiente)));
                  ("recurso", DTexto (codigo rec2));
                  ("reloj_lamport", DEntero (reloj_lamport siguiente));
                  ("prioridad_id", DTexto (prioridad_id siguiente)) ] ;;
              ret rec2
          | None => ret rec1
          end ;;
        Recurso_save rec2 ;;
        _notificar_cambio_cola env (recurso_pk rec2) ;;
        ret (Some reserva)
    end).

(* ====================================================================== *)
(** * The JSON endpoints ([reservas/views.py])                             *)
(* ====================================================================== *)

Inductive Metodo : Type :=
  | GET
  | POST
  | OtroMetodo.

(** A value of the request body.  Bodies are modelled up to objects whose
    fields are integers or null. *)
Inductive Json : Type :=
  | JNull
  | JInt (z : Z).

(** The outcome of [json.loads(request.body.decode('utf-8'))]: text that
    is not JSON ([json.JSONDecodeError]), the items of the decoded object
    (its keys are distinct), bytes that are not UTF-8 ([decode] raises
    [UnicodeDecodeError]), or JSON that is not an object (a list, a number,
    a string, ...), which has no [get]. *)
Inductive Cuerpo : Type :=
  | JSONInvalido
  | Payload (campos : list (string * Json))
  | NoUTF8
  | NoObjeto.

Record HttpRequest : Type := mkRequest {
  method : Metodo;
  body : Cuerpo
}.

Inductive HttpResponse : Type :=
  | JsonSolicitar (reserva_id : Z) (est : EstadoSolicitud)
  | JsonLiberar (ok liberada : bool)
  | HttpResponseBadRequest (mensaje : string)
  | HttpResponseNotFound
  | HttpResponseServerError.

Definition status_code (r : HttpResponse) : Z :=
  match r with
  | JsonSolicitar _ _ => 200
  | JsonLiberar _ _ => 200
  | HttpResponseBadRequest _ => 400
  | HttpResponseNotFound => 404
  | HttpResponseServerError => 500
  end.

(** The item of a key, if the object has one. *)
Fixpoint payload_item (k : string) (campos : list (string * Json)) : option Json :=
  match campos with
  | [] => None
  | (k', v) :: l => if String.eqb k k' then Some v else payload_item k l
  end.

(** [payload.get(k)]: [None] when the key is absent or holds null. *)
Definition payload_get (k : string) (campos : list (string * Json)) : option Z :=
  match payload_item k campos with
  | Some (JInt z) => Some z
  | _ => None
  end.

(** [not cliente_id]. *)
Definition falsy (x : option Z) : bool :=
  match x with
  | None => true
  | Some z => z =? 0
  end.

(** [get_object_or_404(Cliente, id=cliente_id)]. *)
Definition get_cliente_or_404 (cid : option Z) : M Cliente :=
  d <- leer ;;
  match cid with
  | None => raise Http404
  | Some z =>
      match buscar_cliente z d with
      | None => raise Http404
      | Some c => ret c
      end
  end.

(** What the framework answers for a view: its response, 404 for [Http404],
    500 for any other exception that leaves the view. *)
Definition responder (v : M HttpResponse) : Mundo -> HttpResponse * Mundo :=
  fun w =>
    match v w with
    | (Ok r, w') => (r, w')
    | (Raise Http404, w') => (HttpResponseNotFound, w')
    | (Raise _, w') => (HttpResponseServerError, w')
    end.

(** [int(payload.get('ts_cliente', 0))]: the default serves an absent key
    only; [int(None)] raises. *)
Definition ts_de_payload (campos : list (string * Json)) : M Z :=
  match payload_item "ts_cliente" campos with
  | None => ret 0
  | Some (JInt z) => ret z
  | Some JNull => raise TypeError
  end.

Definition solicitar_reserva_api (env : Entorno) (request : HttpRequest)
    (recurso_id : Z) : Mundo -> HttpResponse * Mundo :=
  responder (
    match method request with
    | POST =>
        match body request with
        | JSONInvalido => ret (HttpResponseBadRequest "JSON inválido")
        | Payload payload =>
            let cliente_id := payload_get "cliente_id" payload in
            ts <- ts_de_payload payload ;;
            if falsy cliente_id
            then ret (HttpResponseBadRequest "cliente_id es requerido")
            else
              cli <- get_cliente_or_404 cliente_id ;;
              reserva <- solicitar_reserva env recurso_id cli ts ;;
              ret (JsonSolicitar (reserva_pk reserva) (estado reserva))
        | NoUTF8 => raise UnicodeDecodeError
        | NoObjeto => raise AttributeError
        end
    | _ => ret (HttpResponseBadRequest "Método no permitido")
    end).

(** [bool(reserva)]. *)
Definition truthy {A} (x : option A) : bool :=
  match x with
  | None => false
  | Some _ => true
  end.

Definition liberar_reserva_api (env : Entorno) (request : HttpRequest)
    (recurso_id : Z) : Mundo -> HttpResponse * Mundo :=
  responder (
    match method request with
    | POST =>
        match body request with
        | JSONInvalido => ret (HttpResponseBadRequest "JSON inválido")
        | Payload payload =>
            let cliente_id := payload_get "cliente_id" payload in
            if falsy cliente_id
            then ret (HttpResponseBadRequest "cliente_id es requerido")
            else
              cli <- get_cliente_or_404 cliente_id ;;
              reserva <- liberar_reserva env recurso_id cli ;;
              ret (JsonLiberar true (truthy reserva))
        | NoUTF8 => raise UnicodeDecodeError
        | NoObjeto => raise AttributeError
        end
    | _ => ret (HttpResponseBadRequest "Método no permitido")
    end).

(* ====================================================================== *)
(** * Sequences of operations                                              *)
(* ====================================================================== *)

Inductive Operacion : Type :=
  | Solicitar (env : Entorno) (recurso_id : Z) (cli : Cliente) (ts : Z)
  | Liberar (env : Entorno) (recurso_id : Z) (cli : Cliente).

Definition ejecutar (o : Operacion) (w : Mundo) : Mundo :=
  match o with
  | Solicitar env rid c ts => snd (solicitar_reserva env rid c ts w)
  | Liberar env rid c => snd (liberar_reserva env rid c w)
  end.

Definition ejecutar_todas (ops : list Operacion) (w : Mundo) : Mundo :=
  fold_left (fun w' o => ejecutar o w') ops w.

(** The state before any operation: no reservation exists, so no resource
    is held: none is [OCUPADO] and none points to a reservation. *)
Definition inicial (d : DB) : Prop :=
  reservas d = []
  /\ forall r, In r (recursos d) ->
       estado_recurso r <> OCUPADO /\ reserva_actual r = None.

(* ====================================================================== *)
(** * The range of the integer columns                                     *)
(* ====================================================================== *)

(** What a [BigIntegerField] holds ([Reserva.reloj_lamport],
    [Evento.ts_cliente]) and what a key of the storage can be: a signed
    64-bit integer.  The storage raises for any other integer. *)
Definition cabe_en_bigint (z : Z) : Prop := - 2 ^ 63 <= z <= 2 ^ 63 - 1.

(** The integers that a request on [rid] with timestamp [ts] writes fit
    their columns: the timestamp, which goes to the log, and the clock of
    the new reservation, which is one more than the timestamp and than
    every clock stored for the resource. *)
Definition almacenable (rid ts : Z) (d : DB) : Prop :=
  cabe_en_bigint ts
  /\ ts < 2 ^ 63 - 1
  /\ forall q, In q (reservas d) -> recurso q = rid ->
               reloj_lamport q < 2 ^ 63 - 1.

(* ====================================================================== *)
(** * What one call writes                                                 *)
(* ====================================================================== *)

(** The pieces of the state after a call, named so that the lemmas on
    [solicitar_reserva] and [liberar_reserva] can speak of them. *)

Definition activas (rid : Z) (d : DB) : list Reserva := reservas_en rid ACTIVA d.

Definition en_cola (rid : Z) (d : DB) : list Reserva := reservas_en rid EN_COLA d.

Definition ultimo_reloj (rid : Z) (d : DB) : Z :=
  or_0_opt (aggregate_max (map reloj_lamport (reservas_de rid d))).

Definition estado_solicitud (rec : Recurso) : EstadoSolicitud :=
  if estado_recurso_eqb (estado_recurso rec) DISPONIBLE then ACTIVA else EN_COLA.

Definition reserva_solicitada (env : Entorno) (rec : Recurso) (cli : Cliente)
    (ts : Z) (d : DB) : Reserva :=
  mkReserva (siguiente_pk (map reserva_pk (reservas d)))
            (recurso_pk rec) cli
            (Z.max (or_0 ts) (ultimo_reloj (recurso_pk rec) d) + 1)
            (identificador_externo cli)
            (estado_solicitud rec)
            (if estado_eqb (estado_solicitud rec) ACTIVA then Some (ahora env) else None)
            None (ahora env).

Definition recurso_tras_solicitar (rec : Recurso) (r : Reserva) : Recurso :=
  if estado_recurso_eqb (estado_recurso rec) DISPONIBLE
  then mkRecurso (recurso_pk rec) (codigo rec) OCUPADO (Some (reserva_pk r))
  else rec.

Definition evento_solicitud (env : Entorno) (rec : Recurso) (cli : Cliente)
    (ts : Z) (r : Reserva) (d : DB) : Evento :=
  mkEvento (siguiente_pk (map evento_pk (eventos d)))
           (Some (reserva_pk r)) "SOLICITUD" (Some ts) (ahora env)
           [ ("accion", DTexto "solicitar");
             ("estado_resultante", DTexto (texto_estado (estado r)));
             ("reloj_lamport", DEntero (reloj_lamport r));
             ("prioridad_id", DTexto (prioridad_id r));
             ("cliente", DTexto (identificador_externo cli));
             ("recurso", DTexto (codigo rec)) ].

Definition db_tras_solicitar (env : Entorno) (rec : Recurso) (cli : Cliente)
    (ts : Z) (d : DB) : DB :=
  let r := reserva_solicitada env rec cli ts d in
  insertar_evento (evento_solicitud env rec cli ts r d)
    (guardar_recurso (recurso_tras_solicitar rec r) (insertar_reserva r d)).

(** The trace of a call that found its resource. *)
Definition traza_llamada (env : Entorno) (rid : Z) : list Efecto :=
  match canal env with
  | SinCanal => [TxBegin; SelectForUpdate rid; TxCommit]
  | CanalEntrega => [TxBegin; SelectForUpdate rid; GroupSend rid; TxCommit]
  | CanalFalla => [TxBegin; SelectForUpdate rid; TxRollback]
  end.

Definition evento_liberacion (env : Entorno) (rec : Recurso) (cli : Cliente)
    (r : Reserva) (d : DB) : Evento :=
  mkEvento (siguiente_pk (map evento_pk (eventos d)))
           (Some (reserva_pk r)) "LIBERACION" None (ahora env)
           [ ("accion", DTexto "liberar");
             ("cliente", DTexto (identificador_externo cli));
             ("recurso", DTexto (codigo rec)) ].

Definition evento_concesion (env : Entorno) (rec : Recurso) (s : Reserva)
    (d : DB) : Evento :=
  mkEvento (siguiente_pk (map evento_pk (eventos d)))
           (Some (reserva_pk s)) "CONCESION" None (ahora env)
           [ ("accion", DTexto "conceder_desde_cola");
             ("cliente", DTexto (identificador_externo (cliente s)));
             ("recurso", DTexto (codigo rec));
             ("reloj_lamport", DEntero (reloj_lamport s));
             ("prioridad_id", DTexto (prioridad_id s)) ].

(** The tables once the released reservation and its event are written. *)
Definition db_finalizada (env : Entorno) (rec : Recurso) (cli : Cliente)
    (r0 : Reserva) (d : DB) : DB :=
  let d' := guardar_reserva (finalizada env r0) d in
  insertar_evento (evento_liberacion env rec cli (finalizada env r0) d') d'.

(** The reservation the release picks from the queue, if any. *)
Definition siguiente_en_cola (rid : Z) (d : DB) : option Reserva :=
  first (order_by clave_leb (en_cola rid d)).

(** The reservation of the client that a release finishes, if any. *)
Definition activa_del_cliente (rid : Z) (cli : Cliente) (d : DB) : option Reserva :=
  first (order_by creacion_desc_leb (activas_de_cliente rid cli d)).

Definition db_tras_liberar (env : Entorno) (rec : Recurso) (cli : Cliente)
    (r0 : Reserva) (d : DB) : DB :=
  let d1 := db_finalizada env rec cli r0 d in
  match siguiente_en_cola (recurso_pk rec) d1 with
  | Some s0 =>
      let s := concedida env s0 in
      let d2 := guardar_reserva s d1 in
      guardar_recurso
        (mkRecurso (recurso_pk rec) (codigo rec) OCUPADO (Some (reserva_pk s)))
        (insertar_evento (evento_concesion env rec s d2) d2)
  | None =>
      guardar_recurso (mkRecurso (recurso_pk rec) (codigo rec) DISPONIBLE None) d1
  end.

(** Position of the first event of a kind for a reservation in the log. *)
Fixpoint posicion_evento (tipo : string) (pk : Z) (l : list Evento) : option nat :=
  match l with
  | [] => None
  | e :: l' =>
      if String.eqb (tipo_evento e) tipo
         && match evento_reserva e with Some k => k =? pk | None => false end
      then Some O
      else option_map S (posicion_evento tipo pk l')
  end.




(** The invariant of mutual exclusion, for one resource of the table. *)
Definition exclusion_mutua (d : DB) : Prop :=
  forall rec, In rec (recursos d) ->
    (List.length (activas (recurso_pk rec) d) <= 1)%nat
    /\ (estado_recurso rec = OCUPADO <-> List.length (activas (recurso_pk rec) d) = 1%nat)
    /\ (estado_recurso rec = OCUPADO <->
        exists r, activas (recurso_pk rec) d = [r]
                  /\ reserva_actual rec = Some (reserva_pk r))
    /\ (estado_recurso rec = DISPONIBLE -> reserva_actual rec = None).

(** The form of the invariant that each operation preserves: a resource
    that is [OCUPADO] has one active reservation and points to it; any
    other resource has none and points to nothing. *)
Definition estado_coherente (d : DB) (rec : Recurso) : Prop :=
  match estado_recurso rec with
  | OCUPADO =>
      exists r, activas (recurso_pk rec) d = [r]
                /\ reserva_actual rec = Some (reserva_pk r)
  | _ => activas (recurso_pk rec) d = [] /\ reserva_actual rec = None
  end.

(** Primary keys of the reservations are unique. *)
Definition pk_unicas (d : DB) : Prop := NoDup (map reserva_pk (reservas d)).

Definition coherente (d : DB) : Prop :=
  pk_unicas d /\ forall rec, In rec (recursos d) -> estado_coherente d rec.

(** The order of promotion: smaller clock first, then smaller key. *)
Definition clave_le (a b : Reserva) : Prop :=
  reloj_lamport a < reloj_lamport b
  \/ (reloj_lamport a = reloj_lamport b
      /\ String.leb (prioridad_id a) (prioridad_id b) = true).

(* ====================================================================== *)
(** * The listing of a queue ([cola_recurso])                              *)
(* ====================================================================== *)

(** One object of the JSON array that [cola_recurso] returns. *)
Record EntradaCola : Type := mkEntradaCola {
  entrada_id : Z;
  entrada_cliente : string;
  entrada_estado : EstadoSolicitud;
  entrada_reloj : Z;
  entrada_prioridad : string
}.

Inductive RespuestaCola : Type :=
  | ColaJson (data : list EntradaCola)
  | ColaBadRequest (mensaje : string).

(** [estado__in=['EN_COLA', 'ACTIVA']]. *)
Definition estado_en_lista (e : EstadoSolicitud) : bool :=
  estado_eqb e EN_COLA || estado_eqb e ACTIVA.

(** [Reserva.objects.filter(recurso_id=recurso_id, estado__in=[...])]. *)
Definition reservas_visibles (rid : Z) (d : DB) : list Reserva :=
  filter (fun r => (recurso r =? rid) && estado_en_lista (estado r)) (reservas d).

(** [a or b] on text: an absent or empty [a] gives [b]. *)
Definition texto_or (a : option string) (b : string) : string :=
  match a with
  | None => b
  | Some s => if String.eqb s "" then b else s
  end.

(** The column [Cliente.nombre] is read through [nombre]. *)
Definition entrada_de (nombre : Cliente -> option string) (r : Reserva)
    : EntradaCola :=
  mkEntradaCola (reserva_pk r)
                (texto_or (nombre (cliente r)) (identificador_externo (cliente r)))
                (estado r) (reloj_lamport r) (prioridad_id r).

(** [cola_recurso], for an id that the storage can compare with its keys
    ([cabe_en_bigint]); for any other id the query raises. *)
Definition cola_recurso (nombre : Cliente -> option string)
    (request : HttpRequest) (recurso_id : Z) : Mundo -> RespuestaCola * Mundo :=
  fun w =>
    match method request with
    | GET =>
        (ColaJson (map (entrada_de nombre)
                     (order_by clave_leb (reservas_visibles recurso_id (db w)))), w)
    | _ => (ColaBadRequest "Método no permitido", w)
    end.


(* ====================================================================== *)
(** * Further invariants of the tables                                     *)
(* ====================================================================== *)

(** Of two reservations of one resource, the one created later has the
    larger logical clock. *)
Definition reloj_menor (a b : Reserva) : Prop :=
  recurso a = recurso b -> reloj_lamport a < reloj_lamport b.

Definition relojes_crecientes (d : DB) : Prop :=
  ForallOrdPairs reloj_menor (reservas d).

Definition relojes_positivos (d : DB) : Prop :=
  forall r, In r (reservas d) -> 1 <= reloj_lamport r.

(** The holder of a resource has a smaller clock than every waiter. *)
Definition titular_primero (d : DB) : Prop :=
  forall a q, In a (reservas d) -> In q (reservas d) ->
    recurso a = recurso q -> estado a = ACTIVA -> estado q = EN_COLA ->
    reloj_lamport a < reloj_lamport q.

(** Nobody waits for a resource that is free. *)
Definition libre_sin_cola (d : DB) : Prop :=
  forall rec, In rec (recursos d) -> estado_recurso rec = DISPONIBLE ->
    en_cola (recurso_pk rec) d = [].

(** The dates of a reservation follow its status, and only three of the
    six statuses occur. *)
Definition ciclo_de_vida (r : Reserva) : Prop :=
  match estado r with
  | EN_COLA => fecha_concesion r = None /\ fecha_liberacion r = None
  | ACTIVA => fecha_concesion r <> None /\ fecha_liberacion r = None
  | FINALIZADA => fecha_concesion r <> None /\ fecha_liberacion r <> None
  | _ => False
  end.

Definition ciclos_de_vida (d : DB) : Prop :=
  forall r, In r (reservas d) -> ciclo_de_vida r.

(** Every reservation belongs to a resource of the table. *)
Definition integridad_referencial (d : DB) : Prop :=
  forall r, In r (reservas d) ->
    exists rec, In rec (recursos d) /\ recurso_pk rec = recurso r.

Definition tiene_evento (tipo : string) (pk : Z) (d : DB) : Prop :=
  exists e, In e (eventos d) /\ tipo_evento e = tipo /\ evento_reserva e = Some pk.

(** The log tells of every reservation that it was requested and, once it
    is finished, that it was released. *)
Definition auditoria_completa (d : DB) : Prop :=
  forall r, In r (reservas d) ->
    tiene_evento "SOLICITUD" (reserva_pk r) d
    /\ (estado r = FINALIZADA -> tiene_evento "LIBERACION" (reserva_pk r) d).

(** All that holds of the tables in every state the operations reach. *)
Record consistente (d : DB) : Prop := mkConsistente {
  cons_coherente : coherente d;
  cons_relojes : relojes_crecientes d;
  cons_positivos : relojes_positivos d;
  cons_titular : titular_primero d;
  cons_libre : libre_sin_cola d;
  cons_ciclos : ciclos_de_vida d;
  cons_integridad : integridad_referencial d;
  cons_auditoria : auditoria_completa d
}.

(** The life of one reservation: its status only moves forward, from
    [EN_COLA] to [ACTIVA] to [FINALIZADA]. *)
Definition paso_estado (a b : EstadoSolicitud) : Prop :=
  a = b \/ (a = EN_COLA /\ b = ACTIVA) \/ (a = ACTIVA /\ b = FINALIZADA).

(** The columns that no operation writes after the creation. *)
Definition mismas_columnas (r r' : Reserva) : Prop :=
  reserva_pk r' = reserva_pk r /\ recurso r' = recurso r
  /\ cliente r' = cliente r /\ reloj_lamport r' = reloj_lamport r
  /\ prioridad_id r' = prioridad_id r /\ fecha_creacion r' = fecha_creacion r.

Definition recurso_de_operacion (o : Operacion) : Z :=
  match o with
  | Solicitar _ rid _ _ => rid
  | Liberar _ rid _ => rid
  end.

Definition cliente_de_operacion (o : Operacion) : Cliente :=
  match o with
  | Solicitar _ _ c _ => c
  | Liberar _ _ c => c
  end.

Definition entorno_de_operacion (o : Operacion) : Entorno :=
  match o with
  | Solicitar e _ _ _ => e
  | Liberar e _ _ => e
  end.

(* ====================================================================== *)
(** * Group names ([services.py], [consumers.py], [routing.py])            *)
(* ====================================================================== *)

(** [str(n)] of an integer: its decimal digits, with a minus sign when it
    is negative. *)
Definition str_int (z : Z) : string :=
  DecimalString.NilZero.string_of_int (Z.to_int z).

(** [f"recurso_{recurso_id}"] in [_notificar_cambio_cola], where
    [recurso_id] is the integer key of the resource. *)
Definition grupo_de_recurso (rid : Z) : string :=
  String.append "recurso_" (str_int rid).

(** [f"recurso_{self.recurso_id}"] in [RecursoConsumer.connect], where
    [self.recurso_id] is the text that the route captured from the URL. *)
Definition group_name (recurso_id : string) : string :=
  String.append "recurso_" recurso_id.

(* ====================================================================== *)
(** * Registration ([reservas/views_auth.py])                              *)
(* ====================================================================== *)

Inductive ExcepcionAuth : Type :=
  | MultiValueDictKeyError (clave : string)
  | ErrorCreateUser
  | TypeErrorArgumento (nombre : string)
  | IntegrityError.

Inductive RespuestaAuth : Type :=
  | Render (plantilla : string)
  | Redirect (a : string).

(** A request with form data: [request.method] and [request.POST]. *)
Record PeticionForm : Type := mkPeticionForm {
  metodo : Metodo;
  formulario : list (string * string)
}.

(** [request.POST[k]]: the value, or [MultiValueDictKeyError]. *)
Fixpoint post_item (k : string) (form : list (string * string))
    : ExcepcionAuth + string :=
  match form with
  | [] => inl (MultiValueDictKeyError k)
  | (k', v) :: l => if String.eqb k k' then inr v else post_item k l
  end.

(** The names that the constructor of [Cliente] accepts: its fields in
    [models.py], the automatic key and its alias, and the relation that
    the foreign key [Reserva.cliente] adds on this side. *)
Definition campos_Cliente : list string :=
  ["id"; "pk"; "identificador_externo"; "nombre"; "reserva"].

(** A keyword argument of [Cliente.objects.create]. *)
Inductive Argumento : Type :=
  | ATexto (s : string)
  | AUsuario (username : string)
  | AEntero (z : Z).

Fixpoint argumento (k : string) (kwargs : list (string * Argumento))
    : option Argumento :=
  match kwargs with
  | [] => None
  | (k', v) :: l => if String.eqb k k' then Some v else argumento k l
  end.

(** The key that the keywords give, if any: [pk], else [id], as an
    integer. *)
Definition clave_dada (kwargs : list (string * Argumento)) : option Z :=
  match argumento "pk" kwargs with
  | Some (AEntero z) => Some z
  | _ =>
      match argumento "id" kwargs with
      | Some (AEntero z) => Some z
      | _ => None
      end
  end.

(** [Cliente.objects.create] with keyword arguments: a keyword that names
    no field raises [TypeError]; the key is the one given, or else the next
    one; the key and [identificador_externo] are unique; otherwise the row
    is inserted. *)
Definition Cliente_objects_create (kwargs : list (string * Argumento)) (d : DB)
    : ExcepcionAuth + (Cliente * DB) :=
  match find (fun kv => negb (existsb (String.eqb (fst kv)) campos_Cliente)) kwargs with
  | Some (k, _) => inl (TypeErrorArgumento k)
  | None =>
      let ident :=
        match argumento "identificador_externo" kwargs with
        | Some (ATexto s) => s
        | _ => ""
        end in
      let pk :=
        match clave_dada kwargs with
        | Some z => z
        | None => siguiente_pk (map cliente_pk (clientes d))
        end in
      if existsb (fun c => (cliente_pk c =? pk)
                           || String.eqb (identificador_externo c) ident)
                 (clientes d)
      then inl IntegrityError
      else
        let c := mkCliente pk ident in
        inr (c, mkDB (clientes d ++ [c]) (recursos d) (reservas d) (eventos d))
  end.

(** [register_view].  [create_user] stands for
    [User.objects.create_user(username=..., password=...)]: it gives the
    name of the user it stored, or raises. *)
Definition register_view (create_user : string -> string -> option string)
    (request : PeticionForm) (d : DB) : (ExcepcionAuth + RespuestaAuth) * DB :=
  match metodo request with
  | POST =>
      match post_item "username" (formulario request) with
      | inl e => (inl e, d)
      | inr username =>
      match post_item "password" (formulario request) with
      | inl e => (inl e, d)
      | inr password =>
      match post_item "nombre" (formulario request) with
      | inl e => (inl e, d)
      | inr nombre =>
      match post_item "identificador" (formulario request) with
      | inl e => (inl e, d)
      | inr identificador =>
      match create_user username password with
      | None => (inl ErrorCreateUser, d)
      | Some user =>
          match Cliente_objects_create
                  [("user", AUsuario user); ("nombre", ATexto nombre);
                   ("identificador_externo", ATexto identificador)] d with
          | inl e => (inl e, d)
          | inr (_, d') => (inr (Redirect "login"), d')
          end
      end end end end end
  | _ => (inr (Render "reservas/registro.html"), d)
  end.

(* ====================================================================== *)
(** * Sample runs                                                          *)
(* ====================================================================== *)

Module Ejemplo.

Definition nodoA : Cliente := mkCliente 1 "A".
Definition nodoB : Cliente := mkCliente 2 "B".
Definition nodoC : Cliente := mkCliente 3 "C".

Definition impresora : Recurso := mkRecurso 1 "PRINTER1" DISPONIBLE None.
Definition sala : Recurso := mkRecurso 2 "SALA" FUERA_SERVICIO None.

Definition db0 : DB := mkDB [nodoA; nodoB; nodoC] [impresora; sala] [] [].
Definition w0 : Mundo := mkMundo db0 [].

Definition env (t : Z) : Entorno := mkEntorno t CanalEntrega.

(** A requests, B and C queue with the same client clock, A releases. *)
Definition w1 : Mundo := ejecutar (Solicitar (env 10) 1 nodoA 0) w0.
Definition w2 : Mundo := ejecutar (Solicitar (env 11) 1 nodoC 0) w1.
Definition w3 : Mundo := ejecutar (Solicitar (env 12) 1 nodoB 0) w2.
Definition w4 : Mundo := ejecutar (Liberar (env 13) 1 nodoA) w3.

(** The same run as a sequence, and a request for the listing. *)
Definition operaciones : list Operacion :=
  [Solicitar (env 10) 1 nodoA 0; Solicitar (env 11) 1 nodoC 0;
   Solicitar (env 12) 1 nodoB 0; Liberar (env 13) 1 nodoA].

Definition ver_cola : HttpRequest := mkRequest GET JSONInvalido.

Definition sin_nombre (c : Cliente) : option string := None.

End Ejemplo.

Example ejemplo_w1 :
  reservas (db Ejemplo.w1)
  = [mkReserva 1 1 Ejemplo.nodoA 1 "A" ACTIVA (Some 10) None 10]
  /\ recursos (db Ejemplo.w1)
     = [mkRecurso 1 "PRINTER1" OCUPADO (Some 1); Ejemplo.sala].
Proof. split; reflexivity. Qed.

Example ejemplo_w4 :
  map (fun r => (reserva_pk r, reloj_lamport r, estado r)) (reservas (db Ejemplo.w4))
  = [(1, 1, FINALIZADA); (2, 2, ACTIVA); (3, 3, EN_COLA)]
  /\ buscar_recurso 1 (db Ejemplo.w4)
     = Some (mkRecurso 1 "PRINTER1" OCUPADO (Some 2))
  /\ map tipo_evento (eventos (db Ejemplo.w4))
     = ["SOLICITUD"; "SOLICITUD"; "SOLICITUD"; "LIBERACION"; "CONCESION"]
  /\ traza Ejemplo.w4
     = [TxBegin; SelectForUpdate 1; GroupSend 1; TxCommit;
        TxBegin; SelectForUpdate 1; GroupSend 1; TxCommit;
        TxBegin; SelectForUpdate 1; GroupSend 1; TxCommit;
        TxBegin; SelectForUpdate 1; GroupSend 1; TxCommit].
Proof. repeat split; reflexivity. Qed.

(* ====================================================================== *)
(** * Basic facts on the queries                                           *)
(* ====================================================================== *)

Lemma or_0_id (x : Z) : or_0 x = x.
Proof. unfold or_0. destruct (Z.eqb_spec x 0); congruence. Qed.

Lemma aggregate_max_none (l : list Z) : aggregate_max l = None -> l = [].
Proof.
  destruct l as [|x l]; [reflexivity|].
  simpl. destruct (aggregate_max l); discriminate.
Qed.

Lemma aggregate_max_ge (l : list Z) (m : Z) :
  aggregate_max l = Some m -> forall x, In x l -> x <= m.
Proof.
  revert m. induction l as [|y l IH]; intros m Hm x Hx; [contradiction|].
  simpl in Hm. destruct (aggregate_max l) as [m'|] eqn:E.
  - injection Hm as <-. destruct Hx as [->|Hx]; [lia|].
    specialize (IH m' eq_refl x Hx). lia.
  - injection Hm as <-. apply aggregate_max_none in E. subst l.
    destruct Hx as [->|[]]. lia.
Qed.

Lemma or_0_opt_max_ge (l : list Z) (x : Z) :
  In x l -> x <= or_0_opt (aggregate_max l).
Proof.
  intros Hx. destruct (aggregate_max l) as [m|] eqn:E.
  - simpl. rewrite or_0_id. eapply aggregate_max_ge; eauto.
  - apply aggregate_max_none in E. subst l. contradiction.
Qed.

Lemma siguiente_pk_fresh (pks : list Z) (x : Z) :
  In x pks -> x < siguiente_pk pks.
Proof.
  intros Hx. unfold siguiente_pk.
  pose proof (or_0_opt_max_ge pks x Hx). lia.
Qed.

Lemma siguiente_pk_not_in (pks : list Z) : ~ In (siguiente_pk pks) pks.
Proof. intros H. apply siguiente_pk_fresh in H. lia. Qed.

Lemma estado_eqb_spec (a b : EstadoSolicitud) : reflect (a = b) (estado_eqb a b).
Proof. destruct a, b; simpl; constructor; congruence. Qed.

Lemma estado_recurso_eqb_spec (a b : EstadoRecurso) :
  reflect (a = b) (estado_recurso_eqb a b).
Proof. destruct a, b; simpl; constructor; congruence. Qed.

Lemma buscar_recurso_some (rid : Z) (d : DB) (rec : Recurso) :
  buscar_recurso rid d = Some rec -> In rec (recursos d) /\ recurso_pk rec = rid.
Proof.
  unfold buscar_recurso. intros H. apply find_some in H.
  destruct H as [H1 H2]. apply Z.eqb_eq in H2. auto.
Qed.

Lemma buscar_recurso_none (rid : Z) (d : DB) :
  buscar_recurso rid d = None ->
  forall rec, In rec (recursos d) -> recurso_pk rec <> rid.
Proof.
  unfold buscar_recurso. intros H rec Hin E.
  pose proof (find_none _ _ H rec Hin) as Hf. simpl in Hf.
  apply Z.eqb_neq in Hf. contradiction.
Qed.

(** ** Insertion sort *)

Section OrderBy.
Variable A : Type.
Variable le : A -> A -> bool.

Lemma insertar_in (x y : A) (l : list A) :
  In y (insertar le x l) <-> y = x \/ In y l.
Proof.
  induction l as [|z l IH]; simpl.
  - intuition.
  - destruct (le x z); simpl; [intuition|].
    rewrite IH. intuition.
Qed.

Lemma order_by_in (y : A) (l : list A) : In y (order_by le l) <-> In y l.
Proof.
  induction l as [|x l IH]; simpl; [tauto|].
  rewrite insertar_in, IH. intuition.
Qed.

Lemma first_in (l : list A) (x : A) : first l = Some x -> In x l.
Proof. destruct l; simpl; intros H; [discriminate|]. injection H as ->. auto. Qed.

Lemma first_order_by_in (l : list A) (x : A) :
  first (order_by le l) = Some x -> In x l.
Proof. intros H. apply first_in in H. exact (proj1 (order_by_in x l) H). Qed.

Lemma first_order_by_none (l : list A) :
  first (order_by le l) = None -> l = [].
Proof.
  destruct l as [|x l]; [reflexivity|]. intros H.
  destruct (order_by le (x :: l)) as [|y l'] eqn:E; [|discriminate].
  assert (In x (order_by le (x :: l))) as Hx by (apply order_by_in; left; reflexivity).
  rewrite E in Hx. contradiction.
Qed.

Lemma first_order_by_some (l : list A) :
  l <> [] -> exists x, first (order_by le l) = Some x.
Proof.
  intros Hl. destruct (first (order_by le l)) as [x|] eqn:E; [eauto|].
  apply first_order_by_none in E. contradiction.
Qed.

Hypothesis le_total : forall a b, le a b = true \/ le b a = true.
Hypothesis le_trans : forall a b c, le a b = true -> le b c = true -> le a c = true.

Lemma le_refl (a : A) : le a a = true.
Proof. destruct (le_total a a); assumption. Qed.

(** The head of the sorted list may come before every element. *)
Lemma first_insertar_min (x : A) (l : list A) (m : A) :
  (forall h, first l = Some h -> forall y, In y l -> le h y = true) ->
  first (insertar le x l) = Some m ->
  forall y, y = x \/ In y l -> le m y = true.
Proof.
  intros Hl Hm y Hy. destruct l as [|z l]; simpl in Hm.
  - injection Hm as <-. destruct Hy as [->|[]]. apply le_refl.
  - specialize (Hl z eq_refl).
    destruct (le x z) eqn:E; simpl in Hm; injection Hm as <-.
    + destruct Hy as [->|Hy]; [apply le_refl|].
      eapply le_trans; [exact E|]. now apply Hl.
    + destruct Hy as [->|Hy]; [|now apply Hl].
      destruct (le_total x z) as [H|H]; [congruence|exact H].
Qed.

Lemma first_order_by_min (l : list A) (m : A) :
  first (order_by le l) = Some m -> forall y, In y l -> le m y = true.
Proof.
  revert m. induction l as [|x l IH]; intros m Hm y Hy; [contradiction|].
  simpl in Hm. eapply first_insertar_min; [|exact Hm|].
  - intros h Hh z Hz. apply (IH h Hh z). exact (proj1 (order_by_in z l) Hz).
  - destruct Hy as [<-|Hy]; [left; reflexivity|].
    right. exact (proj2 (order_by_in y l) Hy).
Qed.
End OrderBy.

(** ** The order on keys *)

Lemma ascii_compare_lt_trans (a b c : Ascii.ascii) :
  Ascii.compare a b = Lt -> Ascii.compare b c = Lt -> Ascii.compare a c = Lt.
Proof.
  unfold Ascii.compare. rewrite !N.compare_lt_iff. apply N.lt_trans.
Qed.

Lemma string_compare_lt_trans (s1 : string) :
  forall s2 s3,
    String.compare s1 s2 = Lt -> String.compare s2 s3 = Lt ->
    String.compare s1 s3 = Lt.
Proof.
  induction s1 as [|a s1 IH]; intros [|b s2] [|c s3]; simpl;
    try congruence.
  destruct (Ascii.compare a b) eqn:Eab; try discriminate;
    destruct (Ascii.compare b c) eqn:Ebc; try discriminate; intros H1 H2.
  - apply Ascii.compare_eq_iff in Eab, Ebc. subst.
    assert (Ascii.compare c c = Eq) as ->
        by (unfold Ascii.compare; apply N.compare_refl).
    eauto.
  - apply Ascii.compare_eq_iff in Eab. subst. now rewrite Ebc.
  - apply Ascii.compare_eq_iff in Ebc. subst. now rewrite Eab.
  - now rewrite (ascii_compare_lt_trans _ _ _ Eab Ebc).
Qed.

Lemma string_leb_trans (s1 s2 s3 : string) :
  String.leb s1 s2 = true -> String.leb s2 s3 = true -> String.leb s1 s3 = true.
Proof.
  unfold String.leb.
  destruct (String.compare s1 s2) eqn:E12; try discriminate;
    destruct (String.compare s2 s3) eqn:E23; try discriminate; intros _ _.
  - apply String.compare_eq_iff in E12, E23. subst.
    destruct (String.compare s3 s3) eqn:E; try reflexivity.
    pose proof (String.compare_antisym s3 s3) as H. rewrite E in H. discriminate.
  - apply String.compare_eq_iff in E12. subst. now rewrite E23.
  - apply String.compare_eq_iff in E23. subst. now rewrite E12.
  - now rewrite (string_compare_lt_trans _ _ _ E12 E23).
Qed.

Lemma clave_leb_le (a b : Reserva) : clave_leb a b = true <-> clave_le a b.
Proof.
  unfold clave_leb, clave_le.
  rewrite orb_true_iff, andb_true_iff, Z.ltb_lt, Z.eqb_eq. tauto.
Qed.

Lemma clave_leb_total (a b : Reserva) :
  clave_leb a b = true \/ clave_leb b a = true.
Proof.
  rewrite !clave_leb_le. unfold clave_le.
  destruct (Z.lt_trichotomy (reloj_lamport a) (reloj_lamport b)) as [H|[H|H]];
    [left; left; exact H| |right; left; exact H].
  destruct (String.leb_total (prioridad_id a) (prioridad_id b)) as [L|L];
    [left|right]; right; split; auto.
Qed.

Lemma clave_leb_trans (a b c : Reserva) :
  clave_leb a b = true -> clave_leb b c = true -> clave_leb a c = true.
Proof.
  rewrite !clave_leb_le. unfold clave_le.
  intros [H1|[H1 L1]] [H2|[H2 L2]]; try (left; lia).
  right. split; [lia|]. eapply string_leb_trans; eauto.
Qed.

(* ====================================================================== *)
(** * What the two operations return and write                             *)
(* ====================================================================== *)

Ltac desplegar :=
  unfold atomic, select_for_update_get, Reserva_create, Evento_create,
    Recurso_save, Reserva_save, _notificar_cambio_cola,
    bind, ret, raise, leer, escribir, efecto; simpl.

Lemma solicitar_reserva_sin_recurso env rid cli ts w :
  buscar_recurso rid (db w) = None ->
  solicitar_reserva env rid cli ts w
  = (Raise DoesNotExist, mkMundo (db w) (traza w ++ [TxBegin; TxRollback])).
Proof.
  intros H. unfold solicitar_reserva. desplegar. rewrite H. simpl.
  rewrite <- app_assoc. reflexivity.
Qed.

Lemma solicitar_reserva_run env rid cli ts w rec :
  buscar_recurso rid (db w) = Some rec ->
  solicitar_reserva env rid cli ts w
  = (match canal env with
     | CanalFalla => Raise ErrorCanal
     | _ => Ok (reserva_solicitada env rec cli ts (db w))
     end,
     mkMundo (match canal env with
              | CanalFalla => db w
              | _ => db_tras_solicitar env rec cli ts (db w)
              end)
             (traza w ++ traza_llamada env rid)).
Proof.
  intros H. destruct (buscar_recurso_some _ _ H) as [_ Hpk]. subst rid.
  unfold solicitar_reserva, traza_llamada, con_reserva_actual, con_estado_recurso, db_tras_solicitar,
    reserva_solicitada, recurso_tras_solicitar, evento_solicitud,
    estado_solicitud, ultimo_reloj.
  desplegar. rewrite H. simpl.
  destruct (estado_recurso_eqb (estado_recurso rec) DISPONIBLE); simpl;
    destruct (canal env); simpl; rewrite <- ?app_assoc; reflexivity.
Qed.

Lemma liberar_reserva_sin_recurso env rid cli w :
  buscar_recurso rid (db w) = None ->
  liberar_reserva env rid cli w
  = (Raise DoesNotExist, mkMundo (db w) (traza w ++ [TxBegin; TxRollback])).
Proof.
  intros H. unfold liberar_reserva. desplegar. rewrite H. simpl.
  rewrite <- app_assoc. reflexivity.
Qed.

Lemma liberar_reserva_sin_activa env rid cli w rec :
  buscar_recurso rid (db w) = Some rec ->
  activa_del_cliente rid cli (db w) = None ->
  liberar_reserva env rid cli w
  = (Ok None, mkMundo (db w) (traza w ++ [TxBegin; SelectForUpdate rid; TxCommit])).
Proof.
  intros H Ha. destruct (buscar_recurso_some _ _ H) as [_ Hpk]. subst rid.
  unfold activa_del_cliente in Ha.
  unfold liberar_reserva. desplegar. rewrite H. simpl. rewrite Ha. simpl.
  rewrite <- !app_assoc. reflexivity.
Qed.

Lemma liberar_reserva_run env rid cli w rec r0 :
  buscar_recurso rid (db w) = Some rec ->
  activa_del_cliente rid cli (db w) = Some r0 ->
  liberar_reserva env rid cli w
  = (match canal env with
     | CanalFalla => Raise ErrorCanal
     | _ => Ok (Some (finalizada env r0))
     end,
     mkMundo (match canal env with
              | CanalFalla => db w
              | _ => db_tras_liberar env rec cli r0 (db w)
              end)
             (traza w ++ traza_llamada env rid)).
Proof.
  intros H Ha. destruct (buscar_recurso_some _ _ H) as [_ Hpk]. subst rid.
  unfold activa_del_cliente in Ha.
  unfold liberar_reserva, traza_llamada, db_tras_liberar, db_finalizada,
    siguiente_en_cola, en_cola, evento_liberacion, evento_concesion,
    con_reserva_actual, con_estado_recurso.
  desplegar. rewrite H. simpl. rewrite Ha. simpl.
  match goal with
  | |- context [first (order_by clave_leb ?q)] =>
      destruct (first (order_by clave_leb q)) as [s0|]
  end; simpl; destruct (canal env); simpl;
    rewrite <- ?app_assoc; reflexivity.
Qed.

(* ====================================================================== *)
(** * Saving a row                                                         *)
(* ====================================================================== *)

Lemma reemplazar_pks (x' : Reserva) (l : list Reserva) :
  map reserva_pk (reemplazar_reserva x' l) = map reserva_pk l.
Proof.
  unfold reemplazar_reserva. induction l as [|y l IH]; simpl; [reflexivity|].
  rewrite IH. destruct (Z.eqb_spec (reserva_pk y) (reserva_pk x')); congruence.
Qed.

Lemma reemplazar_otros (x' : Reserva) (l : list Reserva) :
  ~ In (reserva_pk x') (map reserva_pk l) -> reemplazar_reserva x' l = l.
Proof.
  unfold reemplazar_reserva. induction l as [|y l IH]; simpl; intros H; [reflexivity|].
  destruct (Z.eqb_spec (reserva_pk y) (reserva_pk x')) as [E|E].
  - exfalso. apply H. left. exact E.
  - rewrite IH; [reflexivity|]. intros Hin. apply H. right. exact Hin.
Qed.

(** With unique keys, saving a row changes that row and nothing else. *)
Lemma reemplazar_split (x x' : Reserva) (l : list Reserva) :
  NoDup (map reserva_pk l) -> In x l -> reserva_pk x' = reserva_pk x ->
  exists l1 l2, l = l1 ++ x :: l2 /\ reemplazar_reserva x' l = l1 ++ x' :: l2.
Proof.
  intros Hnd Hin Hpk. destruct (in_split _ _ Hin) as (l1 & l2 & ->).
  exists l1, l2. split; [reflexivity|].
  rewrite map_app in Hnd. simpl in Hnd.
  pose proof (NoDup_remove_2 _ _ _ Hnd) as Hnot.
  assert (reemplazar_reserva x' (l1 ++ x :: l2)
          = reemplazar_reserva x' l1 ++ x' :: reemplazar_reserva x' l2) as ->.
  { unfold reemplazar_reserva. rewrite map_app. simpl.
    rewrite Hpk, Z.eqb_refl. reflexivity. }
  rewrite !reemplazar_otros; [reflexivity| |]; rewrite Hpk; intros H;
    apply Hnot; apply in_or_app; auto.
Qed.

Section FiltroTrasGuardar.
Variable f : Reserva -> bool.
Variables x x' : Reserva.
Variable l : list Reserva.
Hypothesis Hnd : NoDup (map reserva_pk l).
Hypothesis Hin : In x l.
Hypothesis Hpk : reserva_pk x' = reserva_pk x.

Lemma filter_reemplazar_igual :
  f x = false -> f x' = false ->
  filter f (reemplazar_reserva x' l) = filter f l.
Proof.
  intros Hx Hx'. destruct (@reemplazar_split x x' l Hnd Hin Hpk) as (l1 & l2 & E1 & E2).
  rewrite E2. rewrite E1. rewrite !filter_app. simpl.
  rewrite Hx, Hx'. reflexivity.
Qed.

Lemma filter_reemplazar_quita :
  f x' = false -> filter f l = [x] ->
  filter f (reemplazar_reserva x' l) = [].
Proof.
  intros Hx' Hl. destruct (@reemplazar_split x x' l Hnd Hin Hpk) as (l1 & l2 & E1 & E2).
  rewrite E2. rewrite E1 in Hl. rewrite filter_app in *. simpl in *.
  rewrite Hx'. destruct (f x).
  - apply app_eq_unit in Hl. destruct Hl as [[H1 H2]|[H1 H2]]; [|discriminate].
    injection H2 as H2. rewrite H1, H2. reflexivity.
  - assert (In x (filter f l1 ++ filter f l2)) as Hx
        by (rewrite Hl; left; reflexivity).
    rewrite <- filter_app in Hx. apply filter_In in Hx. destruct Hx as [Hx _].
    exfalso. rewrite E1, map_app in Hnd. simpl in Hnd.
    apply (NoDup_remove_2 _ _ _ Hnd). rewrite <- map_app.
    apply in_map. exact Hx.
Qed.

Lemma filter_reemplazar_pone :
  f x' = true -> filter f l = [] ->
  filter f (reemplazar_reserva x' l) = [x'].
Proof.
  intros Hx' Hl. destruct (@reemplazar_split x x' l Hnd Hin Hpk) as (l1 & l2 & E1 & E2).
  rewrite E2. rewrite E1 in Hl. rewrite filter_app in *. simpl in *.
  rewrite Hx'. apply app_eq_nil in Hl. destruct Hl as [H1 H2].
  destruct (f x); [discriminate|]. rewrite H1, H2. reflexivity.
Qed.
End FiltroTrasGuardar.

Lemma reservas_en_in (rid : Z) (e : EstadoSolicitud) (d : DB) (r : Reserva) :
  In r (reservas_en rid e d)
  <-> In r (reservas d) /\ recurso r = rid /\ estado r = e.
Proof.
  unfold reservas_en. rewrite filter_In, andb_true_iff, Z.eqb_eq.
  destruct (estado_eqb_spec (estado r) e); intuition congruence.
Qed.

Lemma activas_de_cliente_in (rid : Z) (cli : Cliente) (d : DB) (r : Reserva) :
  In r (activas_de_cliente rid cli d)
  <-> In r (reservas d) /\ recurso r = rid
      /\ cliente_pk (cliente r) = cliente_pk cli /\ estado r = ACTIVA.
Proof.
  unfold activas_de_cliente. rewrite filter_In, !andb_true_iff, !Z.eqb_eq.
  destruct (estado_eqb_spec (estado r) ACTIVA); intuition congruence.
Qed.

Lemma activa_del_cliente_some (rid : Z) (cli : Cliente) (d : DB) (r0 : Reserva) :
  activa_del_cliente rid cli d = Some r0 ->
  In r0 (reservas d) /\ recurso r0 = rid
  /\ cliente_pk (cliente r0) = cliente_pk cli /\ estado r0 = ACTIVA.
Proof.
  unfold activa_del_cliente. intros H. apply first_order_by_in in H.
  now apply activas_de_cliente_in.
Qed.

Lemma siguiente_en_cola_some (rid : Z) (d : DB) (s0 : Reserva) :
  siguiente_en_cola rid d = Some s0 ->
  In s0 (reservas d) /\ recurso s0 = rid /\ estado s0 = EN_COLA.
Proof.
  unfold siguiente_en_cola, en_cola. intros H. apply first_order_by_in in H.
  now apply reservas_en_in.
Qed.

Lemma buscar_guardar_recurso (rid : Z) (rec rec' : Recurso) (d : DB) :
  buscar_recurso rid d = Some rec -> recurso_pk rec' = rid ->
  buscar_recurso rid (guardar_recurso rec' d) = Some rec'.
Proof.
  unfold buscar_recurso, guardar_recurso. simpl. intros H Hpk. subst rid.
  induction (recursos d) as [|y l IH]; simpl in *; [discriminate|].
  destruct (Z.eqb_spec (recurso_pk y) (recurso_pk rec')) as [E|E].
  - rewrite Z.eqb_refl. reflexivity.
  - apply Z.eqb_neq in E. rewrite E. auto.
Qed.

Lemma in_guardar_recurso (rec' x : Recurso) (d : DB) :
  In x (recursos (guardar_recurso rec' d)) ->
  x = rec' \/ (In x (recursos d) /\ recurso_pk x <> recurso_pk rec').
Proof.
  unfold guardar_recurso. simpl. rewrite in_map_iff.
  intros (y & Hy & Hin).
  destruct (Z.eqb_spec (recurso_pk y) (recurso_pk rec')); subst; auto.
Qed.

Lemma buscar_guardar_reserva (x x' : Reserva) (d : DB) :
  In x (reservas d) -> reserva_pk x' = reserva_pk x ->
  buscar_reserva (reserva_pk x) (guardar_reserva x' d) = Some x'.
Proof.
  unfold buscar_reserva, guardar_reserva, reemplazar_reserva. simpl.
  intros Hin Hpk. induction (reservas d) as [|y l IH]; simpl in *; [contradiction|].
  destruct (Z.eqb_spec (reserva_pk y) (reserva_pk x')) as [E|E].
  - rewrite Hpk, Z.eqb_refl. reflexivity.
  - destruct (Z.eqb_spec (reserva_pk y) (reserva_pk x)) as [E'|E']; [congruence|].
    destruct Hin as [->|Hin]; [congruence|]. auto.
Qed.

(* ====================================================================== *)
(** * The invariant is kept by every operation                             *)
(* ====================================================================== *)

Lemma coherente_exclusion (d : DB) : coherente d -> exclusion_mutua d.
Proof.
  intros [_ H] rec Hin. specialize (H rec Hin). unfold estado_coherente in H.
  destruct (estado_recurso rec) eqn:E.
  - destruct H as [Ha Hr]. rewrite Ha. simpl.
    repeat split; try lia; try discriminate; auto.
    intros (r & Hr' & _). discriminate.
  - destruct H as (r & Ha & Hr). rewrite Ha. simpl.
    repeat split; try lia; try discriminate; eauto.
  - destruct H as [Ha Hr]. rewrite Ha. simpl.
    repeat split; try lia; try discriminate; auto.
    intros (r & Hr' & _). discriminate.
Qed.

Lemma inicial_coherente (d : DB) : inicial d -> coherente d.
Proof.
  intros [Hr Hrec]. split.
  - unfold pk_unicas. rewrite Hr. constructor.
  - intros rec Hin. destruct (Hrec rec Hin) as [Hne Hnone].
    unfold estado_coherente, activas, reservas_en. rewrite Hr. simpl.
    destruct (estado_recurso rec); [auto|contradiction|auto].
Qed.

Lemma estado_coherente_ext (d d' : DB) (rec : Recurso) :
  activas (recurso_pk rec) d' = activas (recurso_pk rec) d ->
  estado_coherente d rec -> estado_coherente d' rec.
Proof. unfold estado_coherente. intros ->. auto. Qed.

Lemma activas_tras_solicitar env rec cli ts d rid :
  activas rid (db_tras_solicitar env rec cli ts d)
  = activas rid d
    ++ (if (recurso_pk rec =? rid) && estado_eqb (estado_solicitud rec) ACTIVA
        then [reserva_solicitada env rec cli ts d] else []).
Proof.
  unfold activas, reservas_en, db_tras_solicitar. simpl.
  rewrite filter_app. reflexivity.
Qed.

Lemma solicitar_coherente env rid rec cli ts d :
  coherente d -> buscar_recurso rid d = Some rec ->
  coherente (db_tras_solicitar env rec cli ts d).
Proof.
  intros [Hpk Hco] Hb. destruct (buscar_recurso_some _ _ Hb) as [Hin Hrid].
  split.
  - unfold pk_unicas, db_tras_solicitar. simpl.
    rewrite map_app. simpl. apply NoDup_app; [exact Hpk|repeat constructor; auto|].
    intros a Ha [<-|[]]. revert Ha. apply siguiente_pk_not_in.
  - intros x Hx. apply in_guardar_recurso in Hx.
    destruct Hx as [->|[Hx Hne]].
    + pose proof (Hco rec Hin) as Hrec.
      unfold estado_coherente, recurso_tras_solicitar, estado_solicitud in *.
      destruct (estado_recurso rec) eqn:E; simpl.
      * rewrite activas_tras_solicitar. unfold estado_solicitud. rewrite E. simpl.
        rewrite Z.eqb_refl. destruct Hrec as [-> _]. simpl. eauto.
      * rewrite E. rewrite activas_tras_solicitar. unfold estado_solicitud.
        rewrite E. simpl. rewrite andb_false_r, app_nil_r. exact Hrec.
      * rewrite E. rewrite activas_tras_solicitar. unfold estado_solicitud.
        rewrite E. simpl. rewrite andb_false_r, app_nil_r. exact Hrec.
    + apply estado_coherente_ext with (d := d); [|auto].
      rewrite activas_tras_solicitar.
      assert ((recurso_pk rec =? recurso_pk x) = false) as ->.
      { apply Z.eqb_neq. intros E. apply Hne. rewrite <- E.
        unfold recurso_tras_solicitar.
        destruct (estado_recurso_eqb (estado_recurso rec) DISPONIBLE); reflexivity. }
      simpl. apply app_nil_r.
Qed.

Lemma activas_db_finalizada_mismo env rec cli r0 d :
  pk_unicas d -> In r0 (reservas d) ->
  activas (recurso r0) d = [r0] ->
  activas (recurso r0) (db_finalizada env rec cli r0 d) = [].
Proof.
  intros Hpk Hin Ha. unfold activas, reservas_en, db_finalizada. simpl.
  eapply filter_reemplazar_quita; eauto.
  simpl. apply andb_false_r.
Qed.

Lemma activas_db_finalizada_otro env rec cli r0 d rid :
  pk_unicas d -> In r0 (reservas d) -> recurso r0 <> rid ->
  activas rid (db_finalizada env rec cli r0 d) = activas rid d.
Proof.
  intros Hpk Hin Hne. unfold activas, reservas_en, db_finalizada. simpl.
  apply Z.eqb_neq in Hne.
  eapply filter_reemplazar_igual; eauto; simpl; rewrite Hne; reflexivity.
Qed.

Lemma pk_unicas_guardar (x : Reserva) (d : DB) :
  pk_unicas d -> pk_unicas (guardar_reserva x d).
Proof. unfold pk_unicas. simpl. now rewrite reemplazar_pks. Qed.

Lemma pk_unicas_db_finalizada env rec cli r0 d :
  pk_unicas d -> pk_unicas (db_finalizada env rec cli r0 d).
Proof. unfold pk_unicas, db_finalizada. simpl. now rewrite reemplazar_pks. Qed.

Lemma liberar_coherente env rid rec cli r0 d :
  coherente d -> buscar_recurso rid d = Some rec ->
  activa_del_cliente rid cli d = Some r0 ->
  coherente (db_tras_liberar env rec cli r0 d).
Proof.
  intros [Hpk Hco] Hb Ha.
  destruct (buscar_recurso_some _ _ Hb) as [Hin Hrid].
  destruct (activa_del_cliente_some _ _ _ Ha) as (Hr0 & Hrec0 & _ & Hact).
  (* the released reservation is the single active one of the resource *)
  assert (activas rid d = [r0]) as Hunica.
  { assert (In r0 (activas rid d)) as Hin0 by (apply reservas_en_in; auto).
    pose proof (Hco rec Hin) as Hrec. unfold estado_coherente in Hrec.
    rewrite Hrid in Hrec.
    destruct (estado_recurso rec).
    - destruct Hrec as [E _]. rewrite E in Hin0. contradiction.
    - destruct Hrec as (r & E & _). rewrite E in Hin0.
      destruct Hin0 as [->|[]]. exact E.
    - destruct Hrec as [E _]. rewrite E in Hin0. contradiction. }
  set (d1 := db_finalizada env rec cli r0 d).
  assert (pk_unicas d1) as Hpk1 by (apply pk_unicas_db_finalizada; exact Hpk).
  assert (activas rid d1 = []) as Hvacia.
  { subst d1. rewrite <- Hrec0. apply activas_db_finalizada_mismo; auto.
    rewrite Hrec0. exact Hunica. }
  assert (forall x, In x (recursos d) -> recurso_pk x <> rid ->
                    activas (recurso_pk x) d1 = activas (recurso_pk x) d) as Hotros.
  { intros x _ Hne. subst d1. apply activas_db_finalizada_otro; auto. congruence. }
  unfold db_tras_liberar. fold d1. rewrite Hrid.
  destruct (siguiente_en_cola rid d1) as [s0|] eqn:Es.
  - destruct (siguiente_en_cola_some _ _ Es) as (Hs0 & Hrs0 & Hes0).
    split.
    + unfold pk_unicas. simpl. rewrite reemplazar_pks. exact Hpk1.
    + intros x Hx. apply in_guardar_recurso in Hx. simpl in Hx.
      destruct Hx as [->|[Hx Hne]].
      * unfold estado_coherente. simpl. exists (concedida env s0). split; [|reflexivity].
        unfold activas, reservas_en. simpl.
        eapply filter_reemplazar_pone; eauto.
        simpl. rewrite Hrs0, Z.eqb_refl. reflexivity.
      * apply estado_coherente_ext with (d := d); [|auto].
        rewrite <- (Hotros x Hx Hne).
        unfold activas, reservas_en. simpl.
        assert ((rid =? recurso_pk x) = false) as Hf by (apply Z.eqb_neq; congruence).
        eapply filter_reemplazar_igual; eauto; simpl; rewrite Hrs0, Hf; reflexivity.
  - split.
    + exact Hpk1.
    + intros x Hx. apply in_guardar_recurso in Hx. simpl in Hx.
      destruct Hx as [->|[Hx Hne]].
      * unfold estado_coherente. simpl. split; [exact Hvacia|reflexivity].
      * apply estado_coherente_ext with (d := d); [|auto].
        rewrite <- (Hotros x Hx Hne). reflexivity.
Qed.

Lemma ejecutar_coherente (o : Operacion) (w : Mundo) :
  coherente (db w) -> coherente (db (ejecutar o w)).
Proof.
  intros H. destruct o as [env rid cli ts|env rid cli]; simpl.
  - destruct (buscar_recurso rid (db w)) as [rec|] eqn:Eb.
    + rewrite (@solicitar_reserva_run env rid cli ts w rec Eb). simpl.
      destruct (canal env); [| |exact H]; eapply solicitar_coherente; eauto.
    + rewrite (@solicitar_reserva_sin_recurso env rid cli ts w Eb). exact H.
  - destruct (buscar_recurso rid (db w)) as [rec|] eqn:Eb.
    + destruct (activa_del_cliente rid cli (db w)) as [r0|] eqn:Ea.
      * rewrite (@liberar_reserva_run env rid cli w rec r0 Eb Ea). simpl.
        destruct (canal env); [| |exact H]; eapply liberar_coherente; eauto.
      * rewrite (@liberar_reserva_sin_activa env rid cli w rec Eb Ea). exact H.
    + rewrite (@liberar_reserva_sin_recurso env rid cli w Eb). exact H.
Qed.

Lemma ejecutar_todas_coherente (ops : list Operacion) (w : Mundo) :
  coherente (db w) -> coherente (db (ejecutar_todas ops w)).
Proof.
  revert w. induction ops as [|o ops IH]; intros w H; simpl; [exact H|].
  apply IH. apply ejecutar_coherente. exact H.
Qed.

Lemma aggregate_max_in (l : list Z) (m : Z) : aggregate_max l = Some m -> In m l.
Proof.
  revert m. induction l as [|x l IH]; intros m H; simpl in H; [discriminate|].
  destruct (aggregate_max l) as [m'|].
  - injection H as <-. destruct (Z.max_spec x m') as [[_ ->]|[_ ->]].
    + right. now apply IH.
    + left. reflexivity.
  - injection H as <-. left. reflexivity.
Qed.

Lemma reservas_de_in (rid : Z) (d : DB) (r : Reserva) :
  In r (reservas_de rid d) <-> In r (reservas d) /\ recurso r = rid.
Proof. unfold reservas_de. now rewrite filter_In, Z.eqb_eq. Qed.

Lemma ultimo_reloj_vacio (rid : Z) (d : DB) :
  reservas_de rid d = [] -> ultimo_reloj rid d = 0.
Proof. unfold ultimo_reloj. intros ->. reflexivity. Qed.

Lemma ultimo_reloj_ge (rid : Z) (d : DB) (q : Reserva) :
  In q (reservas_de rid d) -> reloj_lamport q <= ultimo_reloj rid d.
Proof.
  intros H. unfold ultimo_reloj. apply or_0_opt_max_ge. now apply in_map.
Qed.

Lemma ultimo_reloj_max (rid : Z) (d : DB) (q : Reserva) :
  In q (reservas_de rid d) ->
  (forall q', In q' (reservas_de rid d) -> reloj_lamport q' <= reloj_lamport q) ->
  ultimo_reloj rid d = reloj_lamport q.
Proof.
  intros Hq Hmax. pose proof (ultimo_reloj_ge _ _ _ Hq) as Hge.
  unfold ultimo_reloj in *.
  destruct (aggregate_max (map reloj_lamport (reservas_de rid d))) as [m|] eqn:E.
  - simpl in *. rewrite or_0_id in *.
    apply aggregate_max_in in E. apply in_map_iff in E.
    destruct E as (q' & <- & Hq'). specialize (Hmax q' Hq'). lia.
  - apply aggregate_max_none in E. apply map_eq_nil in E.
    rewrite E in Hq. contradiction.
Qed.

Lemma reservas_tras_solicitar env rec cli ts d :
  reservas (db_tras_solicitar env rec cli ts d)
  = reservas d ++ [reserva_solicitada env rec cli ts d].
Proof. reflexivity. Qed.

Lemma buscar_recurso_tras_solicitar env rid rec cli ts d :
  buscar_recurso rid d = Some rec ->
  buscar_recurso rid (db_tras_solicitar env rec cli ts d)
  = Some (recurso_tras_solicitar rec (reserva_solicitada env rec cli ts d)).
Proof.
  intros H. destruct (buscar_recurso_some _ _ H) as [_ Hpk].
  unfold db_tras_solicitar.
  change (buscar_recurso rid (insertar_evento ?e ?x)) with (buscar_recurso rid x).
  apply buscar_guardar_recurso with (rec := rec).
  - exact H.
  - unfold recurso_tras_solicitar.
    destruct (estado_recurso_eqb (estado_recurso rec) DISPONIBLE); exact Hpk.
Qed.

Lemma en_cola_db_finalizada env rec cli r0 d rid :
  pk_unicas d -> In r0 (reservas d) -> estado r0 = ACTIVA ->
  en_cola rid (db_finalizada env rec cli r0 d) = en_cola rid d.
Proof.
  intros Hpk Hin He. unfold en_cola, reservas_en, db_finalizada. simpl.
  eapply filter_reemplazar_igual; eauto; simpl; rewrite ?He; apply andb_false_r.
Qed.

(** What a release picks when the queue of the resource is not empty. *)
Lemma siguiente_tras_finalizar env rid rec cli r0 d q :
  pk_unicas d ->
  activa_del_cliente rid cli d = Some r0 ->
  In q (en_cola rid d) ->
  exists p,
    siguiente_en_cola rid (db_finalizada env rec cli r0 d) = Some p
    /\ In p (en_cola rid d)
    /\ In p (reservas (db_finalizada env rec cli r0 d))
    /\ forall q', In q' (en_cola rid d) -> clave_le p q'.
Proof.
  intros Hpk Ha Hq.
  destruct (activa_del_cliente_some _ _ _ Ha) as (Hr0 & _ & _ & Hact).
  pose proof (@en_cola_db_finalizada env rec cli r0 d rid Hpk Hr0 Hact) as Hcola.
  unfold siguiente_en_cola. rewrite Hcola.
  destruct (@first_order_by_some _ clave_leb (en_cola rid d)) as [p Hp].
  { intros E. rewrite E in Hq. contradiction. }
  exists p. split; [exact Hp|].
  pose proof (first_order_by_in _ _ Hp) as Hin.
  split; [exact Hin|]. split.
  - rewrite <- Hcola in Hin. apply reservas_en_in in Hin. tauto.
  - intros q' Hq'. apply clave_leb_le.
    exact (@first_order_by_min _ clave_leb clave_leb_total clave_leb_trans _ _ Hp q' Hq').
Qed.

(* ====================================================================== *)
(** * The properties                                                       *)
(* ====================================================================== *)

(** C1 - Mutual exclusion.  In every state reached from an initial state
    (no reservation, hence no resource held) by any sequence of
    [solicitar_reserva] and [liberar_reserva] calls, whatever their
    arguments and outcome, each resource of the table has at most one
    [ACTIVA] reservation; it is [OCUPADO] iff it has exactly one, and iff
    it has exactly one and [reserva_actual] points to it; and a resource
    that is [DISPONIBLE] has no [reserva_actual]. *)
Theorem C1_exclusion_mutua (w0 : Mundo) (ops : list Operacion) :
  inicial (db w0) ->
  exclusion_mutua (db (ejecutar_todas ops w0)).
Proof.
  intros H. apply coherente_exclusion, ejecutar_todas_coherente,
    inicial_coherente, H.
Qed.

Lemma C1_exclusion_mutua_witness :
  inicial (db Ejemplo.w0)
  /\ exclusion_mutua
       (db (ejecutar_todas
              [Solicitar (Ejemplo.env 10) 1 Ejemplo.nodoA 0;
               Solicitar (Ejemplo.env 11) 1 Ejemplo.nodoC 0;
               Solicitar (Ejemplo.env 12) 1 Ejemplo.nodoB 0;
               Liberar (Ejemplo.env 13) 1 Ejemplo.nodoA]
              Ejemplo.w0)).
Proof.
  assert (inicial (db Ejemplo.w0)) as Hi.
  { split; [reflexivity|].
    intros r [<-|[<-|[]]]; split; (discriminate || reflexivity). }
  split; [exact Hi|]. apply (C1_exclusion_mutua Ejemplo.w0). exact Hi.
Defined.

Lemma lista_vacia_si {A} (l : list A) : (forall x, ~ In x l) -> l = [].
Proof.
  destruct l as [|x l]; [reflexivity|]. intros H. exfalso. apply (H x). now left.
Qed.

Lemma ultimo_reloj_es (rid : Z) (d : DB) :
  ultimo_reloj rid d = 0
  \/ exists q, In q (reservas d) /\ recurso q = rid
               /\ ultimo_reloj rid d = reloj_lamport q.
Proof.
  unfold ultimo_reloj.
  destruct (aggregate_max (map reloj_lamport (reservas_de rid d))) as [m|] eqn:E;
    [|now left].
  right. apply aggregate_max_in in E. apply in_map_iff in E.
  destruct E as (q & <- & Hq). apply reservas_de_in in Hq.
  exists q. simpl. rewrite or_0_id. tauto.
Qed.

(** Under [almacenable], the clock that the request computes fits its
    column. *)
Lemma almacenable_reloj env rec cli ts d :
  almacenable (recurso_pk rec) ts d ->
  cabe_en_bigint (reloj_lamport (reserva_solicitada env rec cli ts d)).
Proof.
  intros ([Hlo Hhi] & Hts & Hq). unfold cabe_en_bigint. simpl.
  rewrite or_0_id.
  destruct (ultimo_reloj_es (recurso_pk rec) d) as [E|(q & Hin & Hr & E)];
    rewrite E.
  - assert (0 < 2 ^ 63 - 1) by reflexivity. lia.
  - specialize (Hq q Hin Hr). lia.
Qed.

(** C3 - Lamport clock.  For a request on an existing resource, the
    reservation it returns is for that resource and its [reloj_lamport] is
    [max(ts_cliente, highest) + 1], where [highest] is the largest
    [reloj_lamport] among the stored reservations of that very resource,
    in any status, and 0 when it has none; so it is strictly greater than
    the clock of every earlier reservation of the resource, however small
    the client's timestamp.  And the request does return a reservation,
    stored as the last row of its table with a clock that fits its column,
    when its notification does not raise and the integers it writes fit
    their columns. *)
Theorem C3_reloj_lamport env rid cli ts w rec :
  buscar_recurso rid (db w) = Some rec ->
  (canal env <> CanalFalla -> almacenable rid ts (db w) ->
   exists r w', solicitar_reserva env rid cli ts w = (Ok r, w')
                /\ reservas (db w') = reservas (db w) ++ [r]
                /\ cabe_en_bigint (reloj_lamport r))
  /\ forall r w',
       solicitar_reserva env rid cli ts w = (Ok r, w') ->
       recurso r = rid
       /\ ((forall q, In q (reservas (db w)) -> recurso q <> rid) ->
           reloj_lamport r = Z.max ts 0 + 1)
       /\ (forall q, In q (reservas (db w)) -> recurso q = rid ->
             (forall q', In q' (reservas (db w)) -> recurso q' = rid ->
                         reloj_lamport q' <= reloj_lamport q) ->
             reloj_lamport r = Z.max ts (reloj_lamport q) + 1)
       /\ (forall q, In q (reservas (db w)) -> recurso q = rid ->
             reloj_lamport q < reloj_lamport r).
Proof.
  intros Hb. destruct (buscar_recurso_some _ _ Hb) as [_ Hpk].
  rewrite (@solicitar_reserva_run env rid cli ts w rec Hb).
  split.
  - intros Hc Halm.
    exists (reserva_solicitada env rec cli ts (db w)).
    exists (mkMundo (db_tras_solicitar env rec cli ts (db w))
                    (traza w ++ traza_llamada env rid)).
    cbn [db].
    split; [destruct (canal env); congruence|].
    split; [apply reservas_tras_solicitar|].
    apply almacenable_reloj. rewrite Hpk. exact Halm.
  - intros r w' Hrun.
    assert (r = reserva_solicitada env rec cli ts (db w)) as ->.
    { destruct (canal env); [| |discriminate];
        injection Hrun as <- _; reflexivity. }
    assert (reloj_lamport (reserva_solicitada env rec cli ts (db w))
            = Z.max ts (ultimo_reloj rid (db w)) + 1) as Hr.
    { simpl. rewrite or_0_id, Hpk. reflexivity. }
    rewrite Hr.
    split; [exact Hpk|].
    split; [|split].
    + intros Hnone. rewrite ultimo_reloj_vacio; [reflexivity|].
      apply lista_vacia_si. intros x Hx. apply reservas_de_in in Hx.
      destruct Hx as [Hx1 Hx2]. exact (Hnone x Hx1 Hx2).
    + intros q Hq Hrq Hmax. rewrite (@ultimo_reloj_max rid (db w) q); [reflexivity| |].
      * apply reservas_de_in. auto.
      * intros q' Hq'. apply reservas_de_in in Hq'. apply Hmax; tauto.
    + intros q Hq Hrq.
      assert (reloj_lamport q <= ultimo_reloj rid (db w))
        by (apply ultimo_reloj_ge, reservas_de_in; auto).
      lia.
Qed.

Lemma C3_reloj_lamport_witness :
  let w := ejecutar_todas
             [Solicitar (Ejemplo.env 10) 2 Ejemplo.nodoA 49;
              Solicitar (Ejemplo.env 11) 1 Ejemplo.nodoB 0] Ejemplo.w0 in
  map (fun q => (recurso q, reloj_lamport q)) (reservas (db w)) = [(2, 50); (1, 1)]
  /\ exists r w',
       solicitar_reserva (Ejemplo.env 14) 1 Ejemplo.nodoA (-7) w = (Ok r, w')
       /\ reloj_lamport r = 2.
Proof.
  cbv zeta. split; [reflexivity|].
  destruct (@C3_reloj_lamport (Ejemplo.env 14) 1 Ejemplo.nodoA (-7)
              (ejecutar_todas
                 [Solicitar (Ejemplo.env 10) 2 Ejemplo.nodoA 49;
                  Solicitar (Ejemplo.env 11) 1 Ejemplo.nodoB 0] Ejemplo.w0)
              (mkRecurso 1 "PRINTER1" OCUPADO (Some 2)) eq_refl)
    as (Hret & Hval).
  destruct Hret as (r & w' & Hrun & _ & _).
  - discriminate.
  - split; [|split].
    + split; vm_compute; discriminate.
    + reflexivity.
    + intros q Hq Hr. vm_compute in Hq.
      destruct Hq as [<-|[<-|[]]]; simpl in *; [discriminate|reflexivity].
  - exists r, w'. split; [exact Hrun|].
    destruct (Hval r w' Hrun) as (_ & _ & Hmax & _).
    apply (Hmax (mkReserva 2 1 Ejemplo.nodoB 1 "B" ACTIVA (Some 11) None 11)).
    + vm_compute. right. left. reflexivity.
    + reflexivity.
    + intros q' Hq' Hr'. vm_compute in Hq'.
      destruct Hq' as [<-|[<-|[]]]; simpl in *; [discriminate|lia].
Defined.



Lemma ejemplo_almacenable (rid : Z) : almacenable rid 0 (db Ejemplo.w0).
Proof.
  split; [split; [vm_compute; discriminate|vm_compute; discriminate]|].
  split; [reflexivity|]. intros q [].
Qed.





Lemma filter_nil_si {A} (f : A -> bool) (l : list A) :
  (forall x, In x l -> f x = false) -> filter f l = [].
Proof.
  induction l as [|y l IH]; intros H; simpl; [reflexivity|].
  rewrite (H y (or_introl eq_refl)). apply IH. intros x Hx. apply H. now right.
Qed.

Lemma sin_activa_del_cliente (rid : Z) (cli : Cliente) (d : DB) :
  (forall r, In r (reservas d) -> recurso r = rid ->
             cliente_pk (cliente r) = cliente_pk cli -> estado r <> ACTIVA) ->
  activa_del_cliente rid cli d = None.
Proof.
  intros H. unfold activa_del_cliente, activas_de_cliente.
  rewrite filter_nil_si; [reflexivity|].
  intros x Hx.
  destruct (Z.eqb_spec (recurso x) rid) as [E1|]; [|reflexivity].
  destruct (Z.eqb_spec (cliente_pk (cliente x)) (cliente_pk cli)) as [E2|];
    [|reflexivity].
  destruct (estado_eqb_spec (estado x) ACTIVA) as [E3|]; [|reflexivity].
  exfalso. exact (H x Hx E1 E2 E3).
Qed.

Lemma falsy_no_cero (cid : Z) : cid <> 0 -> falsy (Some cid) = false.
Proof. intros H. simpl. now apply Z.eqb_neq. Qed.

Lemma liberar_reserva_api_run env request rid w p cid cli :
  method request = POST -> body request = Payload p ->
  payload_get "cliente_id" p = Some cid -> cid <> 0 ->
  buscar_cliente cid (db w) = Some cli ->
  liberar_reserva_api env request rid w
  = responder (reserva <- liberar_reserva env rid cli ;;
               ret (JsonLiberar true (truthy reserva))) w.
Proof.
  intros Hm Hb Hp Hc Hcli. unfold liberar_reserva_api.
  rewrite Hm, Hb, Hp, (falsy_no_cero Hc).
  unfold responder, get_cliente_or_404, bind, leer, ret. simpl.
  rewrite Hcli. reflexivity.
Qed.

Lemma solicitar_reserva_api_run env request rid w p cid ts cli :
  method request = POST -> body request = Payload p ->
  payload_get "cliente_id" p = Some cid -> cid <> 0 ->
  ts_de_payload p w = (Ok ts, w) ->
  buscar_cliente cid (db w) = Some cli ->
  solicitar_reserva_api env request rid w
  = responder (reserva <- solicitar_reserva env rid cli ts ;;
               ret (JsonSolicitar (reserva_pk reserva) (estado reserva))) w.
Proof.
  intros Hm Hb Hp Hc Hts Hcli. unfold solicitar_reserva_api.
  rewrite Hm, Hb, Hp, (falsy_no_cero Hc).
  unfold responder, get_cliente_or_404, bind, leer, ret. rewrite Hts. simpl.
  rewrite Hcli. reflexivity.
Qed.

Lemma solicitar_reserva_api_sin_cliente env request rid w p cid ts :
  method request = POST -> body request = Payload p ->
  payload_get "cliente_id" p = Some cid -> cid <> 0 ->
  ts_de_payload p w = (Ok ts, w) ->
  buscar_cliente cid (db w) = None ->
  solicitar_reserva_api env request rid w = (HttpResponseNotFound, w).
Proof.
  intros Hm Hb Hp Hc Hts Hcli. unfold solicitar_reserva_api.
  rewrite Hm, Hb, Hp, (falsy_no_cero Hc).
  unfold responder, get_cliente_or_404, bind, leer, ret, raise. rewrite Hts. simpl.
  rewrite Hcli. reflexivity.
Qed.

(** C5 - Release without a holder.  When the client has no [ACTIVA]
    reservation on an existing resource, [liberar_reserva] returns [None],
    leaves the four tables as they were and sends no notification; a
    second call in a row does the same, and the endpoint answers
    [liberada = false] both times with the tables unchanged. *)
Theorem C5_liberar_sin_activa env1 env2 rid cli w rec :
  buscar_recurso rid (db w) = Some rec ->
  (forall r, In r (reservas (db w)) -> recurso r = rid ->
             cliente_pk (cliente r) = cliente_pk cli -> estado r <> ACTIVA) ->
  let out1 := liberar_reserva env1 rid cli w in
  let out2 := liberar_reserva env2 rid cli (snd out1) in
  fst out1 = Ok None
  /\ db (snd out1) = db w
  /\ traza (snd out1) = traza w ++ [TxBegin; SelectForUpdate rid; TxCommit]
  /\ fst out2 = Ok None
  /\ db (snd out2) = db w
  /\ forall request p cid,
       method request = POST -> body request = Payload p ->
       payload_get "cliente_id" p = Some cid -> cid <> 0 ->
       buscar_cliente cid (db w) = Some cli ->
       let resp1 := liberar_reserva_api env1 request rid w in
       let resp2 := liberar_reserva_api env2 request rid (snd resp1) in
       fst resp1 = JsonLiberar true false /\ db (snd resp1) = db w
       /\ fst resp2 = JsonLiberar true false /\ db (snd resp2) = db w.
Proof.
  intros Hb Hno. pose proof (@sin_activa_del_cliente rid cli (db w) Hno) as Ha.
  assert (forall env w', db w' = db w ->
            liberar_reserva env rid cli w'
            = (Ok None,
               mkMundo (db w) (traza w' ++ [TxBegin; SelectForUpdate rid; TxCommit])))
    as Hrun.
  { intros env w' E.
    rewrite (@liberar_reserva_sin_activa env rid cli w' rec); rewrite E; auto. }
  cbv zeta. rewrite (Hrun env1 w eq_refl). cbn [fst snd db traza].
  rewrite (Hrun env2) by reflexivity. cbn [fst snd db traza].
  repeat split.
  1-4: rewrite (@liberar_reserva_api_run env1 request rid w p cid cli) by assumption;
       unfold responder, bind, ret; rewrite (Hrun env1 w eq_refl); cbn [fst snd db].
  1-2: reflexivity.
  1-2: rewrite (@liberar_reserva_api_run env2 request rid _ p cid cli) by assumption;
       unfold responder, bind, ret; rewrite (Hrun env2) by reflexivity; reflexivity.
Qed.

Lemma C5_liberar_sin_activa_witness :
  fst (liberar_reserva (Ejemplo.env 14) 1 Ejemplo.nodoA Ejemplo.w4) = Ok None
  /\ db (snd (liberar_reserva (Ejemplo.env 14) 1 Ejemplo.nodoA Ejemplo.w4))
     = db Ejemplo.w4.
Proof.
  destruct (@C5_liberar_sin_activa (Ejemplo.env 14) (Ejemplo.env 15) 1
              Ejemplo.nodoA Ejemplo.w4 (mkRecurso 1 "PRINTER1" OCUPADO (Some 2)))
    as (H1 & H2 & _).
  - reflexivity.
  - intros r Hr _ Hc. vm_compute in Hr.
    destruct Hr as [<-|[<-|[<-|[]]]]; simpl in *; discriminate.
  - split; assumption.
Defined.

(** C2 - Order of promotion.  When [liberar_reserva] finishes an active
    reservation (and its notification does not raise) while the resource
    has queued reservations, the one it promotes is a queued reservation
    [p] of the resource whose pair [(reloj_lamport, prioridad_id)] is the
    smallest: against every queued reservation [q'] of the resource,
    wherever it stands in the table, [p] has the smaller clock, or the same
    clock and a key that is not greater as a string.  After the call [p] is
    stored as [ACTIVA] with [fecha_concesion] set, and the resource is
    [OCUPADO] and points to it. *)
Theorem C2_orden_promocion env rid cli w rec r0 q :
  pk_unicas (db w) ->
  buscar_recurso rid (db w) = Some rec ->
  activa_del_cliente rid cli (db w) = Some r0 ->
  canal env <> CanalFalla ->
  In q (reservas (db w)) -> recurso q = rid -> estado q = EN_COLA ->
  exists p w',
    liberar_reserva env rid cli w = (Ok (Some (finalizada env r0)), w')
    /\ In p (reservas (db w)) /\ recurso p = rid /\ estado p = EN_COLA
    /\ (forall q', In q' (reservas (db w)) -> recurso q' = rid ->
                   estado q' = EN_COLA ->
          reloj_lamport p < reloj_lamport q'
          \/ (reloj_lamport p = reloj_lamport q'
              /\ String.leb (prioridad_id p) (prioridad_id q') = true))
    /\ (exists p', buscar_reserva (reserva_pk p) (db w') = Some p'
                   /\ p' = concedida env p
                   /\ estado p' = ACTIVA
                   /\ fecha_concesion p' = Some (ahora env))
    /\ buscar_recurso rid (db w')
       = Some (mkRecurso rid (codigo rec) OCUPADO (Some (reserva_pk p))).
Proof.
  intros Hpk Hb Ha Hc Hq Hrq Heq.
  destruct (buscar_recurso_some _ _ Hb) as [_ Hrid].
  assert (In q (en_cola rid (db w))) as Hcola by (apply reservas_en_in; auto).
  destruct (@siguiente_tras_finalizar env rid rec cli r0 (db w) q Hpk Ha Hcola)
    as (p & Hsig & Hp & Hp1 & Hmin).
  exists p.
  exists (mkMundo (db_tras_liberar env rec cli r0 (db w))
                  (traza w ++ traza_llamada env rid)).
  rewrite (@liberar_reserva_run env rid cli w rec r0 Hb Ha). cbn [db].
  split; [destruct (canal env); congruence|].
  apply reservas_en_in in Hp. destruct Hp as (Hin & Hrp & Hep).
  repeat (split; [assumption|]).
  split.
  { intros q' H1 H2 H3. apply Hmin. apply reservas_en_in. auto. }
  unfold db_tras_liberar. rewrite Hrid, Hsig.
  split.
  - exists (concedida env p). repeat split.
    unfold buscar_reserva. cbn [reservas guardar_recurso insertar_evento].
    apply buscar_guardar_reserva; [exact Hp1|reflexivity].
  - apply buscar_guardar_recurso with (rec := rec); [exact Hb|reflexivity].
Qed.

Lemma C2_orden_promocion_witness :
  exists p w',
    liberar_reserva (Ejemplo.env 13) 1 Ejemplo.nodoA Ejemplo.w3
    = (Ok (Some (finalizada (Ejemplo.env 13)
                   (mkReserva 1 1 Ejemplo.nodoA 1 "A" ACTIVA (Some 10) None 10))), w')
    /\ In p (reservas (db Ejemplo.w3))
    /\ buscar_recurso 1 (db w')
       = Some (mkRecurso 1 "PRINTER1" OCUPADO (Some (reserva_pk p))).
Proof.
  destruct (@C2_orden_promocion (Ejemplo.env 13) 1 Ejemplo.nodoA Ejemplo.w3
              (mkRecurso 1 "PRINTER1" OCUPADO (Some 1))
              (mkReserva 1 1 Ejemplo.nodoA 1 "A" ACTIVA (Some 10) None 10)
              (mkReserva 3 1 Ejemplo.nodoB 3 "B" EN_COLA None None 12))
    as (p & w' & Hrun & Hin & _ & _ & _ & _ & Hrec).
  - unfold pk_unicas. vm_compute. repeat constructor; simpl; intuition discriminate.
  - reflexivity.
  - reflexivity.
  - discriminate.
  - vm_compute. right. right. left. reflexivity.
  - reflexivity.
  - reflexivity.
  - exists p, w'. auto.
Defined.

(** C9, as stated (the [CONCESION] event of the promoted reservation is
    appended before the [LIBERACION] event of the released one), fails: in
    the sample run, A releases reservation 1 and reservation 2 is promoted;
    the log then has [LIBERACION] for 1 at position 3 and [CONCESION] for 2
    at position 4. *)
Lemma C9_contraejemplo :
  let out := liberar_reserva (Ejemplo.env 13) 1 Ejemplo.nodoA Ejemplo.w3 in
  option_map reserva_pk
    (match fst out with Ok r => r | Raise _ => None end) = Some 1
  /\ buscar_recurso 1 (db (snd out))
     = Some (mkRecurso 1 "PRINTER1" OCUPADO (Some 2))
  /\ posicion_evento "LIBERACION" 1 (eventos (db (snd out))) = Some 3%nat
  /\ posicion_evento "CONCESION" 2 (eventos (db (snd out))) = Some 4%nat
  /\ ~ (exists i j,
          posicion_evento "CONCESION" 2 (eventos (db (snd out))) = Some i
          /\ posicion_evento "LIBERACION" 1 (eventos (db (snd out))) = Some j
          /\ (i < j)%nat).
Proof.
  cbv zeta. repeat split; try reflexivity.
  intros (i & j & Hi & Hj & Hlt).
  vm_compute in Hi, Hj. injection Hi as <-. injection Hj as <-. lia.
Qed.

(** C9, amended - Order of the events of a release.  When
    [liberar_reserva] finishes an active reservation (and its notification
    does not raise) while the resource has queued reservations, it appends
    exactly two events to the log, in this order: [LIBERACION] for the
    released reservation, then [CONCESION] for the promoted one. *)
Theorem C9_orden_eventos env rid cli w rec r0 q :
  pk_unicas (db w) ->
  buscar_recurso rid (db w) = Some rec ->
  activa_del_cliente rid cli (db w) = Some r0 ->
  canal env <> CanalFalla ->
  In q (reservas (db w)) -> recurso q = rid -> estado q = EN_COLA ->
  exists p w' e1 e2,
    liberar_reserva env rid cli w = (Ok (Some (finalizada env r0)), w')
    /\ buscar_recurso rid (db w')
       = Some (mkRecurso rid (codigo rec) OCUPADO (Some (reserva_pk p)))
    /\ eventos (db w') = eventos (db w) ++ [e1; e2]
    /\ tipo_evento e1 = "LIBERACION"
    /\ evento_reserva e1 = Some (reserva_pk r0)
    /\ tipo_evento e2 = "CONCESION"
    /\ evento_reserva e2 = Some (reserva_pk p).
Proof.
  intros Hpk Hb Ha Hc Hq Hrq Heq.
  destruct (buscar_recurso_some _ _ Hb) as [_ Hrid].
  assert (In q (en_cola rid (db w))) as Hcola by (apply reservas_en_in; auto).
  destruct (@siguiente_tras_finalizar env rid rec cli r0 (db w) q Hpk Ha Hcola)
    as (p & Hsig & Hp & Hp1 & Hmin).
  exists p.
  exists (mkMundo (db_tras_liberar env rec cli r0 (db w))
                  (traza w ++ traza_llamada env rid)).
  rewrite (@liberar_reserva_run env rid cli w rec r0 Hb Ha). cbn [db].
  unfold db_tras_liberar. rewrite Hrid, Hsig.
  eexists. eexists.
  split; [destruct (canal env); congruence|].
  split.
  { apply buscar_guardar_recurso with (rec := rec); [exact Hb|reflexivity]. }
  split.
  { cbn [eventos guardar_recurso insertar_evento guardar_reserva db_finalizada].
    rewrite <- app_assoc. reflexivity. }
  repeat split.
Qed.

Lemma C9_orden_eventos_witness :
  exists w' e1 e2,
    snd (liberar_reserva (Ejemplo.env 13) 1 Ejemplo.nodoA Ejemplo.w3) = w'
    /\ eventos (db w') = eventos (db Ejemplo.w3) ++ [e1; e2]
    /\ tipo_evento e1 = "LIBERACION"
    /\ tipo_evento e2 = "CONCESION".
Proof.
  destruct (@C9_orden_eventos (Ejemplo.env 13) 1 Ejemplo.nodoA Ejemplo.w3
              (mkRecurso 1 "PRINTER1" OCUPADO (Some 1))
              (mkReserva 1 1 Ejemplo.nodoA 1 "A" ACTIVA (Some 10) None 10)
              (mkReserva 3 1 Ejemplo.nodoB 3 "B" EN_COLA None None 12))
    as (p & w' & e1 & e2 & Hrun & _ & Hev & H1 & _ & H2 & _).
  - unfold pk_unicas. vm_compute. repeat constructor; simpl; intuition discriminate.
  - reflexivity.
  - reflexivity.
  - discriminate.
  - vm_compute. right. right. left. reflexivity.
  - reflexivity.
  - reflexivity.
  - exists w', e1, e2. rewrite Hrun. auto.
Defined.








(** C6 - Unknown client, unknown resource.  A request from an unknown
    client is answered 404 and changes nothing.  A request from a known
    client for an unknown resource changes nothing either, and the service
    raises [DoesNotExist]; but the endpoint does not turn that exception
    into a not-found answer, as it does for the client: the answer is the
    server error 500. *)
Theorem C6_no_encontrado env request rid w p cid ts :
  method request = POST -> body request = Payload p ->
  payload_get "cliente_id" p = Some cid -> cid <> 0 ->
  ts_de_payload p w = (Ok ts, w) ->
  (buscar_cliente cid (db w) = None ->
     solicitar_reserva_api env request rid w = (HttpResponseNotFound, w))
  /\ (forall cli, buscar_cliente cid (db w) = Some cli ->
        buscar_recurso rid (db w) = None ->
        fst (solicitar_reserva env rid cli ts w) = Raise DoesNotExist
        /\ db (snd (solicitar_reserva env rid cli ts w)) = db w
        /\ fst (solicitar_reserva_api env request rid w) = HttpResponseServerError
        /\ status_code (fst (solicitar_reserva_api env request rid w)) = 500
        /\ db (snd (solicitar_reserva_api env request rid w)) = db w).
Proof.
  intros Hm Hbody Hp Hc Hts. split.
  - intros Hcli.
    now apply solicitar_reserva_api_sin_cliente with (p := p) (cid := cid) (ts := ts).
  - intros cli Hcli Hrec.
    rewrite (@solicitar_reserva_api_run env request rid w p cid ts cli) by assumption.
    unfold responder, bind.
    rewrite (@solicitar_reserva_sin_recurso env rid cli ts w Hrec).
    repeat split.
Qed.

Lemma C6_no_encontrado_witness :
  let request := mkRequest POST (Payload [("cliente_id", JInt 1); ("ts_cliente", JInt 0)]) in
  fst (solicitar_reserva_api (Ejemplo.env 10) request 999 Ejemplo.w0)
  = HttpResponseServerError
  /\ db (snd (solicitar_reserva_api (Ejemplo.env 10) request 999 Ejemplo.w0))
     = db Ejemplo.w0.
Proof.
  cbv zeta.
  destruct (@C6_no_encontrado (Ejemplo.env 10)
              (mkRequest POST (Payload [("cliente_id", JInt 1); ("ts_cliente", JInt 0)]))
              999 Ejemplo.w0
              [("cliente_id", JInt 1); ("ts_cliente", JInt 0)] 1 0)
    as (_ & H).
  - reflexivity.
  - reflexivity.
  - reflexivity.
  - discriminate.
  - reflexivity.
  - destruct (H Ejemplo.nodoA eq_refl eq_refl) as (_ & _ & H3 & _ & H5).
    split; assumption.
Defined.

(** The two orderings of the specification's examples: with equal clocks
    the smaller key is promoted, and a smaller clock is promoted whatever
    the order of creation. *)
Example promocion_por_clave :
  let r0 := mkReserva 1 1 Ejemplo.nodoC 1 "C" ACTIVA (Some 1) None 1 in
  let r1 := mkReserva 2 1 Ejemplo.nodoB 5 "B" EN_COLA None None 2 in
  let r2 := mkReserva 3 1 Ejemplo.nodoA 5 "A" EN_COLA None None 3 in
  let d := mkDB [Ejemplo.nodoA; Ejemplo.nodoB; Ejemplo.nodoC]
                [mkRecurso 1 "PRINTER1" OCUPADO (Some 1)] [r0; r1; r2] [] in
  buscar_recurso 1
    (db (snd (liberar_reserva (Ejemplo.env 9) 1 Ejemplo.nodoC (mkMundo d []))))
  = Some (mkRecurso 1 "PRINTER1" OCUPADO (Some 3)).
Proof. reflexivity. Qed.

Example promocion_por_reloj :
  let r0 := mkReserva 1 1 Ejemplo.nodoC 1 "C" ACTIVA (Some 1) None 1 in
  let r2 := mkReserva 2 1 Ejemplo.nodoA 7 "A" EN_COLA None None 2 in
  let r1 := mkReserva 3 1 Ejemplo.nodoB 3 "B" EN_COLA None None 3 in
  let d := mkDB [Ejemplo.nodoA; Ejemplo.nodoB; Ejemplo.nodoC]
                [mkRecurso 1 "PRINTER1" OCUPADO (Some 1)] [r0; r2; r1] [] in
  buscar_recurso 1
    (db (snd (liberar_reserva (Ejemplo.env 9) 1 Ejemplo.nodoC (mkMundo d []))))
  = Some (mkRecurso 1 "PRINTER1" OCUPADO (Some 3)).
Proof. reflexivity. Qed.

(* ====================================================================== *)
(** * The sort of [order_by]                                               *)
(* ====================================================================== *)

Section OrderBySorted.
Variable A : Type.
Variable le : A -> A -> bool.

Lemma insertar_perm (x : A) (l : list A) : Permutation (x :: l) (insertar le x l).
Proof.
  induction l as [|y l IH]; simpl; [apply Permutation_refl|].
  destruct (le x y); [apply Permutation_refl|].
  eapply Permutation_trans; [apply perm_swap|]. now apply perm_skip.
Qed.

Lemma order_by_perm (l : list A) : Permutation l (order_by le l).
Proof.
  induction l as [|x l IH]; simpl; [constructor|].
  eapply Permutation_trans; [apply perm_skip, IH|apply insertar_perm].
Qed.

Hypothesis le_total : forall a b, le a b = true \/ le b a = true.
Hypothesis le_trans : forall a b c, le a b = true -> le b c = true -> le a c = true.

Lemma insertar_sorted (x : A) (l : list A) :
  StronglySorted (fun a b => le a b = true) l ->
  StronglySorted (fun a b => le a b = true) (insertar le x l).
Proof.
  induction l as [|y l IH]; intros Hs; simpl.
  - constructor; constructor.
  - apply StronglySorted_inv in Hs. destruct Hs as [Hs Hy].
    destruct (le x y) eqn:E.
    + constructor; [constructor; assumption|].
      constructor; [exact E|].
      rewrite Forall_forall in *. intros z Hz. eapply le_trans; eauto.
    + constructor; [apply IH; exact Hs|].
      rewrite Forall_forall in *. intros z Hz.
      apply insertar_in in Hz. destruct Hz as [->|Hz]; [|auto].
      destruct (le_total x y) as [H|H]; [congruence|exact H].
Qed.

Lemma order_by_sorted (l : list A) :
  StronglySorted (fun a b => le a b = true) (order_by le l).
Proof.
  induction l as [|x l IH]; simpl; [constructor|].
  apply insertar_sorted, IH.
Qed.
End OrderBySorted.



Lemma reservas_visibles_in (rid : Z) (d : DB) (r : Reserva) :
  In r (reservas_visibles rid d)
  <-> In r (reservas d) /\ recurso r = rid
      /\ (estado r = EN_COLA \/ estado r = ACTIVA).
Proof.
  unfold reservas_visibles, estado_en_lista.
  rewrite filter_In, andb_true_iff, orb_true_iff, Z.eqb_eq.
  destruct (estado_eqb_spec (estado r) EN_COLA);
    destruct (estado_eqb_spec (estado r) ACTIVA); intuition congruence.
Qed.




(* ====================================================================== *)
(** * Rows through a save                                                  *)
(* ====================================================================== *)

Lemma in_reemplazar (x' y : Reserva) (l : list Reserva) :
  In y (reemplazar_reserva x' l) ->
  y = x' \/ (In y l /\ reserva_pk y <> reserva_pk x').
Proof.
  unfold reemplazar_reserva. rewrite in_map_iff. intros (z & Hz & Hin).
  destruct (Z.eqb_spec (reserva_pk z) (reserva_pk x')); subst; auto.
Qed.

Lemma in_reemplazar_otro (x' y : Reserva) (l : list Reserva) :
  In y l -> reserva_pk y <> reserva_pk x' -> In y (reemplazar_reserva x' l).
Proof.
  intros Hin Hne. unfold reemplazar_reserva. apply in_map_iff. exists y.
  split; [|exact Hin]. apply Z.eqb_neq in Hne. now rewrite Hne.
Qed.

Lemma in_reemplazar_mismo (x x' : Reserva) (l : list Reserva) :
  In x l -> reserva_pk x' = reserva_pk x -> In x' (reemplazar_reserva x' l).
Proof.
  intros Hin Hpk. unfold reemplazar_reserva. apply in_map_iff. exists x.
  split; [|exact Hin]. now rewrite Hpk, Z.eqb_refl.
Qed.

Lemma pk_unicas_eq (l : list Reserva) (a b : Reserva) :
  NoDup (map reserva_pk l) -> In a l -> In b l ->
  reserva_pk a = reserva_pk b -> a = b.
Proof.
  induction l as [|x l IH]; intros Hnd Ha Hb E; [contradiction|].
  simpl in Hnd. inversion Hnd as [|? ? Hnot Hnd']; subst.
  destruct Ha as [->|Ha], Hb as [->|Hb]; auto.
  - exfalso. apply Hnot. rewrite E. now apply in_map.
  - exfalso. apply Hnot. rewrite <- E. now apply in_map.
Qed.

Lemma pk_unicas_filas (l : list Reserva) : NoDup (map reserva_pk l) -> NoDup l.
Proof. apply NoDup_map_inv. Qed.

Lemma ForallOrdPairs_app_uno {A} (R : A -> A -> Prop) (l : list A) (r : A) :
  ForallOrdPairs R l -> (forall a, In a l -> R a r) ->
  ForallOrdPairs R (l ++ [r]).
Proof.
  induction 1 as [|a l Hf Hl IH]; intros Hr; simpl.
  - constructor; constructor.
  - constructor.
    + apply Forall_app. split; [exact Hf|].
      constructor; [|constructor]. apply Hr. now left.
    + apply IH. intros b Hb. apply Hr. now right.
Qed.

Lemma ForallOrdPairs_map_clave {A K} (R : A -> A -> Prop) (k : A -> K)
    (g : A -> A) (l : list A) :
  (forall a b a' b', k a' = k a -> k b' = k b -> R a b -> R a' b') ->
  (forall y, In y l -> k (g y) = k y) ->
  ForallOrdPairs R l -> ForallOrdPairs R (map g l).
Proof.
  intros HR Hk H. induction H as [|a l Hf Hl IH]; simpl; constructor.
  - rewrite Forall_forall in *. intros y Hy. apply in_map_iff in Hy.
    destruct Hy as (b & <- & Hb).
    apply (HR a b); [apply Hk; now left|apply Hk; now right|auto].
  - apply IH. intros y Hy. apply Hk. now right.
Qed.

Lemma relojes_reemplazar (x x' : Reserva) (l : list Reserva) :
  NoDup (map reserva_pk l) -> In x l -> reserva_pk x' = reserva_pk x ->
  recurso x' = recurso x -> reloj_lamport x' = reloj_lamport x ->
  ForallOrdPairs reloj_menor l ->
  ForallOrdPairs reloj_menor (reemplazar_reserva x' l).
Proof.
  intros Hnd Hin Hpk Hrec Hrel H. unfold reemplazar_reserva.
  apply ForallOrdPairs_map_clave
    with (k := fun r => (recurso r, reloj_lamport r)); [| |exact H].
  - unfold reloj_menor. intros a b a' b' Ea Eb Hab.
    injection Ea as Ea1 Ea2. injection Eb as Eb1 Eb2. intros E.
    rewrite Ea2, Eb2. apply Hab. congruence.
  - intros y Hy. destruct (Z.eqb_spec (reserva_pk y) (reserva_pk x')) as [E|E];
      [|reflexivity].
    assert (y = x) as -> by (apply (pk_unicas_eq l); congruence).
    now rewrite Hrec, Hrel.
Qed.

Lemma tiene_evento_mas (tipo : string) (pk : Z) (d d' : DB) :
  (forall e, In e (eventos d) -> In e (eventos d')) ->
  tiene_evento tipo pk d -> tiene_evento tipo pk d'.
Proof. intros H (e & He & Ht & Hr). exists e. auto. Qed.

Lemma recurso_sigue_guardado (rec' x : Recurso) (d : DB) :
  In x (recursos d) ->
  exists x', In x' (recursos (guardar_recurso rec' d))
             /\ recurso_pk x' = recurso_pk x.
Proof.
  intros Hin. unfold guardar_recurso. simpl.
  exists (if recurso_pk x =? recurso_pk rec' then rec' else x). split.
  - apply in_map_iff. exists x. auto.
  - destruct (Z.eqb_spec (recurso_pk x) (recurso_pk rec')); congruence.
Qed.

Lemma en_cola_tras_solicitar env rec cli ts d rid :
  en_cola rid (db_tras_solicitar env rec cli ts d)
  = en_cola rid d
    ++ (if (recurso_pk rec =? rid) && estado_eqb (estado_solicitud rec) EN_COLA
        then [reserva_solicitada env rec cli ts d] else []).
Proof.
  unfold en_cola, reservas_en, db_tras_solicitar. simpl.
  rewrite filter_app. reflexivity.
Qed.

Lemma ultimo_reloj_no_negativo (rid : Z) (d : DB) :
  relojes_positivos d -> 0 <= ultimo_reloj rid d.
Proof.
  intros Hp. unfold ultimo_reloj.
  destruct (aggregate_max (map reloj_lamport (reservas_de rid d))) as [m|] eqn:E;
    simpl; [|lia].
  rewrite or_0_id. apply aggregate_max_in in E. apply in_map_iff in E.
  destruct E as (q & <- & Hq). apply reservas_de_in in Hq.
  specialize (Hp q (proj1 Hq)). lia.
Qed.

Lemma reloj_solicitada_mayor env rec cli ts d q :
  In q (reservas d) -> recurso q = recurso_pk rec ->
  reloj_lamport q < reloj_lamport (reserva_solicitada env rec cli ts d).
Proof.
  intros Hq Hr. simpl.
  assert (reloj_lamport q <= ultimo_reloj (recurso_pk rec) d)
    by (apply ultimo_reloj_ge, reservas_de_in; auto).
  lia.
Qed.

(* ====================================================================== *)
(** * The full invariant is kept by a request                              *)
(* ====================================================================== *)

Lemma pk_recurso_tras_solicitar (rec : Recurso) (r : Reserva) :
  recurso_pk (recurso_tras_solicitar rec r) = recurso_pk rec.
Proof.
  unfold recurso_tras_solicitar.
  destruct (estado_recurso_eqb (estado_recurso rec) DISPONIBLE); reflexivity.
Qed.

Lemma solicitar_consistente env rid rec cli ts d :
  consistente d -> buscar_recurso rid d = Some rec ->
  consistente (db_tras_solicitar env rec cli ts d).
Proof.
  intros [Hco Hrel Hpos Htit Hlib Hcic Hint Haud] Hb.
  destruct (buscar_recurso_some _ _ Hb) as [Hin Hrid].
  set (r := reserva_solicitada env rec cli ts d).
  assert (forall y, In y (reservas (db_tras_solicitar env rec cli ts d)) ->
                    In y (reservas d) \/ y = r) as Hrows.
  { intros y Hy. rewrite reservas_tras_solicitar in Hy.
    apply in_app_or in Hy. destruct Hy as [Hy|[<-|[]]]; auto. }
  constructor.
  - eapply solicitar_coherente; eauto.
  - unfold relojes_crecientes. rewrite reservas_tras_solicitar.
    apply ForallOrdPairs_app_uno; [exact Hrel|].
    intros a Ha E. apply reloj_solicitada_mayor; auto.
  - intros y Hy. destruct (Hrows y Hy) as [Hy'| ->]; [auto|].
    simpl. pose proof (ultimo_reloj_no_negativo (recurso_pk rec) Hpos). lia.
  - intros a q Ha Hq E Hact Hcol.
    destruct (Hrows a Ha) as [Ha'| ->], (Hrows q Hq) as [Hq'| ->].
    + eauto.
    + apply reloj_solicitada_mayor; auto.
    + exfalso. simpl in Hact, E. unfold estado_solicitud in Hact.
      destruct (estado_recurso_eqb_spec (estado_recurso rec) DISPONIBLE) as [Hd|];
        [|discriminate].
      assert (In q (en_cola (recurso_pk rec) d)) as Hq2
          by (apply reservas_en_in; auto).
      rewrite (Hlib rec Hin Hd) in Hq2. contradiction.
    + congruence.
  - intros x Hx Hd. apply in_guardar_recurso in Hx.
    rewrite pk_recurso_tras_solicitar in Hx. destruct Hx as [->|[Hx Hne]].
    + exfalso. unfold recurso_tras_solicitar in Hd.
      destruct (estado_recurso_eqb_spec (estado_recurso rec) DISPONIBLE);
        simpl in Hd; congruence.
    + rewrite en_cola_tras_solicitar.
      assert ((recurso_pk rec =? recurso_pk x) = false) as ->
          by (apply Z.eqb_neq; congruence).
      simpl. rewrite app_nil_r. auto.
  - intros y Hy. destruct (Hrows y Hy) as [Hy'| ->]; [auto|].
    unfold ciclo_de_vida. simpl. unfold estado_solicitud.
    destruct (estado_recurso_eqb (estado_recurso rec) DISPONIBLE); simpl;
      split; congruence.
  - intros y Hy.
    assert (exists rec0, In rec0 (recursos d) /\ recurso_pk rec0 = recurso y)
      as (rec0 & H0 & E0).
    { destruct (Hrows y Hy) as [Hy'| ->]; [auto|]. exists rec. auto. }
    destruct (@recurso_sigue_guardado
                (recurso_tras_solicitar rec r) rec0 (insertar_reserva r d) H0)
      as (x' & Hx' & Ex').
    exists x'. split; [exact Hx'|congruence].
  - intros y Hy.
    assert (forall e, In e (eventos d) ->
                      In e (eventos (db_tras_solicitar env rec cli ts d))) as Hmas.
    { intros e He. unfold db_tras_solicitar. simpl. apply in_or_app. now left. }
    destruct (Hrows y Hy) as [Hy'| ->].
    + destruct (Haud y Hy') as [H1 H2]. split.
      * eapply tiene_evento_mas; eauto.
      * intros Hf. eapply tiene_evento_mas; eauto.
    + split.
      * eexists. split; [|split].
        -- unfold db_tras_solicitar. simpl. apply in_or_app. right. left. reflexivity.
        -- reflexivity.
        -- reflexivity.
      * simpl. unfold estado_solicitud.
        destruct (estado_recurso_eqb (estado_recurso rec) DISPONIBLE); discriminate.
Qed.

(* ====================================================================== *)
(** * What a release leaves in the tables                                  *)
(* ====================================================================== *)

Lemma reservas_tras_liberar env rec cli r0 d :
  reservas (db_tras_liberar env rec cli r0 d)
  = match siguiente_en_cola (recurso_pk rec) (db_finalizada env rec cli r0 d) with
    | Some s0 =>
        reemplazar_reserva (concedida env s0)
          (reemplazar_reserva (finalizada env r0) (reservas d))
    | None => reemplazar_reserva (finalizada env r0) (reservas d)
    end.
Proof.
  unfold db_tras_liberar.
  destruct (siguiente_en_cola (recurso_pk rec) (db_finalizada env rec cli r0 d));
    reflexivity.
Qed.

Lemma filas_tras_liberar env rec cli r0 d y :
  In y (reservas (db_tras_liberar env rec cli r0 d)) ->
  y = finalizada env r0
  \/ (exists s0, siguiente_en_cola (recurso_pk rec) (db_finalizada env rec cli r0 d)
                 = Some s0 /\ y = concedida env s0)
  \/ (In y (reservas d) /\ reserva_pk y <> reserva_pk r0
      /\ forall s0, siguiente_en_cola (recurso_pk rec)
                      (db_finalizada env rec cli r0 d) = Some s0 ->
                    reserva_pk y <> reserva_pk s0).
Proof.
  rewrite reservas_tras_liberar.
  destruct (siguiente_en_cola (recurso_pk rec) (db_finalizada env rec cli r0 d))
    as [s0|]; intros Hy.
  - apply in_reemplazar in Hy. destruct Hy as [->|[Hy Hne]]; [right; left; eauto|].
    apply in_reemplazar in Hy. destruct Hy as [->|[Hy Hne0]]; [now left|].
    right. right. repeat split; auto. intros s1 E. injection E as <-. exact Hne.
  - apply in_reemplazar in Hy. destruct Hy as [->|[Hy Hne0]]; [now left|].
    right. right. repeat split; auto. discriminate.
Qed.

Lemma eventos_tras_liberar env rec cli r0 d :
  (forall e, In e (eventos d) -> In e (eventos (db_tras_liberar env rec cli r0 d)))
  /\ tiene_evento "LIBERACION" (reserva_pk r0) (db_tras_liberar env rec cli r0 d).
Proof.
  unfold db_tras_liberar, tiene_evento.
  destruct (siguiente_en_cola (recurso_pk rec) (db_finalizada env rec cli r0 d));
    simpl; split.
  - intros e He. apply in_or_app. left. apply in_or_app. now left.
  - eexists. split; [apply in_or_app; left; apply in_or_app; right; left; reflexivity|].
    split; reflexivity.
  - intros e He. apply in_or_app. now left.
  - eexists. split; [apply in_or_app; right; left; reflexivity|].
    split; reflexivity.
Qed.

Lemma recursos_tras_liberar env rec cli r0 d x :
  In x (recursos (db_tras_liberar env rec cli r0 d)) ->
  (recurso_pk x = recurso_pk rec /\ codigo x = codigo rec
   /\ match siguiente_en_cola (recurso_pk rec) (db_finalizada env rec cli r0 d) with
      | Some s0 => estado_recurso x = OCUPADO
                   /\ reserva_actual x = Some (reserva_pk s0)
      | None => estado_recurso x = DISPONIBLE /\ reserva_actual x = None
      end)
  \/ (In x (recursos d) /\ recurso_pk x <> recurso_pk rec).
Proof.
  unfold db_tras_liberar.
  destruct (siguiente_en_cola (recurso_pk rec) (db_finalizada env rec cli r0 d));
    intros Hx; apply in_guardar_recurso in Hx; simpl in Hx;
    destruct Hx as [->|Hx]; auto.
Qed.

Lemma recurso_sigue_tras_liberar env rec cli r0 d x :
  In x (recursos d) ->
  exists x', In x' (recursos (db_tras_liberar env rec cli r0 d))
             /\ recurso_pk x' = recurso_pk x.
Proof.
  intros Hx. unfold db_tras_liberar.
  destruct (siguiente_en_cola (recurso_pk rec) (db_finalizada env rec cli r0 d)).
  - match goal with
    | |- context [guardar_recurso ?r ?d0] =>
        destruct (@recurso_sigue_guardado r x d0) as (x' & H1 & H2); [exact Hx|]
    end.
    eauto.
  - match goal with
    | |- context [guardar_recurso ?r ?d0] =>
        destruct (@recurso_sigue_guardado r x d0) as (x' & H1 & H2); [exact Hx|]
    end.
    eauto.
Qed.

(** The facts on the reservation that a release finishes, in a coherent
    state: it is the only active one of the resource, which is [OCUPADO]
    and points to it. *)
Lemma activa_es_titular rid rec cli r0 d :
  coherente d -> buscar_recurso rid d = Some rec ->
  activa_del_cliente rid cli d = Some r0 ->
  activas rid d = [r0] /\ estado_recurso rec = OCUPADO
  /\ reserva_actual rec = Some (reserva_pk r0).
Proof.
  intros [Hpk Hco] Hb Ha.
  destruct (buscar_recurso_some _ _ Hb) as [Hin Hrid].
  destruct (activa_del_cliente_some _ _ _ Ha) as (Hr0 & Hrec0 & _ & Hact).
  assert (In r0 (activas rid d)) as Hin0 by (apply reservas_en_in; auto).
  pose proof (Hco rec Hin) as Hrec. unfold estado_coherente in Hrec.
  rewrite Hrid in Hrec.
  destruct (estado_recurso rec).
  - destruct Hrec as [E _]. rewrite E in Hin0. contradiction.
  - destruct Hrec as (r & E & Hr). rewrite E in Hin0.
    destruct Hin0 as [->|[]]. auto.
  - destruct Hrec as [E _]. rewrite E in Hin0. contradiction.
Qed.

(** The facts on the reservation that a release promotes. *)
Lemma siguiente_hechos env rid rec cli r0 d s0 :
  pk_unicas d -> activa_del_cliente rid cli d = Some r0 ->
  siguiente_en_cola rid (db_finalizada env rec cli r0 d) = Some s0 ->
  In s0 (reservas d) /\ recurso s0 = rid /\ estado s0 = EN_COLA
  /\ reserva_pk s0 <> reserva_pk r0
  /\ In s0 (reservas (db_finalizada env rec cli r0 d))
  /\ forall q, In q (reservas d) -> recurso q = rid -> estado q = EN_COLA ->
               clave_le s0 q.
Proof.
  intros Hpk Ha Hs.
  destruct (activa_del_cliente_some _ _ _ Ha) as (Hr0 & _ & _ & Hact).
  pose proof (@en_cola_db_finalizada env rec cli r0 d rid Hpk Hr0 Hact) as Hcola.
  pose proof (siguiente_en_cola_some _ _ Hs) as (Hs1 & _ & _).
  unfold siguiente_en_cola in Hs. rewrite Hcola in Hs.
  pose proof (first_order_by_in _ _ Hs) as Hin.
  apply reservas_en_in in Hin. destruct Hin as (H1 & H2 & H3).
  repeat split; auto.
  - intros E. assert (s0 = r0) by (apply (pk_unicas_eq (reservas d)); auto).
    congruence.
  - intros q Hq1 Hq2 Hq3. apply clave_leb_le.
    apply (@first_order_by_min _ clave_leb clave_leb_total clave_leb_trans _ _ Hs).
    apply reservas_en_in. auto.
Qed.

Lemma en_cola_tras_liberar_otro env rid rec cli r0 d rid' :
  pk_unicas d -> buscar_recurso rid d = Some rec ->
  activa_del_cliente rid cli d = Some r0 -> rid' <> rid ->
  en_cola rid' (db_tras_liberar env rec cli r0 d) = en_cola rid' d.
Proof.
  intros Hpk Hb Ha Hne.
  destruct (buscar_recurso_some _ _ Hb) as [_ Hrid].
  destruct (activa_del_cliente_some _ _ _ Ha) as (Hr0 & _ & _ & Hact).
  rewrite <- (@en_cola_db_finalizada env rec cli r0 d rid' Hpk Hr0 Hact).
  unfold en_cola at 1, reservas_en. rewrite reservas_tras_liberar, Hrid.
  destruct (siguiente_en_cola rid (db_finalizada env rec cli r0 d)) as [s0|] eqn:Es;
    [|reflexivity].
  destruct (@siguiente_hechos env rid rec cli r0 d s0 Hpk Ha Es)
    as (_ & Hrs & _ & _ & Hs1 & _).
  assert ((rid =? rid') = false) as Hf by (apply Z.eqb_neq; congruence).
  apply filter_reemplazar_igual with (x := s0); auto.
  - rewrite reemplazar_pks. exact Hpk.
  - rewrite Hrs, Hf. reflexivity.
  - simpl. rewrite Hrs, Hf. reflexivity.
Qed.

Lemma relojes_tras_liberar env rid rec cli r0 d :
  pk_unicas d -> buscar_recurso rid d = Some rec ->
  activa_del_cliente rid cli d = Some r0 ->
  relojes_crecientes d ->
  relojes_crecientes (db_tras_liberar env rec cli r0 d).
Proof.
  intros Hpk Hb Ha Hrel.
  destruct (buscar_recurso_some _ _ Hb) as [_ Hrid].
  destruct (activa_del_cliente_some _ _ _ Ha) as (Hr0 & _ & _ & Hact).
  unfold relojes_crecientes. rewrite reservas_tras_liberar, Hrid.
  assert (ForallOrdPairs reloj_menor
            (reemplazar_reserva (finalizada env r0) (reservas d))) as H1.
  { apply relojes_reemplazar with (x := r0); auto. }
  destruct (siguiente_en_cola rid (db_finalizada env rec cli r0 d)) as [s0|] eqn:Es;
    [|exact H1].
  destruct (@siguiente_hechos env rid rec cli r0 d s0 Hpk Ha Es)
    as (_ & _ & _ & _ & Hs1 & _).
  apply relojes_reemplazar with (x := s0); auto.
  rewrite reemplazar_pks. exact Hpk.
Qed.

(* ====================================================================== *)
(** * The full invariant is kept by a release                              *)
(* ====================================================================== *)

Lemma liberar_consistente env rid rec cli r0 d :
  consistente d -> buscar_recurso rid d = Some rec ->
  activa_del_cliente rid cli d = Some r0 ->
  consistente (db_tras_liberar env rec cli r0 d).
Proof.
  intros [Hco Hrel Hpos Htit Hlib Hcic Hint Haud] Hb Ha.
  pose proof Hco as [Hpk _].
  destruct (buscar_recurso_some _ _ Hb) as [Hin Hrid].
  destruct (activa_del_cliente_some _ _ _ Ha) as (Hr0 & Hrec0 & _ & Hact).
  assert (forall s0,
            siguiente_en_cola (recurso_pk rec) (db_finalizada env rec cli r0 d)
            = Some s0 ->
            In s0 (reservas d) /\ recurso s0 = rid /\ estado s0 = EN_COLA
            /\ forall q, In q (reservas d) -> recurso q = rid ->
                         estado q = EN_COLA -> clave_le s0 q) as Hs.
  { rewrite Hrid. intros s0 Es.
    destruct (@siguiente_hechos env rid rec cli r0 d s0 Hpk Ha Es)
      as (H1 & H2 & H3 & _ & _ & H6). auto. }
  destruct (eventos_tras_liberar env rec cli r0 d) as [Hmas Hlibev].
  constructor.
  - eapply liberar_coherente; eauto.
  - eapply relojes_tras_liberar; eauto.
  - intros y Hy.
    destruct (filas_tras_liberar _ _ _ _ _ _ Hy) as [->|[(s0 & Es & ->)|(Hy' & _)]].
    + exact (Hpos r0 Hr0).
    + destruct (Hs s0 Es) as (H1 & _). exact (Hpos s0 H1).
    + auto.
  - intros a q Ha' Hq' E Hea Heq.
    destruct (filas_tras_liberar _ _ _ _ _ _ Hq')
      as [->|[(s1 & _ & ->)|(Hq1 & Hq2 & Hq3)]]; [discriminate|discriminate|].
    destruct (filas_tras_liberar _ _ _ _ _ _ Ha')
      as [->|[(s0 & Es & ->)|(Ha1 & _)]]; [discriminate| |eauto].
    destruct (Hs s0 Es) as (Hs1 & Hs2 & Hs3 & Hmin).
    simpl in E. simpl.
    destruct (Hmin q Hq1 (eq_trans (eq_sym E) Hs2) Heq) as [Hlt|[Heq' _]];
      [exact Hlt|].
    destruct (ForallOrdPairs_In Hrel _ _ Hs1 Hq1) as [Esq|[H|H]].
    + exfalso. apply (Hq3 s0 Es). now rewrite Esq.
    + exact (H E).
    + specialize (H (eq_sym E)). lia.
  - intros x Hx Hd.
    destruct (recursos_tras_liberar _ _ _ _ _ _ Hx) as [(Hxpk & _ & Hm)|(Hx' & Hne)].
    + destruct (siguiente_en_cola (recurso_pk rec) (db_finalizada env rec cli r0 d))
        as [s0|] eqn:Es.
      * destruct Hm as [Ho _]. congruence.
      * rewrite Hxpk. unfold db_tras_liberar. rewrite Es.
        unfold siguiente_en_cola in Es. apply first_order_by_none in Es.
        exact Es.
    + rewrite (@en_cola_tras_liberar_otro env rid rec cli r0 d (recurso_pk x));
        auto. congruence.
  - intros y Hy.
    destruct (filas_tras_liberar _ _ _ _ _ _ Hy) as [->|[(s0 & Es & ->)|(Hy' & _)]].
    + pose proof (Hcic r0 Hr0) as H. unfold ciclo_de_vida in *. rewrite Hact in H.
      simpl. destruct H as [H1 _]. split; [exact H1|discriminate].
    + destruct (Hs s0 Es) as (H1 & _ & H3 & _).
      pose proof (Hcic s0 H1) as H. unfold ciclo_de_vida in *. rewrite H3 in H.
      simpl. destruct H as [_ H2]. split; [discriminate|exact H2].
    + auto.
  - intros y Hy.
    assert (exists y0, In y0 (reservas d) /\ recurso y0 = recurso y) as (y0 & Hy0 & E).
    { destruct (filas_tras_liberar _ _ _ _ _ _ Hy)
        as [->|[(s0 & Es & ->)|(Hy' & _)]].
      - exists r0. auto.
      - exists s0. destruct (Hs s0 Es) as (H1 & _). auto.
      - exists y. auto. }
    destruct (Hint y0 Hy0) as (rec0 & H0 & E0).
    destruct (@recurso_sigue_tras_liberar env rec cli r0 d rec0 H0) as (x' & H1 & H2).
    exists x'. split; [exact H1|congruence].
  - intros y Hy.
    destruct (filas_tras_liberar _ _ _ _ _ _ Hy) as [->|[(s0 & Es & ->)|(Hy' & _)]].
    + split; [|intros _; exact Hlibev].
      destruct (Haud r0 Hr0) as [H1 _]. eapply tiene_evento_mas; eauto.
    + destruct (Hs s0 Es) as (H1 & _).
      split; [|discriminate].
      destruct (Haud s0 H1) as [H2 _]. eapply tiene_evento_mas; eauto.
    + destruct (Haud y Hy') as [H1 H2]. split.
      * eapply tiene_evento_mas; eauto.
      * intros Hf. eapply tiene_evento_mas; eauto.
Qed.

Lemma inicial_consistente (d : DB) : inicial d -> consistente d.
Proof.
  intros Hi. pose proof (inicial_coherente Hi) as Hco.
  destruct Hi as [Hr _].
  constructor; auto.
  - unfold relojes_crecientes. rewrite Hr. constructor.
  - intros r. rewrite Hr. contradiction.
  - intros a q. rewrite Hr. contradiction.
  - intros rec _ _. unfold en_cola, reservas_en. rewrite Hr. reflexivity.
  - intros r. rewrite Hr. contradiction.
  - intros r. rewrite Hr. contradiction.
  - intros r. rewrite Hr. contradiction.
Qed.

(** Whatever holds of the tables, is kept by a request that writes and by
    a release that writes, holds after every sequence of calls. *)
Lemma ejecutar_preserva (P : DB -> Prop) :
  (forall env rid rec cli ts d,
     P d -> buscar_recurso rid d = Some rec ->
     P (db_tras_solicitar env rec cli ts d)) ->
  (forall env rid rec cli r0 d,
     P d -> buscar_recurso rid d = Some rec ->
     activa_del_cliente rid cli d = Some r0 ->
     P (db_tras_liberar env rec cli r0 d)) ->
  forall o w, P (db w) -> P (db (ejecutar o w)).
Proof.
  intros Hsol Hlib o w H. destruct o as [env rid cli ts|env rid cli]; simpl.
  - destruct (buscar_recurso rid (db w)) as [rec|] eqn:Eb.
    + rewrite (@solicitar_reserva_run env rid cli ts w rec Eb). simpl.
      destruct (canal env); eauto.
    + rewrite (@solicitar_reserva_sin_recurso env rid cli ts w Eb). exact H.
  - destruct (buscar_recurso rid (db w)) as [rec|] eqn:Eb.
    + destruct (activa_del_cliente rid cli (db w)) as [r0|] eqn:Ea.
      * rewrite (@liberar_reserva_run env rid cli w rec r0 Eb Ea). simpl.
        destruct (canal env); eauto.
      * rewrite (@liberar_reserva_sin_activa env rid cli w rec Eb Ea). exact H.
    + rewrite (@liberar_reserva_sin_recurso env rid cli w Eb). exact H.
Qed.

Lemma ejecutar_todas_consistente (ops : list Operacion) (w : Mundo) :
  consistente (db w) -> consistente (db (ejecutar_todas ops w)).
Proof.
  revert w. induction ops as [|o ops IH]; intros w H; simpl; [exact H|].
  apply IH. apply ejecutar_preserva; auto.
  - intros. eapply solicitar_consistente; eauto.
  - intros. eapply liberar_consistente; eauto.
Qed.

Lemma alcanzable_consistente (w0 : Mundo) (ops : list Operacion) :
  inicial (db w0) -> consistente (db (ejecutar_todas ops w0)).
Proof. intros H. apply ejecutar_todas_consistente, inicial_consistente, H. Qed.

(* ====================================================================== *)
(** * Properties of the states the operations reach                        *)
(* ====================================================================== *)

Lemma lista_sin_elementos {A} (l : list A) : (forall x, ~ In x l) -> l = [].
Proof.
  destruct l as [|x l]; [reflexivity|]. intros H. exfalso. apply (H x). now left.
Qed.

Lemma visibles_nodup (rid : Z) (d : DB) :
  pk_unicas d -> NoDup (reservas_visibles rid d).
Proof.
  intros H. unfold reservas_visibles. apply NoDup_filter.
  apply pk_unicas_filas. exact H.
Qed.

Lemma visible_activa_o_en_cola (rid : Z) (d : DB) (r : Reserva) :
  In r (reservas_visibles rid d) ->
  In r (activas rid d) \/ In r (en_cola rid d).
Proof.
  intros H. apply reservas_visibles_in in H. destruct H as (H1 & H2 & [H3|H3]).
  - right. apply reservas_en_in. auto.
  - left. apply reservas_en_in. auto.
Qed.

(** X3 - The holder heads the listing.  In every state reached from an
    initial state, the listing that [cola_recurso] gives for a resource
    that is [OCUPADO] starts with its holder, the [ACTIVA] reservation that
    [reserva_actual] points to, and all the entries after it are [EN_COLA]
    with a strictly larger clock; for a resource that is [DISPONIBLE] the
    listing is empty; for one that is [FUERA_SERVICIO] it holds waiting
    reservations only. *)
Theorem X3_titular_encabeza_cola w0 ops nombre request rid rec :
  inicial (db w0) ->
  method request = GET ->
  buscar_recurso rid (db (ejecutar_todas ops w0)) = Some rec ->
  let w := ejecutar_todas ops w0 in
  match estado_recurso rec with
  | OCUPADO =>
      exists r resto,
        fst (cola_recurso nombre request rid w)
        = ColaJson (entrada_de nombre r :: map (entrada_de nombre) resto)
        /\ estado r = ACTIVA
        /\ reserva_actual rec = Some (reserva_pk r)
        /\ forall q, In q resto ->
             estado q = EN_COLA /\ reloj_lamport r < reloj_lamport q
  | DISPONIBLE => fst (cola_recurso nombre request rid w) = ColaJson []
  | FUERA_SERVICIO =>
      exists resto,
        fst (cola_recurso nombre request rid w)
        = ColaJson (map (entrada_de nombre) resto)
        /\ forall q, In q resto -> estado q = EN_COLA
  end.
Proof.
  intros Hi Hm Hb w.
  pose proof (alcanzable_consistente w0 ops Hi) as Hc. fold w in Hc, Hb.
  destruct Hc as [[Hpk Hco] _ _ Htit Hlib _ _ _].
  destruct (buscar_recurso_some _ _ Hb) as [Hin Hrid].
  pose proof (Hco rec Hin) as Hrec. unfold estado_coherente in Hrec.
  rewrite Hrid in Hrec.
  unfold cola_recurso. rewrite Hm. cbn [fst].
  pose proof (order_by_perm clave_leb (reservas_visibles rid (db w))) as Hperm.
  destruct (estado_recurso rec) eqn:Ee.
  - (* DISPONIBLE *)
    destruct Hrec as [Ha _].
    assert (reservas_visibles rid (db w) = []) as ->; [|reflexivity].
    apply lista_sin_elementos. intros x Hx.
    destruct (visible_activa_o_en_cola _ _ _ Hx) as [H|H].
    + rewrite Ha in H. contradiction.
    + rewrite <- Hrid, (Hlib rec Hin Ee) in H. contradiction.
  - (* OCUPADO *)
    destruct Hrec as (r & Ha & Hact).
    assert (In r (activas rid (db w))) as Hr by (rewrite Ha; now left).
    apply reservas_en_in in Hr. destruct Hr as (Hr1 & Hr2 & Hr3).
    assert (In r (reservas_visibles rid (db w))) as Hrv
        by (apply reservas_visibles_in; auto).
    assert (forall q, In q (reservas_visibles rid (db w)) -> q <> r ->
                      estado q = EN_COLA /\ reloj_lamport r < reloj_lamport q)
      as Hresto.
    { intros q Hq Hne. destruct (visible_activa_o_en_cola _ _ _ Hq) as [H|H].
      - rewrite Ha in H. destruct H as [->|[]]. contradiction.
      - apply reservas_en_in in H. destruct H as (H1 & H2 & H3).
        split; [exact H3|]. apply Htit; auto. congruence. }
    pose proof (@order_by_sorted _ clave_leb clave_leb_total clave_leb_trans
                  (reservas_visibles rid (db w))) as Hs.
    pose proof (Permutation_NoDup Hperm (visibles_nodup rid Hpk)) as Hnd.
    destruct (order_by clave_leb (reservas_visibles rid (db w))) as [|m resto] eqn:EL.
    { apply (Permutation_in _ Hperm) in Hrv. contradiction. }
    assert (m = r) as ->.
    { assert (In m (reservas_visibles rid (db w))) as Hmv
          by (apply (Permutation_in _ (Permutation_sym Hperm)); now left).
      destruct (Z.eq_dec (reserva_pk m) (reserva_pk r)) as [E|E].
      { apply (pk_unicas_eq (reservas (db w))); auto.
        apply reservas_visibles_in in Hmv. tauto. }
      exfalso.
      assert (m <> r) as E' by congruence.
      destruct (Hresto m Hmv E') as [_ Hlt].
      apply (Permutation_in _ Hperm) in Hrv. destruct Hrv as [Hrv|Hrv]; [congruence|].
      apply StronglySorted_inv in Hs. destruct Hs as [_ Hf].
      rewrite Forall_forall in Hf. specialize (Hf r Hrv).
      apply clave_leb_le in Hf. destruct Hf as [Hf|[Hf _]]; lia. }
    exists r, resto. split; [reflexivity|]. split; [exact Hr3|].
    split; [exact Hact|].
    intros q Hq. apply Hresto.
    + apply (Permutation_in _ (Permutation_sym Hperm)). now right.
    + intros ->. inversion Hnd; contradiction.
  - (* FUERA_SERVICIO *)
    destruct Hrec as [Ha _].
    exists (order_by clave_leb (reservas_visibles rid (db w))).
    split; [reflexivity|]. intros q Hq.
    apply (Permutation_in _ (Permutation_sym Hperm)) in Hq.
    destruct (visible_activa_o_en_cola _ _ _ Hq) as [H|H].
    + rewrite Ha in H. contradiction.
    + apply reservas_en_in in H. tauto.
Qed.

Lemma ejemplo_inicial : inicial (db Ejemplo.w0).
Proof.
  split; [reflexivity|].
  intros r [<-|[<-|[]]]; split; (discriminate || reflexivity).
Qed.

Lemma X3_titular_encabeza_cola_witness :
  exists r resto,
    fst (cola_recurso Ejemplo.sin_nombre Ejemplo.ver_cola 1
           (ejecutar_todas Ejemplo.operaciones Ejemplo.w0))
    = ColaJson (entrada_de Ejemplo.sin_nombre r
                :: map (entrada_de Ejemplo.sin_nombre) resto)
    /\ estado r = ACTIVA
    /\ reserva_pk r = 2.
Proof.
  destruct (@X3_titular_encabeza_cola Ejemplo.w0 Ejemplo.operaciones
              Ejemplo.sin_nombre Ejemplo.ver_cola 1
              (mkRecurso 1 "PRINTER1" OCUPADO (Some 2))
              ejemplo_inicial eq_refl eq_refl)
    as (r & resto & H1 & H2 & H3 & _).
  exists r, resto. repeat split; auto. simpl in H3. congruence.
Defined.

(** X4 - Nobody waits for a free resource.  In every state reached from an
    initial state, a resource that is [DISPONIBLE] has no reservation that
    is [EN_COLA] or [ACTIVA]: a release never leaves the resource free
    while a request is waiting for it. *)
Theorem X4_libre_sin_espera w0 ops rec r :
  inicial (db w0) ->
  In rec (recursos (db (ejecutar_todas ops w0))) ->
  estado_recurso rec = DISPONIBLE ->
  In r (reservas (db (ejecutar_todas ops w0))) ->
  recurso r = recurso_pk rec ->
  estado r = FINALIZADA.
Proof.
  intros Hi Hrec Hd Hr E.
  destruct (alcanzable_consistente w0 ops Hi) as [[_ Hco] _ _ _ Hlib Hcic _ _].
  pose proof (Hco rec Hrec) as H. unfold estado_coherente in H. rewrite Hd in H.
  destruct H as [Ha _]. pose proof (Hlib rec Hrec Hd) as Hq.
  pose proof (Hcic r Hr) as Hc. unfold ciclo_de_vida in Hc.
  destruct (estado r) eqn:Ee; try contradiction; try reflexivity; exfalso.
  - assert (In r (en_cola (recurso_pk rec) (db (ejecutar_todas ops w0)))) as H
        by (apply reservas_en_in; auto).
    rewrite Hq in H. contradiction.
  - assert (In r (activas (recurso_pk rec) (db (ejecutar_todas ops w0)))) as H
        by (apply reservas_en_in; auto).
    rewrite Ha in H. contradiction.
Qed.

Lemma X4_libre_sin_espera_witness :
  estado (mkReserva 1 1 Ejemplo.nodoA 1 "A" FINALIZADA (Some 10) (Some 11) 10)
  = FINALIZADA.
Proof.
  apply (@X4_libre_sin_espera Ejemplo.w0
           [Solicitar (Ejemplo.env 10) 1 Ejemplo.nodoA 0;
            Liberar (Ejemplo.env 11) 1 Ejemplo.nodoA]
           Ejemplo.impresora
           (mkReserva 1 1 Ejemplo.nodoA 1 "A" FINALIZADA (Some 10) (Some 11) 10)
           ejemplo_inicial).
  - vm_compute. left. reflexivity.
  - reflexivity.
  - vm_compute. left. reflexivity.
  - reflexivity.
Defined.

Lemma ForallOrdPairs_medio {A} (R : A -> A -> Prop) (l1 l2 l3 : list A) (a b : A) :
  ForallOrdPairs R (l1 ++ a :: l2 ++ b :: l3) -> R a b.
Proof.
  induction l1 as [|x l1 IH]; simpl; intros H; inversion H as [|? ? Hf Hl]; subst.
  - rewrite Forall_forall in Hf. apply Hf. apply in_or_app. right. now left.
  - auto.
Qed.

(** X5 - Clocks follow the order of creation.  In every state reached from
    an initial state, every logical clock is at least 1, and of two
    reservations of the same resource the one stored later (further down
    the table, with the larger key) has the strictly larger clock; so no
    two reservations of a resource share a clock, and the pair
    [(reloj_lamport, prioridad_id)] never ties. *)
Theorem X5_relojes_crecientes w0 ops :
  inicial (db w0) ->
  let d := db (ejecutar_todas ops w0) in
  (forall r, In r (reservas d) -> 1 <= reloj_lamport r)
  /\ (forall l1 a l2 b l3,
        reservas d = l1 ++ a :: l2 ++ b :: l3 ->
        recurso a = recurso b ->
        reloj_lamport a < reloj_lamport b /\ reserva_pk a <> reserva_pk b)
  /\ (forall a b, In a (reservas d) -> In b (reservas d) ->
        recurso a = recurso b -> reloj_lamport a = reloj_lamport b -> a = b).
Proof.
  intros Hi d.
  destruct (alcanzable_consistente w0 ops Hi) as [[Hpk _] Hrel Hpos _ _ _ _ _].
  fold d in Hpk, Hrel, Hpos. split; [exact Hpos|]. split.
  - intros l1 a l2 b l3 E Hab. unfold relojes_crecientes in Hrel.
    rewrite E in Hrel. split; [exact (ForallOrdPairs_medio _ _ _ _ _ Hrel Hab)|].
    unfold pk_unicas in Hpk. rewrite E in Hpk.
    rewrite map_app in Hpk. simpl in Hpk. apply NoDup_remove_2 in Hpk.
    intros Epk. apply Hpk. apply in_or_app. right.
    rewrite map_app. apply in_or_app. right. left. symmetry. exact Epk.
  - intros a b Ha Hb E1 E2.
    destruct (ForallOrdPairs_In Hrel _ _ Ha Hb) as [E|[H|H]]; [exact E| |].
    + specialize (H E1). lia.
    + specialize (H (eq_sym E1)). lia.
Qed.

Lemma X5_relojes_crecientes_witness :
  inicial (db Ejemplo.w0)
  /\ 1 <= reloj_lamport (mkReserva 3 1 Ejemplo.nodoB 3 "B" EN_COLA None None 12).
Proof.
  split; [exact ejemplo_inicial|].
  destruct (@X5_relojes_crecientes Ejemplo.w0 Ejemplo.operaciones ejemplo_inicial)
    as (H & _).
  apply H. vm_compute. right. right. left. reflexivity.
Defined.

(** X6 - Life cycle.  In every state reached from an initial state, each
    reservation is [EN_COLA], [ACTIVA] or [FINALIZADA] (the statuses
    [CANCELADA], [RECHAZADA] and [EXPIRADA] are never written);
    [fecha_concesion] is set exactly when it is no longer [EN_COLA], and
    [fecha_liberacion] exactly when it is [FINALIZADA]. *)
Theorem X6_ciclo_de_vida w0 ops r :
  inicial (db w0) ->
  In r (reservas (db (ejecutar_todas ops w0))) ->
  (estado r = EN_COLA \/ estado r = ACTIVA \/ estado r = FINALIZADA)
  /\ (fecha_concesion r <> None <-> estado r <> EN_COLA)
  /\ (fecha_liberacion r <> None <-> estado r = FINALIZADA).
Proof.
  intros Hi Hr.
  destruct (alcanzable_consistente w0 ops Hi) as [_ _ _ _ _ Hcic _ _].
  pose proof (Hcic r Hr) as H. unfold ciclo_de_vida in H.
  destruct (estado r); try contradiction; destruct H as [H1 H2];
    (split; [auto|]); split; split; intros; congruence.
Qed.

Lemma X6_ciclo_de_vida_witness :
  In (mkReserva 1 1 Ejemplo.nodoA 1 "A" FINALIZADA (Some 10) (Some 13) 10)
     (reservas (db (ejecutar_todas Ejemplo.operaciones Ejemplo.w0)))
  /\ (fecha_concesion
        (mkReserva 1 1 Ejemplo.nodoA 1 "A" FINALIZADA (Some 10) (Some 13) 10)
      <> None
      <-> estado (mkReserva 1 1 Ejemplo.nodoA 1 "A" FINALIZADA (Some 10) (Some 13) 10)
          <> EN_COLA).
Proof.
  assert (In (mkReserva 1 1 Ejemplo.nodoA 1 "A" FINALIZADA (Some 10) (Some 13) 10)
             (reservas (db (ejecutar_todas Ejemplo.operaciones Ejemplo.w0)))) as Hin
      by (vm_compute; left; reflexivity).
  split; [exact Hin|].
  destruct (@X6_ciclo_de_vida Ejemplo.w0 Ejemplo.operaciones
              (mkReserva 1 1 Ejemplo.nodoA 1 "A" FINALIZADA (Some 10) (Some 13) 10)
              ejemplo_inicial Hin) as (_ & H & _).
  exact H.
Defined.

(** X7 - The log is complete.  In every state reached from an initial
    state, the log has a [SOLICITUD] event for every reservation of the
    table and a [LIBERACION] event for every reservation that is
    [FINALIZADA]. *)
Theorem X7_auditoria_completa w0 ops r :
  inicial (db w0) ->
  In r (reservas (db (ejecutar_todas ops w0))) ->
  (exists e, In e (eventos (db (ejecutar_todas ops w0)))
             /\ tipo_evento e = "SOLICITUD"
             /\ evento_reserva e = Some (reserva_pk r))
  /\ (estado r = FINALIZADA ->
      exists e, In e (eventos (db (ejecutar_todas ops w0)))
                /\ tipo_evento e = "LIBERACION"
                /\ evento_reserva e = Some (reserva_pk r)).
Proof.
  intros Hi Hr.
  destruct (alcanzable_consistente w0 ops Hi) as [_ _ _ _ _ _ _ Haud].
  exact (Haud r Hr).
Qed.

Lemma X7_auditoria_completa_witness :
  exists e, In e (eventos (db (ejecutar_todas Ejemplo.operaciones Ejemplo.w0)))
            /\ tipo_evento e = "LIBERACION"
            /\ evento_reserva e = Some 1.
Proof.
  destruct (@X7_auditoria_completa Ejemplo.w0 Ejemplo.operaciones
              (mkReserva 1 1 Ejemplo.nodoA 1 "A" FINALIZADA (Some 10) (Some 13) 10)
              ejemplo_inicial) as (_ & H).
  - vm_compute. left. reflexivity.
  - exact (H eq_refl).
Defined.

(** X8 - Listing of an unknown resource.  In every state reached from an
    initial state every reservation belongs to a resource of the table; so
    for an id that the storage can compare with its keys (a signed 64-bit
    integer) and that matches no resource, [cola_recurso] answers a GET
    with the empty list, not with an error. *)
Theorem X8_cola_de_recurso_desconocido w0 ops nombre request rid :
  inicial (db w0) ->
  method request = GET ->
  cabe_en_bigint rid ->
  buscar_recurso rid (db (ejecutar_todas ops w0)) = None ->
  (forall r, In r (reservas (db (ejecutar_todas ops w0))) -> recurso r <> rid)
  /\ cola_recurso nombre request rid (ejecutar_todas ops w0)
     = (ColaJson [], ejecutar_todas ops w0).
Proof.
  intros Hi Hm _ Hb.
  destruct (alcanzable_consistente w0 ops Hi) as [_ _ _ _ _ _ Hint _].
  assert (forall r, In r (reservas (db (ejecutar_todas ops w0))) ->
                    recurso r <> rid) as Hno.
  { intros r Hr E. destruct (Hint r Hr) as (rec & Hrec & Epk).
    apply (@buscar_recurso_none rid _ Hb rec Hrec). congruence. }
  split; [exact Hno|].
  unfold cola_recurso. rewrite Hm.
  assert (reservas_visibles rid (db (ejecutar_todas ops w0)) = []) as ->;
    [|reflexivity].
  apply lista_sin_elementos. intros x Hx. apply reservas_visibles_in in Hx.
  destruct Hx as (H1 & H2 & _). exact (Hno x H1 H2).
Qed.

Lemma X8_cola_de_recurso_desconocido_witness :
  cola_recurso Ejemplo.sin_nombre Ejemplo.ver_cola 999
    (ejecutar_todas Ejemplo.operaciones Ejemplo.w0)
  = (ColaJson [], ejecutar_todas Ejemplo.operaciones Ejemplo.w0).
Proof.
  destruct (@X8_cola_de_recurso_desconocido Ejemplo.w0 Ejemplo.operaciones
              Ejemplo.sin_nombre Ejemplo.ver_cola 999
              ejemplo_inicial eq_refl) as (_ & H).
  - split; vm_compute; discriminate.
  - reflexivity.
  - exact H.
Defined.

Lemma activas_de_cliente_filtra (rid : Z) (cli : Cliente) (d : DB) :
  activas_de_cliente rid cli d
  = filter (fun r => cliente_pk (cliente r) =? cliente_pk cli) (activas rid d).
Proof.
  unfold activas_de_cliente, activas, reservas_en.
  induction (reservas d) as [|x l IH]; simpl; [reflexivity|].
  destruct (recurso x =? rid); simpl;
    destruct (estado_eqb (estado x) ACTIVA); simpl;
    destruct (cliente_pk (cliente x) =? cliente_pk cli); simpl;
    rewrite IH; reflexivity.
Qed.

Lemma activa_del_cliente_titular (rid : Z) (cli : Cliente) (d : DB) (r : Reserva) :
  activas rid d = [r] ->
  activa_del_cliente rid cli d
  = if cliente_pk (cliente r) =? cliente_pk cli then Some r else None.
Proof.
  intros H. unfold activa_del_cliente.
  rewrite activas_de_cliente_filtra, H. simpl.
  destruct (cliente_pk (cliente r) =? cliente_pk cli); reflexivity.
Qed.

Lemma activa_del_cliente_sin_activas (rid : Z) (cli : Cliente) (d : DB) :
  activas rid d = [] -> activa_del_cliente rid cli d = None.
Proof.
  intros H. unfold activa_del_cliente.
  rewrite activas_de_cliente_filtra, H. reflexivity.
Qed.

Lemma buscar_reserva_in (d : DB) (r : Reserva) :
  pk_unicas d -> In r (reservas d) -> buscar_reserva (reserva_pk r) d = Some r.
Proof.
  intros Hpk Hin. unfold buscar_reserva.
  destruct (find (fun x => reserva_pk x =? reserva_pk r) (reservas d)) as [x|] eqn:E.
  - apply find_some in E. destruct E as [Hx Epk]. apply Z.eqb_eq in Epk.
    f_equal. apply (pk_unicas_eq (reservas d)); auto.
  - pose proof (find_none _ _ E r Hin) as H. simpl in H.
    rewrite Z.eqb_refl in H. discriminate.
Qed.

(** X9 - Only the holder releases.  In every state reached from an initial
    state, for an existing resource and a notification that does not
    raise: if [reserva_actual] points to a reservation, that reservation is
    stored, [ACTIVA] and of this resource; a release by its client
    finishes exactly that reservation, and a release by any other client
    returns [None] and changes nothing.  If [reserva_actual] is empty,
    every release returns [None] and changes nothing. *)
Theorem X9_solo_el_titular_libera w0 ops env rid cli rec :
  inicial (db w0) ->
  buscar_recurso rid (db (ejecutar_todas ops w0)) = Some rec ->
  canal env <> CanalFalla ->
  let w := ejecutar_todas ops w0 in
  match reserva_actual rec with
  | Some k =>
      exists r,
        buscar_reserva k (db w) = Some r
        /\ estado r = ACTIVA /\ recurso r = rid
        /\ (cliente_pk cli = cliente_pk (cliente r) ->
            fst (liberar_reserva env rid cli w) = Ok (Some (finalizada env r)))
        /\ (cliente_pk cli <> cliente_pk (cliente r) ->
            fst (liberar_reserva env rid cli w) = Ok None
            /\ db (snd (liberar_reserva env rid cli w)) = db w)
  | None =>
      fst (liberar_reserva env rid cli w) = Ok None
      /\ db (snd (liberar_reserva env rid cli w)) = db w
  end.
Proof.
  intros Hi Hb Hc w.
  pose proof (alcanzable_consistente w0 ops Hi) as Hcons. fold w in Hcons, Hb.
  destruct Hcons as [[Hpk Hco] _ _ _ _ _ _ _].
  destruct (buscar_recurso_some _ _ Hb) as [Hin Hrid].
  pose proof (Hco rec Hin) as Hrec. unfold estado_coherente in Hrec.
  rewrite Hrid in Hrec.
  assert (activas rid (db w) = [] ->
          fst (liberar_reserva env rid cli w) = Ok None
          /\ db (snd (liberar_reserva env rid cli w)) = db w) as Hnada.
  { intros Ha.
    rewrite (@liberar_reserva_sin_activa env rid cli w rec Hb
               (activa_del_cliente_sin_activas rid cli _ Ha)).
    split; reflexivity. }
  destruct (estado_recurso rec).
  - destruct Hrec as [Ha ->]. auto.
  - destruct Hrec as (r & Ha & ->). exists r.
    assert (In r (activas rid (db w))) as Hr by (rewrite Ha; now left).
    apply reservas_en_in in Hr. destruct Hr as (Hr1 & Hr2 & Hr3).
    split; [apply buscar_reserva_in; auto|].
    split; [exact Hr3|]. split; [exact Hr2|].
    pose proof (activa_del_cliente_titular rid cli _ Ha) as Hadc.
    split; intros E.
    + rewrite E, Z.eqb_refl in Hadc.
      rewrite (@liberar_reserva_run env rid cli w rec r Hb Hadc). cbn [fst].
      destruct (canal env); congruence.
    + assert ((cliente_pk (cliente r) =? cliente_pk cli) = false) as Hf
          by (apply Z.eqb_neq; congruence).
      rewrite Hf in Hadc.
      rewrite (@liberar_reserva_sin_activa env rid cli w rec Hb Hadc).
      split; reflexivity.
  - destruct Hrec as [Ha ->]. auto.
Qed.

Lemma X9_solo_el_titular_libera_witness :
  fst (liberar_reserva (Ejemplo.env 14) 1 Ejemplo.nodoB
         (ejecutar_todas Ejemplo.operaciones Ejemplo.w0)) = Ok None.
Proof.
  destruct (@X9_solo_el_titular_libera Ejemplo.w0 Ejemplo.operaciones
              (Ejemplo.env 14) 1 Ejemplo.nodoB
              (mkRecurso 1 "PRINTER1" OCUPADO (Some 2)) ejemplo_inicial eq_refl)
    as (r & Hr & _ & _ & _ & H).
  - discriminate.
  - vm_compute in Hr. injection Hr as <-. apply H. simpl. discriminate.
Defined.

Lemma reemplazar_ultima (x x' : Reserva) (l : list Reserva) :
  ~ In (reserva_pk x) (map reserva_pk l) -> reserva_pk x' = reserva_pk x ->
  reemplazar_reserva x' (l ++ [x]) = l ++ [x'].
Proof.
  intros Hnot Hpk.
  assert (reemplazar_reserva x' (l ++ [x])
          = reemplazar_reserva x' l ++ reemplazar_reserva x' [x]) as ->
      by (unfold reemplazar_reserva; apply map_app).
  rewrite reemplazar_otros by (now rewrite Hpk).
  simpl. now rewrite Hpk, Z.eqb_refl.
Qed.

(** X10 - Request, then release.  In every state reached from an initial
    state, on a resource that is [DISPONIBLE], a request whose integers fit
    their columns, followed by a release of the same client (notifications
    not raising), puts the row of the resource back exactly as it was; the
    table of reservations has one more row, the new reservation,
    [FINALIZADA] with both dates set and a clock that fits its column; and
    the log has two more events, [SOLICITUD] then [LIBERACION]. *)
Theorem X10_solicitar_y_liberar w0 ops env1 env2 rid cli ts rec :
  inicial (db w0) ->
  buscar_recurso rid (db (ejecutar_todas ops w0)) = Some rec ->
  estado_recurso rec = DISPONIBLE ->
  canal env1 <> CanalFalla -> canal env2 <> CanalFalla ->
  almacenable rid ts (db (ejecutar_todas ops w0)) ->
  let w := ejecutar_todas ops w0 in
  let w1 := snd (solicitar_reserva env1 rid cli ts w) in
  let w2 := snd (liberar_reserva env2 rid cli w1) in
  exists r e1 e2,
    fst (solicitar_reserva env1 rid cli ts w) = Ok r
    /\ cabe_en_bigint (reloj_lamport r)
    /\ fst (liberar_reserva env2 rid cli w1) = Ok (Some (finalizada env2 r))
    /\ buscar_recurso rid (db w2) = Some rec
    /\ reservas (db w2) = reservas (db w) ++ [finalizada env2 r]
    /\ fecha_concesion (finalizada env2 r) = Some (ahora env1)
    /\ fecha_liberacion (finalizada env2 r) = Some (ahora env2)
    /\ eventos (db w2) = eventos (db w) ++ [e1; e2]
    /\ tipo_evento e1 = "SOLICITUD" /\ tipo_evento e2 = "LIBERACION"
    /\ evento_reserva e1 = Some (reserva_pk r)
    /\ evento_reserva e2 = Some (reserva_pk r).
Proof.
  intros Hi Hb Hd Hc1 Hc2 Halm w w1 w2.
  pose proof (alcanzable_consistente w0 ops Hi) as Hcons.
  fold w in Hcons, Hb, Halm.
  destruct (buscar_recurso_some _ _ Hb) as [Hin Hrid].
  set (r := reserva_solicitada env1 rec cli ts (db w)).
  set (d1 := db_tras_solicitar env1 rec cli ts (db w)).
  assert (solicitar_reserva env1 rid cli ts w
          = (Ok r, mkMundo d1 (traza w ++ traza_llamada env1 rid))) as Hrun1.
  { rewrite (@solicitar_reserva_run env1 rid cli ts w rec Hb).
    destruct (canal env1) eqn:E; try reflexivity. congruence. }
  pose proof (@solicitar_consistente env1 rid rec cli ts (db w) Hcons Hb) as Hcons1.
  fold d1 in Hcons1.
  assert (estado r = ACTIVA) as Hact
      by (simpl; unfold estado_solicitud; rewrite Hd; reflexivity).
  assert (recurso_tras_solicitar rec r
          = mkRecurso rid (codigo rec) OCUPADO (Some (reserva_pk r))) as Hrec2.
  { unfold recurso_tras_solicitar. rewrite Hd, Hrid. reflexivity. }
  pose proof (@buscar_recurso_tras_solicitar env1 rid rec cli ts (db w) Hb) as Hb1.
  fold r d1 in Hb1. rewrite Hrec2 in Hb1.
  (* in the state after the request, [r] holds the resource *)
  destruct Hcons as [[Hpk Hco] _ _ _ Hlib _ _ _].
  pose proof (Hco rec Hin) as Hcoh. unfold estado_coherente in Hcoh.
  rewrite Hd, Hrid in Hcoh. destruct Hcoh as [Hsin Hnone].
  assert (activas rid d1 = [r]) as Hact1.
  { unfold d1. rewrite activas_tras_solicitar, Hsin, Hrid, Z.eqb_refl.
    unfold estado_solicitud. rewrite Hd. reflexivity. }
  assert (activa_del_cliente rid cli d1 = Some r) as Hadc.
  { rewrite (activa_del_cliente_titular rid cli _ Hact1).
    simpl. now rewrite Z.eqb_refl. }
  assert (en_cola rid d1 = []) as Hcola1.
  { unfold d1. rewrite en_cola_tras_solicitar.
    rewrite <- Hrid at 1. rewrite (Hlib rec Hin Hd).
    unfold estado_solicitud. rewrite Hd, andb_false_r. reflexivity. }
  set (rec1 := mkRecurso rid (codigo rec) OCUPADO (Some (reserva_pk r))) in *.
  destruct Hcons1 as [[Hpk1 _] _ _ _ _ _ _ _].
  assert (siguiente_en_cola (recurso_pk rec1) (db_finalizada env2 rec1 cli r d1)
          = None) as Hsig.
  { unfold siguiente_en_cola.
    rewrite (@en_cola_db_finalizada env2 rec1 cli r d1 (recurso_pk rec1) Hpk1).
    - simpl. rewrite Hcola1. reflexivity.
    - unfold d1. rewrite reservas_tras_solicitar. apply in_or_app. right. now left.
    - exact Hact. }
  exists r. eexists. eexists.
  split; [rewrite Hrun1; reflexivity|].
  split; [apply almacenable_reloj; rewrite Hrid; exact Halm|].
  unfold w2, w1. rewrite Hrun1. cbn [snd].
  rewrite (@liberar_reserva_run env2 rid cli
             (mkMundo d1 (traza w ++ traza_llamada env1 rid)) rec1 r Hb1 Hadc).
  cbn [fst snd db].
  split; [destruct (canal env2) eqn:E; try reflexivity; congruence|].
  assert ((match canal env2 with
           | CanalFalla => d1
           | _ => db_tras_liberar env2 rec1 cli r d1
           end) = db_tras_liberar env2 rec1 cli r d1) as ->
      by (destruct (canal env2) eqn:E; try reflexivity; congruence).
  unfold db_tras_liberar. rewrite Hsig.
  split.
  { rewrite (@buscar_guardar_recurso rid rec1
               (mkRecurso (recurso_pk rec1) (codigo rec1) DISPONIBLE None)).
    - f_equal. destruct rec as [pk cod est act]. simpl in *. congruence.
    - exact Hb1.
    - reflexivity. }
  split.
  { cbn [reservas guardar_recurso db_finalizada insertar_evento guardar_reserva].
    unfold d1. rewrite reservas_tras_solicitar. fold r.
    apply reemplazar_ultima; [|reflexivity].
    apply siguiente_pk_not_in. }
  split; [simpl; unfold estado_solicitud; rewrite Hd; reflexivity|].
  split; [reflexivity|].
  split.
  { cbn [eventos guardar_recurso db_finalizada insertar_evento guardar_reserva].
    unfold d1, db_tras_solicitar.
    cbn [eventos guardar_recurso insertar_evento insertar_reserva].
    rewrite <- app_assoc. reflexivity. }
  repeat split.
Qed.

Lemma X10_solicitar_y_liberar_witness :
  buscar_recurso 1
    (db (snd (liberar_reserva (Ejemplo.env 11) 1 Ejemplo.nodoA
                (snd (solicitar_reserva (Ejemplo.env 10) 1 Ejemplo.nodoA 0
                        Ejemplo.w0)))))
  = Some Ejemplo.impresora.
Proof.
  destruct (@X10_solicitar_y_liberar Ejemplo.w0 [] (Ejemplo.env 10) (Ejemplo.env 11)
              1 Ejemplo.nodoA 0 Ejemplo.impresora ejemplo_inicial eq_refl eq_refl)
    as (r & e1 & e2 & _ & _ & _ & H & _).
  - discriminate.
  - discriminate.
  - apply ejemplo_almacenable.
  - exact H.
Defined.

(* ====================================================================== *)
(** * One step of one operation                                            *)
(* ====================================================================== *)

Lemma mismas_columnas_refl (r : Reserva) : mismas_columnas r r.
Proof. repeat split. Qed.

(** The tables after a call: as before, or those of a request that wrote,
    or those of a release that wrote. *)
Lemma ejecutar_casos (o : Operacion) (w : Mundo) :
  db (ejecutar o w) = db w
  \/ (exists env rid cli ts rec,
        o = Solicitar env rid cli ts /\ buscar_recurso rid (db w) = Some rec
        /\ canal env <> CanalFalla
        /\ db (ejecutar o w) = db_tras_solicitar env rec cli ts (db w))
  \/ (exists env rid cli rec r0,
        o = Liberar env rid cli /\ buscar_recurso rid (db w) = Some rec
        /\ activa_del_cliente rid cli (db w) = Some r0
        /\ canal env <> CanalFalla
        /\ db (ejecutar o w) = db_tras_liberar env rec cli r0 (db w)).
Proof.
  destruct o as [env rid cli ts|env rid cli]; simpl.
  - destruct (buscar_recurso rid (db w)) as [rec|] eqn:Eb.
    + rewrite (@solicitar_reserva_run env rid cli ts w rec Eb). simpl.
      destruct (canal env) eqn:Ec; [| |now left];
        right; left; exists env, rid, cli, ts, rec;
        repeat split; auto; rewrite ?Ec; congruence.
    + rewrite (@solicitar_reserva_sin_recurso env rid cli ts w Eb). now left.
  - destruct (buscar_recurso rid (db w)) as [rec|] eqn:Eb.
    + destruct (activa_del_cliente rid cli (db w)) as [r0|] eqn:Ea.
      * rewrite (@liberar_reserva_run env rid cli w rec r0 Eb Ea). simpl.
        destruct (canal env) eqn:Ec; [| |now left];
          right; right; exists env, rid, cli, rec, r0;
          repeat split; auto; rewrite ?Ec; congruence.
      * rewrite (@liberar_reserva_sin_activa env rid cli w rec Eb Ea). now left.
    + rewrite (@liberar_reserva_sin_recurso env rid cli w Eb). now left.
Qed.

(** X11 - The life of a reservation, step by step.  With unique keys, one
    call of either operation leaves every stored reservation in the table
    with its key, resource, client, clock, tie-break key and creation date
    unchanged, and its status unchanged or moved one step forward: a
    request never changes a stored reservation; a release may finish one
    [ACTIVA] reservation, of its resource and its client, and promote one
    [EN_COLA] reservation of its resource.  A reservation that is
    [FINALIZADA] (or in any other final status) is never written again. *)
Theorem X11_paso_de_una_reserva o w r :
  pk_unicas (db w) -> In r (reservas (db w)) ->
  exists r',
    In r' (reservas (db (ejecutar o w)))
    /\ mismas_columnas r r'
    /\ paso_estado (estado r) (estado r')
    /\ (r' = r
        \/ exists env rid cli,
             o = Liberar env rid cli /\ recurso r = rid
             /\ ((estado r = ACTIVA
                  /\ cliente_pk (cliente r) = cliente_pk cli
                  /\ r' = finalizada env r)
                 \/ (estado r = EN_COLA /\ r' = concedida env r))).
Proof.
  intros Hpk Hr.
  destruct (ejecutar_casos o w)
    as [E|[(env & rid & cli & ts & rec & -> & Hb & Hc & E)
          |(env & rid & cli & rec & r0 & -> & Hb & Ha & Hc & E)]]; rewrite E.
  - exists r. repeat split; auto. now left.
  - exists r. split.
    { rewrite reservas_tras_solicitar. apply in_or_app. now left. }
    repeat split; auto. now left.
  - destruct (buscar_recurso_some _ _ Hb) as [_ Hrid].
    destruct (activa_del_cliente_some _ _ _ Ha) as (Hr0 & Hrec0 & Hcli0 & Hact0).
    rewrite reservas_tras_liberar, Hrid.
    destruct (Z.eq_dec (reserva_pk r) (reserva_pk r0)) as [E0|E0].
    + assert (r = r0) as -> by (apply (pk_unicas_eq (reservas (db w))); auto).
      exists (finalizada env r0). split.
      { destruct (siguiente_en_cola rid (db_finalizada env rec cli r0 (db w)))
          as [s0|] eqn:Es.
        - destruct (@siguiente_hechos env rid rec cli r0 (db w) s0 Hpk Ha Es)
            as (_ & _ & _ & Hne & _).
          apply in_reemplazar_otro; [|simpl; congruence].
          apply in_reemplazar_mismo with (x := r0); auto.
        - apply in_reemplazar_mismo with (x := r0); auto. }
      split; [repeat split|].
      split; [right; right; simpl; auto|].
      right. exists env, rid, cli. repeat split; auto.
    + destruct (siguiente_en_cola rid (db_finalizada env rec cli r0 (db w)))
        as [s0|] eqn:Es.
      * destruct (@siguiente_hechos env rid rec cli r0 (db w) s0 Hpk Ha Es)
          as (Hs1 & Hs2 & Hs3 & Hne & Hs5 & _).
        destruct (Z.eq_dec (reserva_pk r) (reserva_pk s0)) as [E1|E1].
        -- assert (r = s0) as -> by (apply (pk_unicas_eq (reservas (db w))); auto).
           exists (concedida env s0). split.
           { apply in_reemplazar_mismo with (x := s0); auto. }
           split; [repeat split|].
           split; [right; left; simpl; auto|].
           right. exists env, rid, cli. repeat split; auto.
        -- exists r. split.
           { apply in_reemplazar_otro; [|simpl; congruence].
             apply in_reemplazar_otro; [exact Hr|simpl; congruence]. }
           repeat split; auto. now left.
      * exists r. split.
        { apply in_reemplazar_otro; [exact Hr|simpl; congruence]. }
        repeat split; auto. now left.
Qed.

Lemma X11_paso_de_una_reserva_witness :
  exists r',
    In r' (reservas (db (ejecutar (Liberar (Ejemplo.env 13) 1 Ejemplo.nodoA)
                           Ejemplo.w3)))
    /\ paso_estado ACTIVA (estado r').
Proof.
  destruct (@X11_paso_de_una_reserva (Liberar (Ejemplo.env 13) 1 Ejemplo.nodoA)
              Ejemplo.w3
              (mkReserva 1 1 Ejemplo.nodoA 1 "A" ACTIVA (Some 10) None 10))
    as (r' & H1 & _ & H2 & _).
  - unfold pk_unicas. vm_compute. repeat constructor; simpl; intuition discriminate.
  - vm_compute. left. reflexivity.
  - exists r'. split; [exact H1|exact H2].
Defined.

Lemma buscar_guardar_recurso_otro (rid : Z) (rec' : Recurso) (d : DB) :
  recurso_pk rec' <> rid ->
  buscar_recurso rid (guardar_recurso rec' d) = buscar_recurso rid d.
Proof.
  intros Hne. unfold buscar_recurso, guardar_recurso. simpl.
  induction (recursos d) as [|y l IH]; simpl; [reflexivity|].
  destruct (Z.eqb_spec (recurso_pk y) (recurso_pk rec')) as [E|E].
  - assert ((recurso_pk rec' =? rid) = false) as -> by (now apply Z.eqb_neq).
    assert ((recurso_pk y =? rid) = false) as -> by (apply Z.eqb_neq; congruence).
    exact IH.
  - destruct (recurso_pk y =? rid); [reflexivity|exact IH].
Qed.

(** A filter that lets through no row of the resource of the operation
    gives the same before and after it. *)
Lemma filtro_de_otros_recursos (o : Operacion) (w : Mundo) (f : Reserva -> bool) :
  pk_unicas (db w) ->
  (forall x, recurso x = recurso_de_operacion o -> f x = false) ->
  filter f (reservas (db (ejecutar o w))) = filter f (reservas (db w)).
Proof.
  intros Hpk Hf.
  destruct (ejecutar_casos o w)
    as [E|[(env & rid & cli & ts & rec & -> & Hb & Hc & E)
          |(env & rid & cli & rec & r0 & -> & Hb & Ha & Hc & E)]]; rewrite E.
  - reflexivity.
  - destruct (buscar_recurso_some _ _ Hb) as [_ Hrid].
    rewrite reservas_tras_solicitar, filter_app. simpl.
    rewrite Hf; [apply app_nil_r|exact Hrid].
  - destruct (buscar_recurso_some _ _ Hb) as [_ Hrid].
    destruct (activa_del_cliente_some _ _ _ Ha) as (Hr0 & Hrec0 & _ & _).
    simpl in Hf.
    assert (filter f (reemplazar_reserva (finalizada env r0) (reservas (db w)))
            = filter f (reservas (db w))) as H1.
    { apply filter_reemplazar_igual with (x := r0); auto. }
    rewrite reservas_tras_liberar, Hrid.
    destruct (siguiente_en_cola rid (db_finalizada env rec cli r0 (db w)))
      as [s0|] eqn:Es; [|exact H1].
    destruct (@siguiente_hechos env rid rec cli r0 (db w) s0 Hpk Ha Es)
      as (_ & Hs2 & _ & _ & Hs5 & _).
    rewrite <- H1.
    apply filter_reemplazar_igual with (x := s0); auto.
    rewrite reemplazar_pks. exact Hpk.
Qed.

(** X12 - Resources do not interfere.  With unique keys, a call of either
    operation on one resource leaves every other resource as it was: its
    row, its reservations and the listing that [cola_recurso] gives for
    it. *)
Theorem X12_otros_recursos o w rid' :
  pk_unicas (db w) ->
  rid' <> recurso_de_operacion o ->
  buscar_recurso rid' (db (ejecutar o w)) = buscar_recurso rid' (db w)
  /\ reservas_de rid' (db (ejecutar o w)) = reservas_de rid' (db w)
  /\ forall nombre request,
       fst (cola_recurso nombre request rid' (ejecutar o w))
       = fst (cola_recurso nombre request rid' w).
Proof.
  intros Hpk Hne.
  assert (forall g : Reserva -> bool,
            filter (fun r => (recurso r =? rid') && g r)
              (reservas (db (ejecutar o w)))
            = filter (fun r => (recurso r =? rid') && g r) (reservas (db w)))
    as Hfil.
  { intros g. apply filtro_de_otros_recursos; [exact Hpk|].
    intros x Hx.
    assert ((recurso x =? rid') = false) as -> by (apply Z.eqb_neq; congruence).
    reflexivity. }
  split; [|split].
  - destruct (ejecutar_casos o w)
      as [E|[(env & rid & cli & ts & rec & -> & Hb & Hc & E)
            |(env & rid & cli & rec & r0 & -> & Hb & Ha & Hc & E)]]; rewrite E.
    + reflexivity.
    + destruct (buscar_recurso_some _ _ Hb) as [_ Hrid]. simpl in Hne.
      unfold db_tras_solicitar.
      change (buscar_recurso rid' (insertar_evento ?e ?x))
        with (buscar_recurso rid' x).
      rewrite buscar_guardar_recurso_otro;
        [reflexivity|rewrite pk_recurso_tras_solicitar; congruence].
    + destruct (buscar_recurso_some _ _ Hb) as [_ Hrid]. simpl in Hne.
      unfold db_tras_liberar.
      destruct (siguiente_en_cola (recurso_pk rec)
                  (db_finalizada env rec cli r0 (db w)));
        rewrite buscar_guardar_recurso_otro by (simpl; congruence); reflexivity.
  - assert (forall d, reservas_de rid' d
                      = filter (fun r => (recurso r =? rid') && (fun _ => true) r)
                          (reservas d)) as Hde.
    { intros d. unfold reservas_de. apply filter_ext.
      intros a. now rewrite andb_true_r. }
    rewrite !Hde. apply Hfil.
  - intros nombre request. unfold cola_recurso.
    destruct (method request); try reflexivity. cbn [fst].
    unfold reservas_visibles. now rewrite Hfil.
Qed.

Lemma X12_otros_recursos_witness :
  buscar_recurso 2 (db (ejecutar (Solicitar (Ejemplo.env 10) 1 Ejemplo.nodoA 0)
                          Ejemplo.w0))
  = buscar_recurso 2 (db Ejemplo.w0).
Proof.
  destruct (@X12_otros_recursos (Solicitar (Ejemplo.env 10) 1 Ejemplo.nodoA 0)
              Ejemplo.w0 2) as (H & _).
  - unfold pk_unicas. simpl. constructor.
  - simpl. discriminate.
  - exact H.
Defined.

Lemma guardar_recurso_pks (rec' : Recurso) (d : DB) :
  map recurso_pk (recursos (guardar_recurso rec' d)) = map recurso_pk (recursos d).
Proof.
  unfold guardar_recurso. simpl.
  induction (recursos d) as [|y l IH]; simpl; [reflexivity|].
  rewrite IH. destruct (Z.eqb_spec (recurso_pk y) (recurso_pk rec')); congruence.
Qed.

(** X13 - The tables only grow.  One call of either operation, whatever it
    returns, keeps the log as a prefix and appends at most two events, all
    stamped with the time of the call; keeps the keys of the reservations
    in place and appends at most one; leaves the clients untouched; and
    neither adds nor removes a resource. *)
Theorem X13_solo_se_anade o w :
  (exists nuevos,
     eventos (db (ejecutar o w)) = eventos (db w) ++ nuevos
     /\ (List.length nuevos <= 2)%nat
     /\ Forall (fun e => ts_servidor e = ahora (entorno_de_operacion o)) nuevos)
  /\ (exists nuevas,
        map reserva_pk (reservas (db (ejecutar o w)))
        = map reserva_pk (reservas (db w)) ++ nuevas
        /\ (List.length nuevas <= 1)%nat)
  /\ clientes (db (ejecutar o w)) = clientes (db w)
  /\ map recurso_pk (recursos (db (ejecutar o w)))
     = map recurso_pk (recursos (db w)).
Proof.
  destruct (ejecutar_casos o w)
    as [E|[(env & rid & cli & ts & rec & -> & Hb & Hc & E)
          |(env & rid & cli & rec & r0 & -> & Hb & Ha & Hc & E)]]; rewrite E.
  - split; [exists []|split; [exists []|]]; rewrite ?app_nil_r; simpl; auto.
  - split; [|split; [|split]].
    + eexists. split; [reflexivity|]. simpl. split; [lia|].
      repeat constructor.
    + eexists. rewrite reservas_tras_solicitar, map_app. split; [reflexivity|].
      simpl. lia.
    + reflexivity.
    + unfold db_tras_solicitar.
      change (recursos (insertar_evento ?e ?x)) with (recursos x).
      now rewrite guardar_recurso_pks.
  - split; [|split; [|split]].
    + unfold db_tras_liberar.
      destruct (siguiente_en_cola (recurso_pk rec)
                  (db_finalizada env rec cli r0 (db w))); simpl.
      * rewrite <- app_assoc. eexists. split; [reflexivity|]. simpl.
        split; [lia|]. repeat constructor.
      * eexists. split; [reflexivity|]. simpl. split; [lia|]. repeat constructor.
    + exists []. rewrite app_nil_r. split; [|simpl; lia].
      rewrite reservas_tras_liberar.
      destruct (siguiente_en_cola (recurso_pk rec)
                  (db_finalizada env rec cli r0 (db w)));
        rewrite !reemplazar_pks; reflexivity.
    + unfold db_tras_liberar.
      destruct (siguiente_en_cola (recurso_pk rec)
                  (db_finalizada env rec cli r0 (db w))); reflexivity.
    + unfold db_tras_liberar.
      destruct (siguiente_en_cola (recurso_pk rec)
                  (db_finalizada env rec cli r0 (db w)));
        rewrite guardar_recurso_pks; reflexivity.
Qed.

(** X14 - A message is published exactly when the call wrote.  One call of
    either operation appends to the trace one transaction; in it a
    [group_send] occurs, for the group of the resource of the call, exactly
    when a channel layer delivers and the call added to the log: a call for
    an unknown resource, a release without holder and a call that is rolled
    back publish nothing.  A transaction that is rolled back leaves the
    tables as they were. *)
Theorem X14_notifica_si_escribe o w :
  exists t,
    traza (ejecutar o w) = traza w ++ t
    /\ (forall k, In (GroupSend k) t <->
          k = recurso_de_operacion o
          /\ canal (entorno_de_operacion o) = CanalEntrega
          /\ (List.length (eventos (db w))
              < List.length (eventos (db (ejecutar o w))))%nat)
    /\ (In TxRollback t -> db (ejecutar o w) = db w)
    /\ (In TxCommit t \/ In TxRollback t).
Proof.
  assert (forall env rid k,
            In (GroupSend k) (traza_llamada env rid)
            <-> k = rid /\ canal env = CanalEntrega) as Hgs.
  { intros env rid k. unfold traza_llamada.
    destruct (canal env); simpl; split;
      try (intros [H|[H|[H|[H|[]]]]]; try discriminate; injection H as <-; auto);
      try (intros [H|[H|[H|[]]]]; discriminate);
      try (intros [_ H]; discriminate).
    intros [-> _]. auto. }
  assert (forall env rid, In TxRollback (traza_llamada env rid) ->
                          canal env = CanalFalla) as Hrb.
  { intros env rid. unfold traza_llamada.
    destruct (canal env); simpl; auto;
      try (intros [H|[H|[H|[H|[]]]]]; discriminate);
      try (intros [H|[H|[H|[]]]]; discriminate). }
  assert (forall env rid, In TxCommit (traza_llamada env rid)
                          \/ In TxRollback (traza_llamada env rid)) as Hfin.
  { intros env rid. unfold traza_llamada. destruct (canal env); simpl; auto 10. }
  destruct o as [env rid cli ts|env rid cli]; simpl.
  - destruct (buscar_recurso rid (db w)) as [rec|] eqn:Eb.
    + rewrite (@solicitar_reserva_run env rid cli ts w rec Eb). cbn [snd db traza].
      exists (traza_llamada env rid). split; [reflexivity|].
      split; [|split; [|apply Hfin]].
      * intros k. rewrite Hgs. split.
        -- intros [-> Hc]. rewrite Hc. repeat split; auto.
           unfold db_tras_solicitar. simpl. rewrite length_app. simpl. lia.
        -- tauto.
      * intros H. apply Hrb in H. now rewrite H.
    + rewrite (@solicitar_reserva_sin_recurso env rid cli ts w Eb). cbn [snd db traza].
      exists [TxBegin; TxRollback]. split; [reflexivity|].
      split; [|split; [reflexivity|right; simpl; auto]].
      intros k. simpl. split; [intros [H|[H|[]]]; discriminate|].
      intros (_ & _ & H). lia.
  - destruct (buscar_recurso rid (db w)) as [rec|] eqn:Eb.
    + destruct (activa_del_cliente rid cli (db w)) as [r0|] eqn:Ea.
      * rewrite (@liberar_reserva_run env rid cli w rec r0 Eb Ea). cbn [snd db traza].
        exists (traza_llamada env rid). split; [reflexivity|].
        split; [|split; [|apply Hfin]].
        -- intros k. rewrite Hgs. split.
           ++ intros [-> Hc]. rewrite Hc. repeat split; auto.
              unfold db_tras_liberar.
              destruct (siguiente_en_cola (recurso_pk rec)
                          (db_finalizada env rec cli r0 (db w)));
                simpl; rewrite !length_app; simpl; lia.
           ++ tauto.
        -- intros H. apply Hrb in H. now rewrite H.
      * rewrite (@liberar_reserva_sin_activa env rid cli w rec Eb Ea).
        cbn [snd db traza].
        exists [TxBegin; SelectForUpdate rid; TxCommit]. split; [reflexivity|].
        split; [|split; [|left; simpl; auto]].
        -- intros k. simpl. split; [intros [H|[H|[H|[]]]]; discriminate|].
           intros (_ & _ & H). lia.
        -- simpl. intros [H|[H|[H|[]]]]; discriminate.
    + rewrite (@liberar_reserva_sin_recurso env rid cli w Eb). cbn [snd db traza].
      exists [TxBegin; TxRollback]. split; [reflexivity|].
      split; [|split; [reflexivity|right; simpl; auto]].
      intros k. simpl. split; [intros [H|[H|[]]]; discriminate|].
      intros (_ & _ & H). lia.
Qed.


Lemma find_ultimo {A} (f : A -> bool) (l : list A) (x : A) :
  (forall y, In y l -> f y = false) -> f x = true ->
  find f (l ++ [x]) = Some x.
Proof.
  intros Hl Hx. induction l as [|y l IH]; simpl.
  - now rewrite Hx.
  - rewrite (Hl y (or_introl eq_refl)). apply IH. intros z Hz. apply Hl. now right.
Qed.

Lemma buscar_reserva_solicitada env rec cli ts d :
  buscar_reserva (reserva_pk (reserva_solicitada env rec cli ts d))
    (db_tras_solicitar env rec cli ts d)
  = Some (reserva_solicitada env rec cli ts d).
Proof.
  unfold buscar_reserva. rewrite reservas_tras_solicitar.
  apply find_ultimo; [|apply Z.eqb_refl].
  intros y Hy. apply Z.eqb_neq. intros E.
  apply (siguiente_pk_not_in (map reserva_pk (reservas d))).
  simpl in E. rewrite <- E. now apply in_map.
Qed.

(** X16 - The id that the endpoint returns.  Whenever
    [solicitar_reserva_api] answers with a reservation id and a status,
    that id is new (no reservation had it before), and looking it up in the
    tables after the call gives a reservation of the requested resource and
    of the client named in the body, with the status of the answer: [ACTIVA]
    when the resource was [DISPONIBLE], [EN_COLA] otherwise. *)
Theorem X16_id_devuelto env request rid w id est w' :
  solicitar_reserva_api env request rid w = (JsonSolicitar id est, w') ->
  exists r rec cid p,
    body request = Payload p
    /\ payload_get "cliente_id" p = Some cid
    /\ buscar_cliente cid (db w) = Some (cliente r)
    /\ buscar_recurso rid (db w) = Some rec
    /\ buscar_reserva id (db w') = Some r
    /\ reserva_pk r = id /\ estado r = est /\ recurso r = rid
    /\ (est = ACTIVA <-> estado_recurso rec = DISPONIBLE)
    /\ (est = EN_COLA <-> estado_recurso rec <> DISPONIBLE)
    /\ (forall q, In q (reservas (db w)) -> reserva_pk q <> id).
Proof.
  unfold solicitar_reserva_api, responder. intros H.
  destruct (method request); simpl in H; try discriminate.
  destruct (body request) as [|p| |] eqn:Ebody; simpl in H; try discriminate.
  unfold bind at 1 in H. unfold ts_de_payload in H.
  destruct (payload_item "ts_cliente" p) as [[|ts]|] eqn:Ets;
    unfold raise, ret in H; simpl in H; try discriminate.
  - (* an integer timestamp *)
    destruct (payload_get "cliente_id" p) as [cid|] eqn:Ecid; simpl in H;
      [|discriminate].
    destruct (cid =? 0) eqn:E0; simpl in H; [discriminate|].
    unfold get_cliente_or_404, bind, leer, raise in H. simpl in H.
    destruct (buscar_cliente cid (db w)) as [cli|] eqn:Ecli; simpl in H;
      [|discriminate].
    destruct (buscar_recurso rid (db w)) as [rec|] eqn:Eb.
    + rewrite (@solicitar_reserva_run env rid cli ts w rec Eb) in H.
      destruct (buscar_recurso_some _ _ Eb) as [_ Hrid].
      destruct (canal env); simpl in H; try discriminate;
        injection H as <- <- <-;
        exists (reserva_solicitada env rec cli ts (db w)), rec, cid, p;
        (split; [reflexivity|]); (split; [exact Ecid|]);
        (split; [exact Ecli|]); (split; [reflexivity|]);
        (split; [apply buscar_reserva_solicitada|]);
        (split; [reflexivity|]); (split; [reflexivity|]);
        (split; [exact Hrid|]);
        simpl; unfold estado_solicitud;
        (destruct (estado_recurso_eqb_spec (estado_recurso rec) DISPONIBLE) as [Hd|Hd]);
        repeat split; try congruence; try tauto;
        intros q Hq E;
        apply (siguiente_pk_not_in (map reserva_pk (reservas (db w))));
        rewrite <- E; now apply in_map.
    + rewrite (@solicitar_reserva_sin_recurso env rid cli ts w Eb) in H.
      simpl in H. discriminate.
  - (* no timestamp: 0 *)
    destruct (payload_get "cliente_id" p) as [cid|] eqn:Ecid; simpl in H;
      [|discriminate].
    destruct (cid =? 0) eqn:E0; simpl in H; [discriminate|].
    unfold get_cliente_or_404, bind, leer, raise in H. simpl in H.
    destruct (buscar_cliente cid (db w)) as [cli|] eqn:Ecli; simpl in H;
      [|discriminate].
    destruct (buscar_recurso rid (db w)) as [rec|] eqn:Eb.
    + rewrite (@solicitar_reserva_run env rid cli 0 w rec Eb) in H.
      destruct (buscar_recurso_some _ _ Eb) as [_ Hrid].
      destruct (canal env); simpl in H; try discriminate;
        injection H as <- <- <-;
        exists (reserva_solicitada env rec cli 0 (db w)), rec, cid, p;
        (split; [reflexivity|]); (split; [exact Ecid|]);
        (split; [exact Ecli|]); (split; [reflexivity|]);
        (split; [apply buscar_reserva_solicitada|]);
        (split; [reflexivity|]); (split; [reflexivity|]);
        (split; [exact Hrid|]);
        simpl; unfold estado_solicitud;
        (destruct (estado_recurso_eqb_spec (estado_recurso rec) DISPONIBLE) as [Hd|Hd]);
        repeat split; try congruence; try tauto;
        intros q Hq E;
        apply (siguiente_pk_not_in (map reserva_pk (reservas (db w))));
        rewrite <- E; now apply in_map.
    + rewrite (@solicitar_reserva_sin_recurso env rid cli 0 w Eb) in H.
      simpl in H. discriminate.
Qed.

Lemma X16_id_devuelto_witness :
  exists r, buscar_reserva 1
              (db (snd (solicitar_reserva_api (Ejemplo.env 10)
                          (mkRequest POST (Payload [("cliente_id", JInt 1)]))
                          1 Ejemplo.w0))) = Some r
            /\ estado r = ACTIVA.
Proof.
  destruct (@X16_id_devuelto (Ejemplo.env 10)
              (mkRequest POST (Payload [("cliente_id", JInt 1)])) 1 Ejemplo.w0
              1 ACTIVA
              (snd (solicitar_reserva_api (Ejemplo.env 10)
                      (mkRequest POST (Payload [("cliente_id", JInt 1)]))
                      1 Ejemplo.w0)) eq_refl)
    as (r & rec & cid & p & _ & _ & _ & _ & H1 & _ & H2 & _).
  exists r. split; assumption.
Defined.

(* ====================================================================== *)
(** * Group names                                                          *)
(* ====================================================================== *)

Lemma to_int_normal (z : Z) : Decimal.norm (Z.to_int z) = Z.to_int z.
Proof.
  pose proof (DecimalZ.to_of (Z.to_int z)) as H.
  rewrite DecimalZ.of_to in H. symmetry. exact H.
Qed.

Lemma to_int_no_nil (z : Z) :
  Z.to_int z <> Decimal.Pos Decimal.Nil /\ Z.to_int z <> Decimal.Neg Decimal.Nil.
Proof.
  destruct z as [|p|p]; simpl; split; try discriminate; intros H;
    injection H as H; exact (DecimalPos.Unsigned.to_uint_nonnil p H).
Qed.

Lemma str_int_inj (a b : Z) : str_int a = str_int b -> a = b.
Proof.
  unfold str_int. intros H. apply DecimalZ.to_int_inj.
  destruct (to_int_no_nil a) as [Ha1 Ha2]. destruct (to_int_no_nil b) as [Hb1 Hb2].
  pose proof (DecimalString.NilZero.isi (Z.to_int a) Ha1 Ha2) as Ia.
  pose proof (DecimalString.NilZero.isi (Z.to_int b) Hb1 Hb2) as Ib.
  rewrite H in Ia. congruence.
Qed.

Lemma str_int_sin_cero_inicial (z : Z) (s : string) :
  s <> "" -> str_int z <> String.append "0" s.
Proof.
  intros Hs H. unfold str_int in H. pose proof (to_int_normal z) as Hn.
  destruct (Z.to_int z) as [u|u]; simpl in H; [|discriminate].
  destruct u as [|u|u|u|u|u|u|u|u|u|u]; simpl in H; try discriminate.
  injection H as H. simpl in Hn. injection Hn as Hn.
  unfold Decimal.unorm in Hn. rewrite DecimalFacts.nzhead_D0 in Hn.
  destruct (Decimal.nzhead u) eqn:E;
    try (exact (DecimalFacts.nzhead_nonzero u u (eq_trans E Hn)));
    try discriminate.
  injection Hn as <-. apply Hs. symmetry. exact H.
Qed.

(** X17 - Group names.  The group that [_notificar_cambio_cola] sends to
    for a resource is the group that a [RecursoConsumer] joins exactly when
    the id in the URL of the socket is the decimal text of the key of the
    resource; two resources never share a group; and an id written in the
    URL with a leading zero names the group of no resource, so such a
    socket is never notified. *)
Theorem X17_nombres_de_grupo :
  (forall rid, group_name (str_int rid) = grupo_de_recurso rid)
  /\ (forall s rid, group_name s = grupo_de_recurso rid <-> s = str_int rid)
  /\ (forall a b, grupo_de_recurso a = grupo_de_recurso b -> a = b)
  /\ (forall s rid, s <> "" -> group_name (String.append "0" s) <> grupo_de_recurso rid).
Proof.
  assert (forall s t, group_name s = String.append "recurso_" t -> s = t) as Hinj.
  { intros s t H. unfold group_name in H. simpl in H. now injection H. }
  split; [reflexivity|]. split; [|split].
  - intros s rid. split; [apply Hinj|intros ->; reflexivity].
  - intros a b H. apply str_int_inj. apply (Hinj _ _ H).
  - intros s rid Hs H. apply Hinj in H.
    exact (str_int_sin_cero_inicial rid Hs (eq_sym H)).
Qed.

Example grupo_del_recurso_7 :
  grupo_de_recurso 7 = "recurso_7" /\ group_name "007" = "recurso_007".
Proof. split; reflexivity. Qed.

(* ====================================================================== *)
(** * Registration                                                         *)
(* ====================================================================== *)

Example Cliente_objects_create_ok :
  option_map fst
    (match Cliente_objects_create
             [("nombre", ATexto "Nodo D"); ("identificador_externo", ATexto "D")]
             Ejemplo.db0 with
     | inr x => Some x
     | inl _ => None
     end)
  = Some (mkCliente 4 "D").
Proof. reflexivity. Qed.

(** X18 - Registration never creates a client.  A POST to [register_view]
    never answers with the redirect and never changes the table of
    clients: it raises for a missing form field and when [create_user]
    raises, and otherwise, the user being stored already, it raises
    [TypeError] because [Cliente] has no field [user].  Any other method
    renders the form. *)
Theorem X18_registro_sin_cliente create_user request d :
  (metodo request = POST ->
     snd (register_view create_user request d) = d
     /\ (exists e, fst (register_view create_user request d) = inl e)
     /\ (forall username password nombre identificador user,
           post_item "username" (formulario request) = inr username ->
           post_item "password" (formulario request) = inr password ->
           post_item "nombre" (formulario request) = inr nombre ->
           post_item "identificador" (formulario request) = inr identificador ->
           create_user username password = Some user ->
           fst (register_view create_user request d)
           = inl (TypeErrorArgumento "user")))
  /\ (metodo request <> POST ->
        register_view create_user request d
        = (inr (Render "reservas/registro.html"), d)).
Proof.
  unfold register_view. split.
  - intros Hm. rewrite Hm.
    destruct (post_item "username" (formulario request)) as [e1|u] eqn:E1;
      [simpl; repeat split; eauto; intros; discriminate|].
    destruct (post_item "password" (formulario request)) as [e2|p] eqn:E2;
      [simpl; repeat split; eauto; intros; discriminate|].
    destruct (post_item "nombre" (formulario request)) as [e3|n] eqn:E3;
      [simpl; repeat split; eauto; intros; discriminate|].
    destruct (post_item "identificador" (formulario request)) as [e4|i] eqn:E4;
      [simpl; repeat split; eauto; intros; discriminate|].
    destruct (create_user u p) as [user|] eqn:Ec.
    + simpl. repeat split; eauto.
    + simpl. repeat split; eauto.
      intros ? ? ? ? ? H1 H2 _ _ H5. congruence.
  - intros Hm. destruct (metodo request); [reflexivity|contradiction|reflexivity].
Qed.

(* ====================================================================== *)
(** * The queue is served in order of arrival                              *)
(* ====================================================================== *)

Lemma ForallOrdPairs_filter {A} (R : A -> A -> Prop) (f : A -> bool) (l : list A) :
  ForallOrdPairs R l -> ForallOrdPairs R (filter f l).
Proof.
  induction 1 as [|a l Hf Hl IH]; simpl; [constructor|].
  destruct (f a); [|exact IH]. constructor; [|exact IH].
  rewrite Forall_forall in *. intros x Hx. apply filter_In in Hx. apply Hf, Hx.
Qed.

(** X19 - First come, first served.  In every state reached from an
    initial state, when a release finishes a reservation (its notification
    not raising) while reservations wait for the resource, the one promoted
    is the waiting reservation that was stored first; every other waiting
    reservation has a strictly larger clock.  Since the clock of a request
    exceeds all the clocks stored for the resource, the timestamp that a
    client reports never lets its request overtake one that waits
    already. *)
Theorem X19_primero_en_llegar w0 ops env rid cli rec r0 p resto :
  inicial (db w0) ->
  buscar_recurso rid (db (ejecutar_todas ops w0)) = Some rec ->
  activa_del_cliente rid cli (db (ejecutar_todas ops w0)) = Some r0 ->
  canal env <> CanalFalla ->
  en_cola rid (db (ejecutar_todas ops w0)) = p :: resto ->
  let w := ejecutar_todas ops w0 in
  fst (liberar_reserva env rid cli w) = Ok (Some (finalizada env r0))
  /\ buscar_recurso rid (db (snd (liberar_reserva env rid cli w)))
     = Some (mkRecurso rid (codigo rec) OCUPADO (Some (reserva_pk p)))
  /\ buscar_reserva (reserva_pk p) (db (snd (liberar_reserva env rid cli w)))
     = Some (concedida env p)
  /\ forall q, In q resto -> reloj_lamport p < reloj_lamport q.
Proof.
  intros Hi Hb Ha Hc Hcola w.
  pose proof (alcanzable_consistente w0 ops Hi) as Hcons.
  fold w in Hcons, Hb, Ha, Hcola.
  destruct Hcons as [[Hpk _] Hrel _ _ _ _ _ _].
  destruct (buscar_recurso_some _ _ Hb) as [_ Hrid].
  assert (forall q, In q resto -> reloj_lamport p < reloj_lamport q) as Hprim.
  { pose proof (ForallOrdPairs_filter
                  (fun r => (recurso r =? rid) && estado_eqb (estado r) EN_COLA)
                  Hrel) as H.
    change (ForallOrdPairs reloj_menor (en_cola rid (db w))) in H.
    rewrite Hcola in H.
    assert (Forall (reloj_menor p) resto) as Hf by (inversion H; assumption).
    rewrite Forall_forall in Hf. intros q Hq. apply (Hf q Hq).
    assert (In p (en_cola rid (db w))) as H1 by (rewrite Hcola; now left).
    assert (In q (en_cola rid (db w))) as H2 by (rewrite Hcola; now right).
    apply reservas_en_in in H1, H2.
    destruct H1 as (_ & E1 & _). destruct H2 as (_ & E2 & _). congruence. }
  assert (In p (en_cola rid (db w))) as Hp by (rewrite Hcola; now left).
  destruct (@siguiente_tras_finalizar env rid rec cli r0 (db w) p Hpk Ha Hp)
    as (s0 & Hsig & Hs0 & Hs1 & Hmin).
  assert (s0 = p) as ->.
  { rewrite Hcola in Hs0. destruct Hs0 as [E|Hs0]; [now symmetry|].
    exfalso. specialize (Hprim s0 Hs0).
    destruct (Hmin p Hp) as [H|[H _]]; lia. }
  rewrite (@liberar_reserva_run env rid cli w rec r0 Hb Ha). cbn [fst snd db].
  assert ((match canal env with
           | CanalFalla => db w
           | _ => db_tras_liberar env rec cli r0 (db w)
           end) = db_tras_liberar env rec cli r0 (db w)) as ->
      by (destruct (canal env) eqn:E; try reflexivity; congruence).
  split; [destruct (canal env) eqn:E; try reflexivity; congruence|].
  unfold db_tras_liberar. rewrite Hrid, Hsig.
  split; [|split; [|exact Hprim]].
  - apply buscar_guardar_recurso with (rec := rec); [exact Hb|reflexivity].
  - unfold buscar_reserva. cbn [reservas guardar_recurso insertar_evento].
    apply buscar_guardar_reserva; [exact Hs1|reflexivity].
Qed.

Lemma X19_primero_en_llegar_witness :
  buscar_recurso 1
    (db (snd (liberar_reserva (Ejemplo.env 13) 1 Ejemplo.nodoA
                (ejecutar_todas
                   [Solicitar (Ejemplo.env 10) 1 Ejemplo.nodoA 0;
                    Solicitar (Ejemplo.env 11) 1 Ejemplo.nodoC 0;
                    Solicitar (Ejemplo.env 12) 1 Ejemplo.nodoB (-5)]
                   Ejemplo.w0))))
  = Some (mkRecurso 1 "PRINTER1" OCUPADO (Some 2)).
Proof.
  destruct (@X19_primero_en_llegar Ejemplo.w0
              [Solicitar (Ejemplo.env 10) 1 Ejemplo.nodoA 0;
               Solicitar (Ejemplo.env 11) 1 Ejemplo.nodoC 0;
               Solicitar (Ejemplo.env 12) 1 Ejemplo.nodoB (-5)]
              (Ejemplo.env 13) 1 Ejemplo.nodoA
              (mkRecurso 1 "PRINTER1" OCUPADO (Some 1))
              (mkReserva 1 1 Ejemplo.nodoA 1 "A" ACTIVA (Some 10) None 10)
              (mkReserva 2 1 Ejemplo.nodoC 2 "C" EN_COLA None None 11)
              [mkReserva 3 1 Ejemplo.nodoB 3 "B" EN_COLA None None 12]
              ejemplo_inicial eq_refl eq_refl)
    as (_ & H & _).
  - discriminate.
  - reflexivity.
  - exact H.
Defined.
